(** * The SOAP adapter of the OTBI SQL client: request encoding and
      response decoding of the SOAP service ([executeSoapQuery] and its
      helpers in src/services), the row-limit handler of [App], and the
      constants.

    JavaScript strings are sequences of UTF-16 code units; they are
    modelled as lists of integers.  The library functions the service
    calls ([trim], [endsWith], [includes], [slice], [substring],
    [replace], [btoa], [atob], [TextEncoder], [TextDecoder], [parseInt])
    are written out after ECMA-262 and the WHATWG standards, the DOM as a
    tree of nodes. *)

From Stdlib Require Import ZArith List Bool Lia String Ascii.
From Stdlib Require Import DecimalString DecimalPos.
Import ListNotations.

Local Open Scope Z_scope.

(* ================================================================== *)
(** ** JavaScript strings *)
(* ================================================================== *)

Module JS.

(** A string is its list of UTF-16 code units. *)
Definition jsstring := list Z.

(** Source literals (all ASCII) are written as Rocq strings. *)
Definition js (s : string) : jsstring :=
  map (fun a => Z.of_nat (nat_of_ascii a)) (list_ascii_of_string s).

Definition length (s : jsstring) : Z := Z.of_nat (List.length s).

Fixpoint eqb (s t : jsstring) : bool :=
  match s, t with
  | [], [] => true
  | a :: s', b :: t' => (a =? b) && eqb s' t'
  | _, _ => false
  end.

(** [s.startsWith(t)] *)
Fixpoint startsWith (s t : jsstring) {struct t} : bool :=
  match t, s with
  | [], _ => true
  | b :: t', a :: s' => (a =? b) && startsWith s' t'
  | _ :: _, [] => false
  end.

(** [s.endsWith(t)]: the last [t.length] code units of [s] are [t]. *)
Definition endsWith (s t : jsstring) : bool :=
  (List.length t <=? List.length s)%nat
  && eqb (skipn (List.length s - List.length t) s) t.

(** [s.indexOf(t)], [None] standing for -1. *)
Fixpoint indexOf (s t : jsstring) : option nat :=
  if startsWith s t then Some 0%nat
  else match s with
       | [] => None
       | _ :: s' => option_map S (indexOf s' t)
       end.

(** [s.includes(t)] *)
Definition includes (s t : jsstring) : bool :=
  match indexOf s t with Some _ => true | None => false end.

(** ECMA-262 WhiteSpace and LineTerminator code points, the ones [trim]
    removes; all of them are single code units. *)
Definition isWhiteSpace (c : Z) : bool :=
  (c =? 9) || (c =? 10) || (c =? 11) || (c =? 12) || (c =? 13)
  || (c =? 32) || (c =? 160) || (c =? 5760)
  || ((8192 <=? c) && (c <=? 8202))
  || (c =? 8232) || (c =? 8233) || (c =? 8239) || (c =? 8287)
  || (c =? 12288) || (c =? 65279).

Fixpoint trimStart (s : jsstring) : jsstring :=
  match s with
  | c :: s' => if isWhiteSpace c then trimStart s' else s
  | [] => []
  end.

Definition trimEnd (s : jsstring) : jsstring := rev (trimStart (rev s)).

(** [s.trim()] *)
Definition trim (s : jsstring) : jsstring := trimEnd (trimStart s).

(** A relative index of [slice]: negative counts from the end, the
    result is clamped to [0, len]. *)
Definition relIndex (len i : Z) : Z :=
  if i <? 0 then Z.max (len + i) 0 else Z.min i len.

(** [s.slice(b, e)] *)
Definition slice (s : jsstring) (b e : Z) : jsstring :=
  let from := relIndex (length s) b in
  let to := relIndex (length s) e in
  firstn (Z.to_nat (to - from)) (skipn (Z.to_nat from) s).

(** [s.substring(b, e)]: both ends clamped to [0, len], swapped when
    out of order. *)
Definition substring (s : jsstring) (b e : Z) : jsstring :=
  let b' := Z.min (Z.max b 0) (length s) in
  let e' := Z.min (Z.max e 0) (length s) in
  let from := Z.min b' e' in
  let to := Z.max b' e' in
  firstn (Z.to_nat (to - from)) (skipn (Z.to_nat from) s).

(** GetSubstitution for a string pattern (no capture groups): in the
    replacement text [$$] is a dollar, [$&] the match, [$`] the text
    before it and [$'] the text after it; every other [$] is literal. *)
Fixpoint getSubstitution (matched before after tpl : jsstring) : jsstring :=
  match tpl with
  | [] => []
  | c :: rest =>
      if c =? 36 then
        match rest with
        | d :: rest' =>
            if d =? 36 then 36 :: getSubstitution matched before after rest'
            else if d =? 38 then matched ++ getSubstitution matched before after rest'
            else if d =? 96 then before ++ getSubstitution matched before after rest'
            else if d =? 39 then after ++ getSubstitution matched before after rest'
            else 36 :: getSubstitution matched before after rest
        | [] => [36]
        end
      else c :: getSubstitution matched before after rest
  end.

(** [s.replace(pat, repl)] with a string pattern: the first occurrence
    only. *)
Definition replace (s pat repl : jsstring) : jsstring :=
  match indexOf s pat with
  | None => s
  | Some p =>
      let before := firstn p s in
      let after := skipn (p + List.length pat) s in
      before ++ getSubstitution pat before after repl ++ after
  end.

(** The code units of a string are 16-bit values. *)
Definition isString (s : jsstring) : bool :=
  forallb (fun c => (0 <=? c) && (c <=? 65535)) s.

(** JS numbers, as far as row limits need them: [NaN] and the integers.
    [Num z] is the Number with mathematical value [z]; Number::toString
    prints it in plain decimal (exact for every safe integer). *)
Inductive number := NaN | Num (z : Z).

Definition numberToString (n : number) : jsstring :=
  match n with
  | NaN => js "NaN"
  | Num z => js (NilZero.string_of_int (Z.to_int z))
  end.

(** The value of a digit in a radix, if it is one. *)
Definition digitValue (radix c : Z) : option Z :=
  let v := if (48 <=? c) && (c <=? 57) then c - 48
           else if (97 <=? c) && (c <=? 122) then c - 87
           else if (65 <=? c) && (c <=? 90) then c - 55
           else radix in
  if v <? radix then Some v else None.

(** The longest prefix of digits, read in the radix; [None] when the
    first character is no digit. *)
Fixpoint parseDigits (radix : Z) (acc : option Z) (s : jsstring) : option Z :=
  match s with
  | [] => acc
  | c :: s' =>
      match digitValue radix c with
      | Some v =>
          parseDigits radix
            (Some (match acc with Some a => a * radix + v | None => v end)) s'
      | None => acc
      end
  end.

(** [parseInt(s)] without a radix: leading white space is skipped, a
    sign is read, [0x] or [0X] selects radix 16, and the digits that
    follow give the value; no digit gives [NaN]. *)
Definition parseInt (s : jsstring) : number :=
  let s1 := trimStart s in
  let sign := if startsWith s1 [45] then -1 else 1 in
  let s2 := if startsWith s1 [43] || startsWith s1 [45] then skipn 1 s1 else s1 in
  let hex := startsWith s2 [48; 120] || startsWith s2 [48; 88] in
  let s3 := if hex then skipn 2 s2 else s2 in
  match parseDigits (if hex then 16 else 10) None s3 with
  | None => NaN
  | Some m => Num (sign * m)
  end.

(** ToBoolean on numbers: [NaN] and zero are falsy. *)
Definition truthy (n : number) : bool :=
  match n with
  | NaN => false
  | Num z => negb (z =? 0)
  end.

End JS.

Import JS.


(* ================================================================== *)
(** ** Outcomes of a call: a value, a thrown exception, or no answer
       within the fuel of a loop *)
(* ================================================================== *)

Record exn := mkExn { exnName : jsstring; exnMessage : jsstring }.

(** [new Error(msg)] *)
Definition Error (msg : jsstring) : exn := mkExn (js "Error") msg.

Inductive outcome (A : Type) :=
| Ok (a : A)
| Throw (e : exn)
| OutOfFuel.

Arguments Ok {A} a.
Arguments Throw {A} e.
Arguments OutOfFuel {A}.

Definition bind {A B} (m : outcome A) (k : A -> outcome B) : outcome B :=
  match m with
  | Ok a => k a
  | Throw e => Throw e
  | OutOfFuel => OutOfFuel
  end.

Notation "x <- m ;; k" := (bind m (fun x => k))
  (at level 61, m at next level, right associativity).

(* ================================================================== *)
(** ** Base64: [btoa] and [atob] *)
(* ================================================================== *)

Module Base64.

(** The character of a 6-bit value: A-Z, a-z, 0-9, plus, slash. *)
Definition b64char (v : Z) : Z :=
  if v <? 26 then 65 + v
  else if v <? 52 then 97 + (v - 26)
  else if v <? 62 then 48 + (v - 52)
  else if v =? 62 then 43
  else 47.

Definition b64value (c : Z) : option Z :=
  if (65 <=? c) && (c <=? 90) then Some (c - 65)
  else if (97 <=? c) && (c <=? 122) then Some (c - 97 + 26)
  else if (48 <=? c) && (c <=? 57) then Some (c - 48 + 52)
  else if c =? 43 then Some 62
  else if c =? 47 then Some 63
  else None.

(** The 6-bit values of a byte sequence: three bytes make four
    values, one left-over byte two and two left-over bytes three. *)
Fixpoint sextets (bs : list Z) : list Z :=
  match bs with
  | [] => []
  | [a] => [a / 4; (a mod 4) * 16]
  | [a; b] => [a / 4; (a mod 4) * 16 + b / 16; (b mod 16) * 4]
  | a :: b :: c :: rest =>
      a / 4 :: (a mod 4) * 16 + b / 16 :: (b mod 16) * 4 + c / 64 :: c mod 64
      :: sextets rest
  end.

(** The padding that fills the last group of four characters. *)
Definition padding (bs : list Z) : jsstring :=
  match (List.length bs mod 3)%nat with
  | 1%nat => [61; 61]
  | 2%nat => [61]
  | _ => []
  end.

Definition encodeBytes (bs : list Z) : jsstring :=
  map b64char (sextets bs) ++ padding bs.

Definition InvalidCharacterError : exn :=
  mkExn (js "InvalidCharacterError") (js "The string contains invalid characters.").

Definition isByte (b : Z) : bool := (0 <=? b) && (b <=? 255).

Definition isSextet (v : Z) : bool := (0 <=? v) && (v <=? 63).

(** [btoa(s)]: every code unit of [s] is one byte; a code unit above
    255 throws. *)
Definition btoa (s : jsstring) : outcome jsstring :=
  if forallb isByte s
  then Ok (encodeBytes s)
  else Throw InvalidCharacterError.

Definition isAsciiWhitespace (c : Z) : bool :=
  (c =? 9) || (c =? 10) || (c =? 12) || (c =? 13) || (c =? 32).

(** Four 6-bit values make three bytes; of a last group of two or
    three values the left-over bits are dropped. *)
Fixpoint decodeValues (vs : list Z) : list Z :=
  match vs with
  | a :: b :: c :: d :: rest =>
      (a * 4 + b / 16) :: ((b mod 16) * 16 + c / 4) :: ((c mod 4) * 64 + d)
      :: decodeValues rest
  | [a; b; c] => [a * 4 + b / 16; (b mod 16) * 16 + c / 4]
  | [a; b] => [a * 4 + b / 16]
  | _ => []
  end.

Fixpoint values (s : jsstring) : option (list Z) :=
  match s with
  | [] => Some []
  | c :: s' =>
      match b64value c, values s' with
      | Some v, Some vs => Some (v :: vs)
      | _, _ => None
      end
  end.

(** One or two [=] at the end of a string whose length is a multiple
    of four are removed. *)
Definition stripPadding (s : jsstring) : jsstring :=
  if (Z.of_nat (List.length s) mod 4 =? 0) then
    if endsWith s [61; 61] then firstn (List.length s - 2) s
    else if endsWith s [61] then firstn (List.length s - 1) s
    else s
  else s.

(** [atob(s)], the forgiving Base64 decoder of the HTML standard. *)
Definition atob (s : jsstring) : outcome jsstring :=
  let data := stripPadding (filter (fun c => negb (isAsciiWhitespace c)) s) in
  if Z.of_nat (List.length data) mod 4 =? 1 then Throw InvalidCharacterError
  else match values data with
       | Some vs => Ok (decodeValues vs)
       | None => Throw InvalidCharacterError
       end.

End Base64.

(* ================================================================== *)
(** ** UTF-8: [TextEncoder] and [TextDecoder] *)
(* ================================================================== *)

Module Utf8.

Definition isLeadSurrogate (c : Z) : bool := (55296 <=? c) && (c <=? 56319).
Definition isTrailSurrogate (c : Z) : bool := (56320 <=? c) && (c <=? 57343).

(** The code points of a string, a surrogate pair counting as one;
    [lone] is what an unpaired surrogate [c] is read as. *)
Fixpoint codePoints (lone : Z -> Z) (s : jsstring) : list Z :=
  match s with
  | [] => []
  | c :: rest =>
      if isLeadSurrogate c then
        match rest with
        | d :: rest' =>
            if isTrailSurrogate d
            then (65536 + (c - 55296) * 1024 + (d - 56320)) :: codePoints lone rest'
            else lone c :: codePoints lone rest
        | [] => [lone c]
        end
      else if isTrailSurrogate c then lone c :: codePoints lone rest
      else c :: codePoints lone rest
  end.

(** A well-formed string: 16-bit code units, every surrogate paired. *)
Fixpoint wellFormed (s : jsstring) : bool :=
  match s with
  | [] => true
  | c :: rest =>
      if isLeadSurrogate c then
        match rest with
        | d :: rest' => isTrailSurrogate d && wellFormed rest'
        | [] => false
        end
      else negb (isTrailSurrogate c) && (0 <=? c) && (c <=? 65535)
           && wellFormed rest
  end.

(** A Unicode scalar value: a code point that is no surrogate. *)
Definition isScalarValue (cp : Z) : bool :=
  (0 <=? cp) && (cp <=? 1114111)
  && negb ((55296 <=? cp) && (cp <=? 57343)).

(** Conversion to scalar values as [TextEncoder.encode] does it: an
    unpaired surrogate becomes U+FFFD. *)
Definition toScalarValues : jsstring -> list Z := codePoints (fun _ => 65533).

(** The string iterator, which [Array.from] and [Uint8Array.from] use:
    an unpaired surrogate is kept. *)
Definition stringIterator : jsstring -> list Z := codePoints (fun c => c).

(** [String.fromCodePoint(cp)] *)
Definition fromCodePoint (cp : Z) : jsstring :=
  if cp <=? 65535 then [cp]
  else [55296 + (cp - 65536) / 1024; 56320 + (cp - 65536) mod 1024].

(** The UTF-8 encoder of the Encoding standard, one scalar value. *)
Definition encodeCodePoint (cp : Z) : list Z :=
  if cp <=? 127 then [cp]
  else if cp <=? 2047 then [192 + cp / 64; 128 + cp mod 64]
  else if cp <=? 65535 then
    [224 + cp / 4096; 128 + (cp / 64) mod 64; 128 + cp mod 64]
  else
    [240 + cp / 262144; 128 + (cp / 4096) mod 64;
     128 + (cp / 64) mod 64; 128 + cp mod 64].

(** [new TextEncoder().encode(s)] *)
Definition textEncode (s : jsstring) : list Z :=
  flat_map encodeCodePoint (toScalarValues s).

(** The state of the UTF-8 decoder of the Encoding standard. *)
Record decoder := mkDecoder {
  codePoint : Z;
  bytesSeen : Z;
  bytesNeeded : Z;
  lowerBoundary : Z;
  upperBoundary : Z
}.

Definition initial : decoder := mkDecoder 0 0 0 128 191.

(** A byte read while no sequence is open. *)
Definition leadByte (b : Z) : decoder * list Z :=
  if (0 <=? b) && (b <=? 127) then (initial, [b])
  else if (194 <=? b) && (b <=? 223) then (mkDecoder (b - 192) 0 1 128 191, [])
  else if (224 <=? b) && (b <=? 239) then
    (mkDecoder (b - 224) 0 2 (if b =? 224 then 160 else 128)
               (if b =? 237 then 159 else 191), [])
  else if (240 <=? b) && (b <=? 244) then
    (mkDecoder (b - 240) 0 3 (if b =? 240 then 144 else 128)
               (if b =? 244 then 143 else 191), [])
  else (initial, [65533]).

(** One byte: the new state and the scalar values emitted.  A byte
    outside the boundaries ends the open sequence with U+FFFD and is
    read again as a lead byte. *)
Definition step (d : decoder) (b : Z) : decoder * list Z :=
  if bytesNeeded d =? 0 then leadByte b
  else if negb ((lowerBoundary d <=? b) && (b <=? upperBoundary d)) then
    let (d', out) := leadByte b in (d', 65533 :: out)
  else
    let cp := codePoint d * 64 + (b - 128) in
    if bytesSeen d + 1 =? bytesNeeded d then (initial, [cp])
    else (mkDecoder cp (bytesSeen d + 1) (bytesNeeded d) 128 191, []).

(** The whole input; an open sequence at the end gives U+FFFD. *)
Fixpoint run (d : decoder) (bs : list Z) : list Z :=
  match bs with
  | [] => if bytesNeeded d =? 0 then [] else [65533]
  | b :: bs' => let (d', out) := step d b in out ++ run d' bs'
  end.

(** A [TextDecoder] made without options does not ignore the byte
    order mark: a leading U+FEFF of the decoded text is dropped. *)
Definition dropBOM (cps : list Z) : list Z :=
  match cps with
  | c :: rest => if c =? 65279 then rest else cps
  | [] => []
  end.

(** [new TextDecoder().decode(bytes)] *)
Definition textDecode (bs : list Z) : jsstring :=
  flat_map fromCodePoint (dropBOM (run initial bs)).

End Utf8.

(* ================================================================== *)
(** ** The request encoder *)
(* ================================================================== *)

Definition CHUNK_SIZE : Z := 32767.

(** Robust Base64 encoder that handles UTF-8 strings. *)
Definition encodeBase64 (str : jsstring) : outcome jsstring :=
  let bytes := Utf8.textEncode str in
  let binString := flat_map Utf8.fromCodePoint bytes in
  Base64.btoa binString.

(** Decodes a Base64 string back to UTF-8; a failure of [atob] is
    caught and gives the empty string. *)
Definition decodeBase64 (str : jsstring) : jsstring :=
  match Base64.atob str with
  | Ok binString =>
      let bytes := map (fun m => m mod 256) (Utf8.stringIterator binString) in
      Utf8.textDecode bytes
  | _ => []
  end.

(** Lines 93-99 of the encoder: the sanitized and wrapped statement. *)
Definition cleanSql (sql : jsstring) : jsstring :=
  let cleanSql := trim sql in
  if endsWith cleanSql (js ";") then slice cleanSql 0 (-1) else cleanSql.

Definition wrappedSql (sql : jsstring) (rowLimit : number) : jsstring :=
  js "SELECT * FROM (" ++ cleanSql sql ++ js ") WHERE rownum <= "
  ++ numberToString rowLimit.

(** One parameter item of the template literal of the loop body. *)
Definition paramItem (paramName chunk : jsstring) : jsstring :=
  js "
        <v2:item>
            <v2:name>" ++ paramName ++ js "</v2:name>
            <v2:values>
                <v2:item>" ++ chunk ++ js "</v2:item>
            </v2:values>
        </v2:item>".

(** The item of a chunk given as the pair of its name and its text. *)
Definition renderChunk (c : jsstring * jsstring) : jsstring :=
  paramItem (fst c) (snd c).

(** The loop [for (let i = 0; i < totalLen; i += CHUNK_SIZE)]; [None]
    when the fuel runs out before the loop ends. *)
Fixpoint chunkLoop (fuel : nat) (base64Sql : jsstring) (i : Z)
    (paramXml : jsstring) : option jsstring :=
  match fuel with
  | O => None
  | S fuel' =>
      if i <? JS.length base64Sql then
        let chunkIndex := i / CHUNK_SIZE in
        if 9 <=? chunkIndex then Some paramXml
        else
          let chunk := substring base64Sql i (i + CHUNK_SIZE) in
          let paramName := js "q" ++ numberToString (Num (chunkIndex + 1)) in
          chunkLoop fuel' base64Sql (i + CHUNK_SIZE)
                    (paramXml ++ paramItem paramName chunk)
      else Some paramXml
  end.

(** Splits the SQL into Base64 chunks mapped to q1...q9. *)
Definition prepareSqlParameters (sql : jsstring) (rowLimit : number)
    : outcome jsstring :=
  base64Sql <- encodeBase64 (wrappedSql sql rowLimit) ;;
  match chunkLoop (S (List.length base64Sql)) base64Sql 0 [] with
  | Some paramXml => Ok paramXml
  | None => OutOfFuel
  end.


(* ================================================================== *)
(** ** The DOM *)
(* ================================================================== *)

Module Dom.

#[warnings="-register-all"]
Inductive node :=
| Element (name : jsstring) (childNodes : list node)
| Text (data : jsstring)
| Comment (data : jsstring).

(** An XML document: its root is an element. *)
Record document := mkDocument {
  rootName : jsstring;
  rootChildNodes : list node
}.

Definition documentElement (d : document) : node :=
  Element (rootName d) (rootChildNodes d).

Definition nodeType (n : node) : Z :=
  match n with
  | Element _ _ => 1
  | Text _ => 3
  | Comment _ => 8
  end.

Definition nodeName (n : node) : jsstring :=
  match n with
  | Element name _ => name
  | Text _ => js "#text"
  | Comment _ => js "#comment"
  end.

Definition isElement (n : node) : bool :=
  match n with Element _ _ => true | _ => false end.

(** [el.children]: the child nodes that are elements. *)
Definition children (n : node) : list node :=
  match n with
  | Element _ cs => filter isElement cs
  | _ => []
  end.

(** [n.textContent]: the text of all descendants in tree order,
    comments left out. *)
Fixpoint textContent (n : node) : jsstring :=
  match n with
  | Element _ cs =>
      List.concat (map (fun c => match c with
                            | Comment _ => []
                            | _ => textContent c
                            end) cs)
  | Text d => d
  | Comment d => d
  end.

(** The elements of a subtree in tree order, the root first. *)
Fixpoint elements (n : node) : list node :=
  match n with
  | Element _ cs => n :: List.concat (map elements cs)
  | _ => []
  end.

(** [doc.getElementsByTagName(name)]: the elements with that qualified
    name, in tree order. *)
Definition getElementsByTagName (d : document) (name : jsstring) : list node :=
  filter (fun e => JS.eqb name (js "*") || JS.eqb (nodeName e) name)
         (elements (documentElement d)).

(** [list[0]], [None] standing for undefined. *)
Definition item0 (l : list node) : option node := hd_error l.

(** [a || b] on values that are a node or undefined. *)
Definition orElse (a b : option node) : option node :=
  match a with Some _ => a | None => b end.

End Dom.

Import Dom.

(* ================================================================== *)
(** ** Plain objects and Sets with string keys *)
(* ================================================================== *)

(** An object made by [{}]: its own properties in insertion order. *)
Definition jsobject := list (jsstring * jsstring).

Fixpoint setOwn (o : jsobject) (k v : jsstring) : jsobject :=
  match o with
  | [] => [(k, v)]
  | (k', v') :: o' =>
      if JS.eqb k' k then (k', v) :: o' else (k', v') :: setOwn o' k v
  end.

(** [o[k] = v] for a string [v].  The object inherits the accessor
    [__proto__] of Object.prototype, whose setter ignores a value that
    is neither an object nor null: that assignment makes no property. *)
Definition objSet (o : jsobject) (k v : jsstring) : jsobject :=
  if JS.eqb k (js "__proto__") then o else setOwn o k v.

Fixpoint getOwn (o : jsobject) (k : jsstring) : option jsstring :=
  match o with
  | [] => None
  | (k', v) :: o' => if JS.eqb k' k then Some v else getOwn o' k
  end.

Definition keys (o : jsobject) : list jsstring := map fst o.

(** [set.add(x)] on a Set, which keeps insertion order. *)
Definition setAdd (s : list jsstring) (x : jsstring) : list jsstring :=
  if existsb (JS.eqb x) s then s else s ++ [x].

(** [a || empty] on strings: the empty string is the only falsy one. *)
Definition orEmpty (a : jsstring) : jsstring :=
  match a with [] => [] | _ => a end.

(* ================================================================== *)
(** ** Types and constants *)
(* ================================================================== *)

Record ConnectionConfig := mkConfig {
  id : jsstring;
  name : jsstring;
  url : jsstring;
  username : jsstring;
  password : jsstring;
  soapTemplate : jsstring;
  corsProxy : option jsstring
}.

Record QueryResult := mkResult {
  columns : list jsstring;
  rows : list jsobject;
  rawXml : option jsstring;
  executionTimeMs : Z
}.

Definition REPORT_SERVICE_PATH : jsstring :=
  js "/xmlpserver/services/v2/ReportService".

(** What [fetch] settles to: a rejection, or a response with its
    status and body text. *)
Inductive fetchResult :=
| Rejected (e : exn)
| Response (status : Z) (text : jsstring).

(** [response.ok]: the status is in the range 200-299. *)
Definition ok (status : Z) : bool := (200 <=? status) && (status <=? 299).

(* ================================================================== *)
(** ** The response decoder and the query execution *)
(* ================================================================== *)

Section Service.

(** [new DOMParser().parseFromString(s, "text/xml")] *)
Variable parseFromString : jsstring -> document.

(** [fetch(url, {method: 'POST', headers, body})] *)
Variable fetch : jsstring -> jsstring -> fetchResult.

(** [Math.round(performance.now() - startTime)] *)
Variable elapsedMs : Z.

(** The body of the inner loop over the children of a row. *)
Definition addColumn (st : jsobject * list jsstring) (col : node)
    : jsobject * list jsstring :=
  let (rowData, columnsSet) := st in
  let colName := nodeName col in
  let colValue := orEmpty (textContent col) in
  (objSet rowData colName colValue, setAdd columnsSet colName).

(** The body of the outer loop over the rows. *)
Definition addRow (st : list jsobject * list jsstring) (row : node)
    : list jsobject * list jsstring :=
  let (resultRows, columnsSet) := st in
  if negb (nodeType row =? 1) then st
  else
    let (rowData, columnsSet') :=
      fold_left addColumn (children row) ([], columnsSet) in
    (resultRows ++ [rowData], columnsSet').

(** The flattening of a parsed document to a table. *)
Definition flatten (xmlString : jsstring) (xmlDoc : document) : QueryResult :=
  let root := documentElement xmlDoc in
  let rows := children root in
  if (List.length rows =? 0)%nat then mkResult [] [] (Some xmlString) 0
  else
    let (resultRows, columnsSet) := fold_left addRow rows ([], []) in
    mkResult columnsSet resultRows (Some xmlString) 0.

(** Parses the Oracle BI Publisher XML output. *)
Definition parseOracleXML (xmlString : jsstring) : outcome QueryResult :=
  let xmlDoc := parseFromString xmlString in
  let parseError := getElementsByTagName xmlDoc (js "parsererror") in
  if (0 <? List.length parseError)%nat then
    Throw (Error (js "Error parsing response XML from Oracle."))
  else Ok (flatten xmlString xmlDoc).

Definition PARAMETERS : jsstring := js "{{PARAMETERS}}".

Definition dq : jsstring := [34].

(** Step 2: the payload. *)
Definition soapBody (config : ConnectionConfig) (parametersXml : jsstring)
    : jsstring :=
  if includes (soapTemplate config) PARAMETERS then
    replace
      (replace
         (replace (soapTemplate config) (js "{{USERNAME}}") (username config))
         (js "{{PASSWORD}}") (password config))
      PARAMETERS parametersXml
  else
    js "<soapenv:Envelope xmlns:soapenv=" ++ dq
    ++ js "http://schemas.xmlsoap.org/soap/envelope/" ++ dq
    ++ js " xmlns:v2=" ++ dq
    ++ js "http://xmlns.oracle.com/oxp/service/v2" ++ dq ++ js ">
        <soapenv:Header/>
        <soapenv:Body>
            <v2:runReport>
                <v2:reportRequest>
                    <v2:attributeFormat>xml</v2:attributeFormat>
                    <v2:byPassCache>True</v2:byPassCache>
                    <v2:flattenXML>True</v2:flattenXML>
                    <v2:reportAbsolutePath>/Custom/Human Capital Management/FusionSQLtoolTest1/FSTreport_2.xdo</v2:reportAbsolutePath>
                    <v2:parameterNameValues>
                       <v2:listOfParamNameValues>
                          " ++ parametersXml ++ js "
                       </v2:listOfParamNameValues>
                    </v2:parameterNameValues>
                </v2:reportRequest>
                <v2:userID>" ++ username config ++ js "</v2:userID>
                <v2:password>" ++ password config ++ js "</v2:password>
            </v2:runReport>
        </soapenv:Body>
      </soapenv:Envelope>".

(** Step 3: the target URL, the service path appended if missing. *)
Definition targetUrl (config : ConnectionConfig) : jsstring :=
  let targetUrl := trim (url config) in
  if negb (includes targetUrl (js "/xmlpserver")) then
    let targetUrl :=
      if endsWith targetUrl (js "/") then slice targetUrl 0 (-1)
      else targetUrl in
    targetUrl ++ REPORT_SERVICE_PATH
  else targetUrl.

(** Step 4: the URL that is fetched, through the proxy if one is set. *)
Definition fetchUrl (config : ConnectionConfig) : jsstring :=
  let targetUrl := targetUrl config in
  match corsProxy config with
  | Some corsProxy =>
      if 0 <? JS.length (trim corsProxy) then
        let proxy := trim corsProxy in
        let proxy :=
          if JS.eqb proxy (js "https://corsproxy.io")
          then js "https://corsproxy.io/?" else proxy in
        let proxy :=
          if negb (endsWith proxy (js "?")) && negb (endsWith proxy (js "="))
             && negb (endsWith proxy (js "/"))
          then proxy ++ js "/" else proxy in
        proxy ++ targetUrl
      else targetUrl
  | None => targetUrl
  end.

(** [text.match(/<faultstring>(.*?)<\/faultstring>/s)], the first
    group: the text between the first opening tag and the first closing
    tag after it. *)
Definition faultMatch (text : jsstring) : option jsstring :=
  match indexOf text (js "<faultstring>") with
  | None => None
  | Some p =>
      let rest := skipn (p + 13) text in
      match indexOf rest (js "</faultstring>") with
      | None => None
      | Some q => Some (firstn q rest)
      end
  end.

Definition networkErrorMessage : jsstring :=
  js "Network Error: Failed to fetch.

Cause: This is likely a Cross-Origin (CORS) restriction by the browser.
Solution: Go to Settings and configure a CORS Proxy (e.g. https://corsproxy.io).".

Definition noReportBytesMessage : jsstring :=
  js "No 'reportBytes' found in response. The report might have failed to generate output or the user permissions are insufficient.".

(** A response that is not ok. *)
Definition httpError (status : Z) (text : jsstring) : exn :=
  match faultMatch text with
  | Some (c :: m) =>
      Error (js "Server returned " ++ numberToString (Num status) ++ js ": "
             ++ c :: m)
  | _ =>
      Error (js "Server returned " ++ numberToString (Num status) ++ js ": "
             ++ text)
  end.

(** Steps 6 and 7: the Base64 payload of an ok response, decoded and
    flattened. *)
Definition decodeResponse (responseText : jsstring) : outcome QueryResult :=
  let doc := parseFromString responseText in
  let fault := orElse (item0 (getElementsByTagName doc (js "faultstring")))
                      (item0 (getElementsByTagName doc (js "soapenv:Fault"))) in
  match fault with
  | Some fault => Throw (Error (js "Oracle SOAP Fault: " ++ textContent fault))
  | None =>
      let reportBytesNode :=
        orElse (item0 (getElementsByTagName doc (js "reportBytes")))
          (orElse (item0 (getElementsByTagName doc (js "v2:reportBytes")))
                  (item0 (getElementsByTagName doc (js "ns2:reportBytes")))) in
      match reportBytesNode with
      | None => Throw (Error noReportBytesMessage)
      | Some reportBytesNode =>
          match textContent reportBytesNode with
          | [] => Throw (Error noReportBytesMessage)
          | base64Data =>
              let decodedXml := decodeBase64 base64Data in
              result <- parseOracleXML decodedXml ;;
              Ok (mkResult (columns result) (rows result) (rawXml result)
                           elapsedMs)
          end
      end
  end.

(** What becomes of a response: an error for a status that is not ok,
    the decoded table otherwise. *)
Definition handleResponse (status : Z) (text : jsstring) : outcome QueryResult :=
  if negb (ok status) then Throw (httpError status text)
  else decodeResponse text.

(** Executes the SOAP request. *)
Definition executeSoapQuery (query : jsstring) (config : ConnectionConfig)
    (rowLimit : number) : outcome QueryResult :=
  parametersXml <- prepareSqlParameters query rowLimit ;;
  let soapBody := soapBody config parametersXml in
  let fetchUrl := fetchUrl config in
  match fetch fetchUrl soapBody with
  | Rejected error =>
      if JS.eqb (exnName error) (js "TypeError")
         && JS.eqb (exnMessage error) (js "Failed to fetch")
      then Throw (Error networkErrorMessage)
      else Throw error
  | Response status text => handleResponse status text
  end.

End Service.

(* ================================================================== *)
(** ** The row-limit input of the toolbar *)
(* ================================================================== *)

Module App.

(** [onChange] of the Limit Rows input:
    [rowLimit: parseInt(e.target.value) || 100]. *)
Definition onRowLimitChange (value : jsstring) : number :=
  let parsed := parseInt value in
  if truthy parsed then parsed else Num 100.

End App.


(* ================================================================== *)
(** ** Sample data *)
(* ================================================================== *)

Module Sample.

Definition leaf (tag text : string) : node := Element (js tag) [Text (js text)].

(** The document of
    [<ROWSET><ROW><A>1</A><B>2</B></ROW><ROW><A>3</A></ROW></ROWSET>]. *)
Definition rowset : document :=
  mkDocument (js "ROWSET")
    [Element (js "ROW") [leaf "A" "1"; leaf "B" "2"];
     Element (js "ROW") [leaf "A" "3"]].

(** The text of [rowset]. *)
Definition rowsetText : jsstring :=
  js "<ROWSET><ROW><A>1</A><B>2</B></ROW><ROW><A>3</A></ROW></ROWSET>".

(** The document of [<ROWSET></ROWSET>]. *)
Definition emptyRowset : document := mkDocument (js "ROWSET") [].

(** The document of a row with the same tag twice:
    [<ROWSET><ROW><A>1</A><B>2</B><A>3</A></ROW></ROWSET>]. *)
Definition twice : document :=
  mkDocument (js "ROWSET")
    [Element (js "ROW") [leaf "A" "1"; leaf "B" "2"; leaf "A" "3"]].

(** The document of
    [<ROWSET><ROW><__proto__>1</__proto__><__proto__>2</__proto__></ROW></ROWSET>]. *)
Definition protoTwice : document :=
  mkDocument (js "ROWSET")
    [Element (js "ROW") [leaf "__proto__" "1"; leaf "__proto__" "2"]].

(** What the parser makes of a text that is not well-formed: a document
    whose root is a [parsererror] element that describes the error. *)
Definition parseErrorDocument : document :=
  mkDocument (js "parsererror") [Text (js "XML Parsing Error: mismatched tag")].

(** A SOAP envelope without a fault and without report bytes. *)
Definition emptyEnvelope : document :=
  mkDocument (js "env:Envelope")
    [Element (js "env:Header") [];
     Element (js "env:Body") [Element (js "ns2:runReportResponse") []]].

(** A SOAP envelope with a fault: the elements of the document, by
    their qualified names (the namespace declaration of the root is an
    attribute, which no scan of the decoder reads). *)
Definition faultEnvelope : document :=
  mkDocument (js "env:Envelope")
    [Element (js "env:Body")
       [Element (js "env:Fault")
          [leaf "faultcode" "env:Server"; leaf "faultstring" "ORA-00001"]]].

(** The text of [faultEnvelope], in three parts around the fault text;
    the root binds the prefix [env]. *)
Definition faultPre : jsstring :=
  js "<env:Envelope xmlns:env='http://schemas.xmlsoap.org/soap/envelope/'><env:Body><env:Fault><faultcode>env:Server</faultcode>".

Definition faultPost : jsstring := js "</env:Fault></env:Body></env:Envelope>".

Definition faultBody : jsstring :=
  faultPre ++ js "<faultstring>" ++ js "ORA-00001" ++ js "</faultstring>"
  ++ faultPost.

(** A parser that gives the same document for every text. *)
Definition parserOf (d : document) : jsstring -> document := fun _ => d.

Definition connection : ConnectionConfig :=
  mkConfig (js "c1") (js "Prod") (js "https://h.example.com/")
           (js "user") (js "secret")
           (js "<u>{{USERNAME}}</u><p>{{PASSWORD}}</p>{{PARAMETERS}}<again>{{USERNAME}}{{PASSWORD}}{{PARAMETERS}}</again>")
           (Some (js "https://corsproxy.io")).

End Sample.

(* ================================================================== *)
(** ** The wording of the specification, for comparison *)
(* ================================================================== *)

Module Spec.

(** "if the trimmed SQL ends with a semicolon, strip exactly one
    trailing semicolon" *)
Definition stripOneSemicolon (t : jsstring) : jsstring :=
  match rev t with
  | c :: r => if c =? 59 then rev r else t
  | [] => t
  end.

(** "the number of chunks = ceil(N/32767) capped at 9" *)
Definition chunkCount (n : Z) : Z := Z.min ((n + 32766) / 32767) 9.

(** "fixed-size slices of at most 32767 characters each, in order,
    starting at offset 0", slice [i] under the name q(i+1). *)
Definition chunk (b64 : jsstring) (i : nat) : jsstring * jsstring :=
  (js "q" ++ numberToString (Num (Z.of_nat i + 1)),
   firstn (Z.to_nat 32767) (skipn (i * Z.to_nat 32767) b64)).

Definition chunks (b64 : jsstring) : list (jsstring * jsstring) :=
  map (chunk b64) (seq 0 (Z.to_nat (chunkCount (JS.length b64)))).

(** The nine parameter slots. *)
Definition slotNames : list jsstring :=
  [js "q1"; js "q2"; js "q3"; js "q4"; js "q5"; js "q6"; js "q7"; js "q8";
   js "q9"].

(** "stripping one trailing slash from the base" *)
Definition stripOneSlash (base : jsstring) : jsstring :=
  match rev base with
  | c :: r => if c =? 47 then rev r else base
  | [] => base
  end.

(** The last character of a string is [c]. *)
Definition endsIn (c : Z) (s : jsstring) : bool :=
  match rev s with
  | d :: _ => d =? c
  | [] => false
  end.

(** "special-case the literal proxy value to append a [?]
    query-separator; otherwise append a trailing [/] to the proxy unless
    it already ends in [?], [=], or [/]" *)
Definition proxyPrefix (proxy : jsstring) : jsstring :=
  if JS.eqb proxy (js "https://corsproxy.io") then proxy ++ js "/?"
  else if endsIn 63 proxy || endsIn 61 proxy || endsIn 47 proxy then proxy
  else proxy ++ js "/".

(** "the distinct child tag names seen, in first-seen order": every
    name is kept where it occurs first. *)
Fixpoint distinct (l : list jsstring) : list jsstring :=
  match l with
  | [] => []
  | x :: l' => x :: filter (fun y => negb (JS.eqb x y)) (distinct l')
  end.

(** The tag names of the children of a row element, in document order. *)
Definition tagNames (row : node) : list jsstring :=
  map nodeName (children row).

(** One child of a row stored under its tag name. *)
Definition setColumn (o : jsobject) (col : node) : jsobject :=
  objSet o (nodeName col) (orEmpty (textContent col)).

(** The mapping of one row element: every child stored under its tag
    name, in document order. *)
Definition rowObject (row : node) : jsobject :=
  fold_left setColumn (children row) [].

Definition notProto (k : jsstring) : bool := negb (JS.eqb k (js "__proto__")).

(** The element names the decoder scans a response for. *)
Definition scannedNames : list jsstring :=
  [js "faultstring"; js "soapenv:Fault"; js "reportBytes";
   js "v2:reportBytes"; js "ns2:reportBytes"].

(** [s'] is [s] with the first occurrence of [tok] replaced, the text
    before and after it kept; without an occurrence [s'] is [s]. *)
Inductive replacesFirst (tok repl : jsstring) : jsstring -> jsstring -> Prop :=
| rf_absent (s : jsstring) :
    (forall q, startsWith (skipn q s) tok = false) ->
    replacesFirst tok repl s s
| rf_first (s pre post : jsstring) :
    s = pre ++ tok ++ post ->
    (forall q, (q < List.length pre)%nat -> startsWith (skipn q s) tok = false) ->
    replacesFirst tok repl s (pre ++ getSubstitution tok pre post repl ++ post).

End Spec.

(* ================================================================== *)
(** ** Names used in the statements about the rest of the code *)
(* ================================================================== *)

Module Shape.

(** The three spellings of the payload element. *)
Definition payloadNames : list jsstring :=
  [js "reportBytes"; js "v2:reportBytes"; js "ns2:reportBytes"].

(** A character of the Base64 alphabet, or the padding character. *)
Definition isBase64Char (c : Z) : bool :=
  match Base64.b64value c with
  | Some _ => true
  | None => c =? 61
  end.

(** A text without a dollar sign. *)
Definition noDollar (s : jsstring) : bool := negb (existsb (Z.eqb 36) s).

(** A code unit that is no surrogate. *)
Definition notSurrogate (c : Z) : bool :=
  negb ((55296 <=? c) && (c <=? 57343)).

(** A text that ends a number [parseInt] is reading: empty, or starting
    with something that is neither a decimal digit nor an [x]. *)
Definition stopsNumber (rest : jsstring) : bool :=
  match rest with
  | [] => true
  | c :: _ => negb ((48 <=? c) && (c <=? 57)) && negb (c =? 120) && negb (c =? 88)
  end.

End Shape.

(* ================================================================== *)
(** ** The answer of the SQL assistant *)
(* ================================================================== *)

Module Gemini.

(** What [generateSqlFromPrompt] returns for the text of the model's
    answer: [text.trim().replace(/^```sql/, '').replace(/```$/, '').trim()].
    The first pattern matches at the start of the text only, the second
    at its end only. *)
Definition cleanAnswer (text : jsstring) : jsstring :=
  let t := trim text in
  let t := if startsWith t (js "```sql") then skipn 6 t else t in
  let t := if endsWith t (js "```") then firstn (List.length t - 3) t else t in
  trim t.

End Gemini.

(* ================================================================== *)
(** ** The connection list of the settings dialog *)
(* ================================================================== *)

Module Settings.

(** [list.findIndex(p)], [None] standing for -1. *)
Fixpoint findIndex {A} (p : A -> bool) (l : list A) : option nat :=
  match l with
  | [] => None
  | x :: l' => if p x then Some 0%nat else option_map S (findIndex p l')
  end.

(** [saveCurrent]: the edited connection replaces the first one with its
    id, or is appended. *)
Definition saveCurrent (connections : list ConnectionConfig)
    (editConfig : ConnectionConfig) : list ConnectionConfig :=
  match findIndex (fun c => JS.eqb (id c) (id editConfig)) connections with
  | Some index =>
      firstn index connections ++ editConfig :: skipn (S index) connections
  | None => connections ++ [editConfig]
  end.

(** [deleteCurrent]: the connections with the id of the edited one are
    removed. *)
Definition deleteCurrent (connections : list ConnectionConfig)
    (editConfig : ConnectionConfig) : list ConnectionConfig :=
  filter (fun c => negb (JS.eqb (id c) (id editConfig))) connections.

(** [connections.find(c => c.id === id)] *)
Definition findById (connections : list ConnectionConfig) (i : jsstring)
    : option ConnectionConfig :=
  find (fun c => JS.eqb (id c) i) connections.

End Settings.

(* ================================================================== *)
(** ** The tabs of the application *)
(* ================================================================== *)

Module Tabs.

Inductive TabView := TABLE | RAW_XML.

Record SqlTab := mkTab {
  id : jsstring;
  name : jsstring;
  query : jsstring;
  rowLimit : number;
  result : option QueryResult;
  error : option jsstring;
  isLoading : bool;
  view : TabView
}.

(** [Partial<SqlTab>]: the fields an update sets. *)
Record updates := mkUpdates {
  u_id : option jsstring;
  u_name : option jsstring;
  u_query : option jsstring;
  u_rowLimit : option number;
  u_result : option (option QueryResult);
  u_error : option (option jsstring);
  u_isLoading : option bool;
  u_view : option TabView
}.

Definition noUpdates : updates :=
  mkUpdates None None None None None None None None.

Definition orKeep {A} (u : option A) (old : A) : A :=
  match u with Some new => new | None => old end.

(** [{ ...t, ...updates }] *)
Definition merge (t : SqlTab) (u : updates) : SqlTab :=
  mkTab (orKeep (u_id u) (id t)) (orKeep (u_name u) (name t))
        (orKeep (u_query u) (query t)) (orKeep (u_rowLimit u) (rowLimit t))
        (orKeep (u_result u) (result t)) (orKeep (u_error u) (error t))
        (orKeep (u_isLoading u) (isLoading t)) (orKeep (u_view u) (view t)).

(** The state of the component that the tab handlers read and write. *)
Record state := mkState {
  tabs : list SqlTab;
  activeTabId : jsstring;
  isSettingsOpen : bool
}.

(** The state the application starts in. *)
Definition initial : state :=
  mkState [mkTab (js "tab-1") (js "Query 1") [] (Num 100) None None false TABLE]
          (js "tab-1") false.

(** [updateActiveTab]: the update goes to the tabs with the active id. *)
Definition updateActiveTab (u : updates) (s : state) : state :=
  mkState (map (fun t => if JS.eqb (id t) (activeTabId s) then merge t u else t)
               (tabs s))
          (activeTabId s) (isSettingsOpen s).

(** [tabs.find(t => t.id === activeTabId) || tabs[0]] *)
Definition activeTab (s : state) : option SqlTab :=
  match find (fun t => JS.eqb (id t) (activeTabId s)) (tabs s) with
  | Some t => Some t
  | None => hd_error (tabs s)
  end.

(** [handleNewTab], with the id that [generateId] gives. *)
Definition handleNewTab (newId : jsstring) (s : state) : state :=
  mkState (tabs s
           ++ [mkTab newId
                 (js "Query " ++ numberToString
                    (Num (Z.of_nat (List.length (tabs s)) + 1)))
                 [] (Num 100) None None false TABLE])
          newId (isSettingsOpen s).

Definition TypeError (msg : jsstring) : exn := mkExn (js "TypeError") msg.

(** [handleCloseTab]: the last tab is not closed; closing the active
    tab activates the last of the tabs that remain.  Reading the id of
    that tab throws when none remains, after the tabs were set (the
    message is the one of V8).  The result is the state the handler
    leaves and the exception, if it throws. *)
Definition handleCloseTab (i : jsstring) (s : state) : state * option exn :=
  if (List.length (tabs s) =? 1)%nat then (s, None)
  else
    let newTabs := filter (fun t => negb (JS.eqb (id t) i)) (tabs s) in
    if JS.eqb i (activeTabId s) then
      match rev newTabs with
      | t :: _ => (mkState newTabs (id t) (isSettingsOpen s), None)
      | [] =>
          (mkState newTabs (activeTabId s) (isSettingsOpen s),
           Some (TypeError
                   (js "Cannot read properties of undefined (reading 'id')")))
      end
    else (mkState newTabs (activeTabId s) (isSettingsOpen s), None).

(** A click on a tab: [setActiveTabId(tab.id)]. *)
Definition selectTab (i : jsstring) (s : state) : state :=
  mkState (tabs s) i (isSettingsOpen s).

(** [err.message || "Unknown error occurred"] *)
Definition errorMessage (e : exn) : jsstring :=
  match exnMessage e with
  | [] => js "Unknown error occurred"
  | m => m
  end.

(** [handleRun], for the active tab [tab] and the connection [config]
    of the render in which it was made; [run] is what executing the
    query of that tab comes to.  The three updates of the handler are
    applied one after the other, as they are when no other handler
    runs while the request is pending. *)
Definition handleRun (run : jsstring -> ConnectionConfig -> number
                            -> outcome QueryResult)
    (config : ConnectionConfig) (tab : SqlTab) (s : state) : state :=
  match username config with
  | [] => mkState (tabs s) (activeTabId s) true
  | _ =>
      let s1 :=
        updateActiveTab
          (mkUpdates None None None None None (Some None) (Some true) None) s in
      match run (query tab) config (rowLimit tab) with
      | Ok data =>
          updateActiveTab
            (mkUpdates None None None None (Some (Some data)) None (Some false)
               (Some (match view tab with RAW_XML => RAW_XML | TABLE => TABLE end)))
            s1
      | Throw err =>
          updateActiveTab
            (mkUpdates None None None None (Some None)
               (Some (Some (errorMessage err))) (Some false) None)
            s1
      | OutOfFuel => s1
      end
  end.

(** What the handlers keep: there is a tab, the ids of the tabs are
    distinct, and the active id is the id of a tab. *)
Definition invariant (s : state) : Prop :=
  tabs s <> [] /\ NoDup (map id (tabs s)) /\ In (activeTabId s) (map id (tabs s)).

End Tabs.

(* ================================================================== *)
(** ** Sample exchanges *)
(* ================================================================== *)

Module Example.

(** The inner XML of a report with two rows; its document is
    [Sample.rowset]. *)
Definition inner : jsstring := Sample.rowsetText.

(** The text of [Sample.protoTwice]. *)
Definition protoText : jsstring :=
  js "<ROWSET><ROW><__proto__>1</__proto__><__proto__>2</__proto__></ROW></ROWSET>".

(** The Base64 text of [inner]. *)
Definition payload : jsstring :=
  js "PFJPV1NFVD48Uk9XPjxBPjE8L0E+PEI+MjwvQj48L1JPVz48Uk9XPjxBPjM8L0E+PC9ST1c+PC9ST1dTRVQ+".

(** The body of a response that carries [payload]; both prefixes are
    bound. *)
Definition response : jsstring :=
  js "<env:Envelope xmlns:env='http://schemas.xmlsoap.org/soap/envelope/'><env:Header/><env:Body><ns2:runReportResponse xmlns:ns2='http://xmlns.oracle.com/oxp/service/v2'><ns2:runReportReturn><ns2:reportBytes>"
  ++ payload
  ++ js "</ns2:reportBytes><ns2:reportContentType>text/xml</ns2:reportContentType></ns2:runReportReturn></ns2:runReportResponse></env:Body></env:Envelope>".

(** The document of [response]: its elements by their qualified names. *)
Definition envelope : document :=
  mkDocument (js "env:Envelope")
    [Element (js "env:Header") [];
     Element (js "env:Body")
       [Element (js "ns2:runReportResponse")
          [Element (js "ns2:runReportReturn")
             [Element (js "ns2:reportBytes") [Text payload];
              Sample.leaf "ns2:reportContentType" "text/xml"]]]].

(** The parser at the three texts of the examples; any other text is
    taken as not well-formed. *)
Definition parser (s : jsstring) : document :=
  if JS.eqb s response then envelope
  else if JS.eqb s inner then Sample.rowset
  else if JS.eqb s Sample.faultBody then Sample.faultEnvelope
  else Sample.parseErrorDocument.

(** A server that answers every request with the same status and body. *)
Definition respond (status : Z) (text : jsstring)
    : jsstring -> jsstring -> fetchResult :=
  fun _ _ => Response status text.

Definition firstTab : Tabs.SqlTab :=
  Tabs.mkTab (js "tab-1") (js "Query 1") (js "SELECT 1 FROM dual;") (Num 100)
             None None false Tabs.TABLE.

Definition secondTab : Tabs.SqlTab :=
  Tabs.mkTab (js "tab-2") (js "Query 2") [] (Num 100) None None false Tabs.TABLE.

(** Two tabs, the first of them active. *)
Definition twoTabs : Tabs.state :=
  Tabs.mkState [firstTab; secondTab] (js "tab-1") false.

End Example.

(* ================================================================== *)
(** ** The export of a table *)
(* ================================================================== *)

Module ExportService.

(** The property names that an object made by [{}] inherits from
    [Object.prototype]: the methods of the standard library and the
    accessor [__proto__]. *)
Definition objectPrototypeNames : list jsstring :=
  [js "constructor"; js "hasOwnProperty"; js "isPrototypeOf";
   js "propertyIsEnumerable"; js "toLocaleString"; js "toString";
   js "valueOf"; js "__proto__"; js "__defineGetter__";
   js "__defineSetter__"; js "__lookupGetter__"; js "__lookupSetter__"].

(** What [row[col]] gives on a row mapping: the text of an own
    property, the function or object that the name inherits, or
    [undefined]. *)
Inductive value :=
| Str (s : jsstring)
| Inherited
| Undefined.

Definition get (row : jsobject) (col : jsstring) : value :=
  match getOwn row col with
  | Some v => Str v
  | None =>
      if existsb (JS.eqb col) objectPrototypeNames then Inherited
      else Undefined
  end.

(** [s.replace(/c/g, repl)] for one character [c] and a replacement
    without dollar signs. *)
Definition replaceAll (c : Z) (repl s : jsstring) : jsstring :=
  flat_map (fun x => if x =? c then repl else [x]) s.

(** [list.join(sep)] on strings. *)
Fixpoint join (sep : jsstring) (l : list jsstring) : jsstring :=
  match l with
  | [] => []
  | [x] => x
  | x :: l' => x ++ sep ++ join sep l'
  end.

(** [list.map(f)] for an [f] that can throw. *)
Fixpoint mapM {A B} (f : A -> outcome B) (l : list A) : outcome (list B) :=
  match l with
  | [] => Ok []
  | x :: l' => y <- f x ;; ys <- mapM f l' ;; Ok (y :: ys)
  end.

Definition TypeError (msg : jsstring) : exn := mkExn (js "TypeError") msg.

(** One cell of the CSV text.  A value that is inherited is truthy and
    has no method [includes]: the call throws (the message is the one
    of V8). *)
Definition csvCell (row : jsobject) (col : jsstring) : outcome jsstring :=
  match get row col with
  | Inherited => Throw (TypeError (js "val.includes is not a function"))
  | Undefined => Ok []
  | Str val =>
      Ok (if includes val (js ",") || includes val dq || includes val [10]
          then dq ++ replaceAll 34 (dq ++ dq) val ++ dq
          else val)
  end.

(** [exportToCSV]: the text handed to [downloadFile], [None] when the
    function returns without a download. *)
Definition exportToCSV (result : QueryResult) : outcome (option jsstring) :=
  if (List.length (rows result) =? 0)%nat then Ok None
  else
    let headers := join (js ",") (columns result) in
    lines <- mapM (fun row =>
                     cells <- mapM (csvCell row) (columns result) ;;
                     Ok (join (js ",") cells))
                  (rows result) ;;
    Ok (Some (headers ++ [10] ++ join [10] lines)).

(** One cell of the Markdown table. *)
Definition mdCell (row : jsobject) (col : jsstring) : outcome jsstring :=
  match get row col with
  | Inherited =>
      Throw (TypeError (js "(row[col] || '').replace is not a function"))
  | Undefined => Ok []
  | Str val => Ok (replaceAll 10 (js " ") val)
  end.

(** [exportToMarkdown] *)
Definition exportToMarkdown (result : QueryResult) : outcome (option jsstring) :=
  if (List.length (rows result) =? 0)%nat then Ok None
  else
    let headers := js "| " ++ join (js " | ") (columns result) ++ js " |" in
    let separator :=
      js "| " ++ join (js " | ") (map (fun _ => js "---") (columns result))
      ++ js " |" in
    lines <- mapM (fun row =>
                     cells <- mapM (mdCell row) (columns result) ;;
                     Ok (js "| " ++ join (js " | ") cells ++ js " |"))
                  (rows result) ;;
    Ok (Some (headers ++ [10] ++ separator ++ [10] ++ join [10] lines)).

(** The number of line feeds of a text. *)
Definition lineFeeds (s : jsstring) : nat := count_occ Z.eq_dec s 10.

(** A column name that an empty object inherits. *)
Definition inherited (col : jsstring) : bool :=
  existsb (JS.eqb col) objectPrototypeNames.

End ExportService.

(* ================================================================== *)
(** ** Facts about strings *)
(* ================================================================== *)

(** Boolean comparisons read as propositions. *)
Ltac bools :=
  rewrite ?andb_true_iff, ?andb_false_iff, ?orb_true_iff, ?orb_false_iff,
    ?negb_true_iff, ?negb_false_iff, ?Z.leb_le, ?Z.leb_gt, ?Z.ltb_lt,
    ?Z.ltb_ge, ?Z.eqb_eq, ?Z.eqb_neq in *.

Section StringFacts.

Lemma eqb_eq (s t : jsstring) : JS.eqb s t = true <-> s = t.
Proof.
  revert t; induction s as [|a s IH]; intros [|b t]; simpl;
    try (split; [discriminate | congruence]); try tauto.
  rewrite andb_true_iff, Z.eqb_eq, IH.
  split; [intros [-> ->]; reflexivity | intros H; inversion H; auto].
Qed.

Lemma eqb_refl (s : jsstring) : JS.eqb s s = true.
Proof. apply eqb_eq; reflexivity. Qed.

Lemma eqb_neq (s t : jsstring) : JS.eqb s t = false <-> s <> t.
Proof.
  destruct (JS.eqb s t) eqn:E.
  - apply eqb_eq in E. split; [discriminate | congruence].
  - split; auto. intros _ H. apply eqb_eq in H. congruence.
Qed.

Lemma startsWith_app (s t : jsstring) : startsWith (t ++ s) t = true.
Proof.
  induction t as [|b t IH]; [reflexivity|].
  cbn [app startsWith]. now rewrite Z.eqb_refl, IH.
Qed.

Lemma startsWith_prefix (s t : jsstring) :
  startsWith s t = true -> s = t ++ skipn (List.length t) s.
Proof.
  revert s; induction t as [|b t IH]; intros s H; simpl in *; auto.
  destruct s as [|a s]; [discriminate|].
  apply andb_true_iff in H as [E H]. apply Z.eqb_eq in E. subst.
  f_equal. auto.
Qed.

Lemma startsWith_length (s t : jsstring) :
  startsWith s t = true -> (List.length t <= List.length s)%nat.
Proof.
  intros H. apply startsWith_prefix in H.
  apply (f_equal (@List.length Z)) in H. rewrite length_app in H. lia.
Qed.

(** [indexOf] finds an occurrence, and none starts before it. *)
Lemma indexOf_Some (s t : jsstring) (p : nat) :
  indexOf s t = Some p ->
  s = firstn p s ++ t ++ skipn (p + List.length t) s
  /\ (p + List.length t <= List.length s)%nat
  /\ forall q, (q < p)%nat -> startsWith (skipn q s) t = false.
Proof.
  revert p; induction s as [|a s IH]; intros p; simpl.
  - destruct (startsWith [] t) eqn:E; [|discriminate].
    intros [= <-]. split; [apply (startsWith_prefix _ _ E) |].
    split; [apply (startsWith_length _ _ E) | lia].
  - destruct (startsWith (a :: s) t) eqn:E.
    + intros [= <-]. split; [apply (startsWith_prefix _ _ E) |].
      split; [apply (startsWith_length _ _ E) | lia].
    + destruct (indexOf s t) as [p'|] eqn:Ei; [|discriminate].
      intros [= <-]. destruct (IH p' eq_refl) as (H1 & H2 & H3). split; [|split].
      * simpl. f_equal. exact H1.
      * simpl. lia.
      * intros [|q] Hq; simpl; [exact E | apply H3; lia].
Qed.

Lemma indexOf_None (s t : jsstring) :
  indexOf s t = None -> forall q, startsWith (skipn q s) t = false.
Proof.
  induction s as [|a s IH]; simpl.
  - destruct (startsWith [] t) eqn:E; [discriminate|].
    intros _ q. now rewrite skipn_nil.
  - destruct (startsWith (a :: s) t) eqn:E; [discriminate|].
    destruct (indexOf s t) eqn:Ei; [discriminate|].
    intros _ [|q]; simpl; auto.
Qed.

(** The first occurrence is the one [indexOf] returns. *)
Lemma indexOf_first (pre t post : jsstring) :
  (forall q, (q < List.length pre)%nat ->
             startsWith (skipn q (pre ++ t ++ post)) t = false) ->
  indexOf (pre ++ t ++ post) t = Some (List.length pre).
Proof.
  induction pre as [|a pre IH]; intros H.
  - simpl. destruct (t ++ post) eqn:E; simpl.
    + destruct t; [reflexivity | discriminate].
    + rewrite <- E. now rewrite startsWith_app.
  - change (indexOf ((a :: pre) ++ t ++ post) t)
      with (if startsWith ((a :: pre) ++ t ++ post) t then Some 0%nat
            else option_map S (indexOf (pre ++ t ++ post) t)).
    pose proof (H 0%nat ltac:(simpl; lia)) as H0. cbn [skipn] in H0.
    rewrite H0, IH; [reflexivity|].
    intros q Hq. apply (H (S q)). simpl; lia.
Qed.

Lemma endsWith_char (s : jsstring) (c : Z) :
  endsWith s [c] = match rev s with d :: _ => d =? c | [] => false end.
Proof.
  destruct s as [|d s0 _] using rev_ind; [reflexivity|].
  unfold endsWith. rewrite rev_app_distr, length_app. cbn [List.length rev app].
  replace (List.length s0 + 1 - 1)%nat with (List.length s0 + 0)%nat by lia.
  rewrite skipn_app, skipn_all2 by lia.
  replace (List.length s0 + 0 - List.length s0)%nat with 0%nat by lia.
  cbn [skipn app JS.eqb]. rewrite andb_true_r.
  destruct (1 <=? List.length s0 + 1)%nat eqn:E; [reflexivity|].
  apply Nat.leb_gt in E. lia.
Qed.

(** [s.slice(0, -1)] drops the last code unit. *)
Lemma slice_drop_last (s : jsstring) : slice s 0 (-1) = rev (tl (rev s)).
Proof.
  destruct s as [|d s0 _] using rev_ind; [reflexivity|].
  unfold slice, relIndex, JS.length. rewrite rev_app_distr, length_app.
  cbn [List.length rev app tl]. rewrite rev_involutive.
  change (-1 <? 0) with true. change (0 <? 0) with false. cbv iota.
  replace (Z.to_nat (_ - _)) with (List.length s0) by lia.
  replace (Z.to_nat _) with 0%nat by lia.
  cbn [skipn]. rewrite firstn_app, firstn_all, Nat.sub_diag. cbn [firstn].
  now rewrite app_nil_r.
Qed.

Lemma trimStart_spec (s : jsstring) :
  exists lead, s = lead ++ trimStart s
    /\ forallb isWhiteSpace lead = true
    /\ match trimStart s with c :: _ => isWhiteSpace c = false | [] => True end.
Proof.
  induction s as [|a s (lead & E & Hl & Hc)]; simpl.
  - exists []. auto.
  - destruct (isWhiteSpace a) eqn:Ea.
    + exists (a :: lead). simpl. rewrite Ea, Hl. split; [congruence | auto].
    + exists []. auto.
Qed.

End StringFacts.

Lemma trim_spec (s : jsstring) :
  exists lead trail : jsstring,
    s = lead ++ trim s ++ trail
    /\ forallb isWhiteSpace lead = true
    /\ forallb isWhiteSpace trail = true
    /\ match trim s with c :: _ => isWhiteSpace c = false | [] => True end
    /\ match rev (trim s) with c :: _ => isWhiteSpace c = false | [] => True end.
Proof.
  destruct (trimStart_spec s) as (lead & E1 & Hlead & Hhead).
  destruct (trimStart_spec (rev (trimStart s))) as (l2 & E2 & Hl2 & Hlast).
  assert (E3 : trimStart s = trim s ++ rev l2).
  { unfold trim, trimEnd. rewrite <- rev_app_distr, <- E2.
    now rewrite rev_involutive. }
  exists lead, (rev l2). repeat split.
  - now rewrite <- E3.
  - exact Hlead.
  - apply forallb_forall. intros x Hx. apply in_rev in Hx.
    now apply (proj1 (forallb_forall _ _) Hl2).
  - rewrite E3 in Hhead. destruct (trim s); [exact I | exact Hhead].
  - unfold trim, trimEnd. now rewrite rev_involutive.
Qed.

Lemma cleanSql_spec (sql : jsstring) :
  cleanSql sql = Spec.stripOneSemicolon (trim sql).
Proof.
  unfold cleanSql, Spec.stripOneSemicolon.
  change (js ";") with [59]. rewrite endsWith_char, slice_drop_last.
  destruct (rev (trim sql)) as [|c r]; [reflexivity|].
  destruct (c =? 59); reflexivity.
Qed.

(** C6. Sanitization trims the white space around the SQL and then
    strips exactly one trailing semicolon if there is one; the statement
    sent is [SELECT * FROM (<sanitized sql>) WHERE rownum <= <rowLimit>].
    [SELECT 1;] becomes [SELECT 1], and [SELECT 1] is unchanged. *)
Theorem C6_sanitize_then_wrap (sql : jsstring) (rowLimit : number) :
  exists lead trail : jsstring,
    sql = lead ++ trim sql ++ trail
    /\ forallb isWhiteSpace lead = true
    /\ forallb isWhiteSpace trail = true
    /\ match trim sql with c :: _ => isWhiteSpace c = false | [] => True end
    /\ match rev (trim sql) with c :: _ => isWhiteSpace c = false | [] => True end
    /\ cleanSql sql = Spec.stripOneSemicolon (trim sql)
    /\ wrappedSql sql rowLimit
       = js "SELECT * FROM (" ++ Spec.stripOneSemicolon (trim sql)
         ++ js ") WHERE rownum <= " ++ numberToString rowLimit
    /\ cleanSql (js "SELECT 1;") = js "SELECT 1"
    /\ cleanSql (js "SELECT 1") = js "SELECT 1"
    /\ wrappedSql (js "SELECT 1;") (Num 100)
       = js "SELECT * FROM (SELECT 1) WHERE rownum <= 100".
Proof.
  destruct (trim_spec sql) as (lead & trail & E & Hl & Ht & Hh & Hr).
  exists lead, trail. repeat split; auto.
  - apply cleanSql_spec.
  - unfold wrappedSql. now rewrite cleanSql_spec.
Qed.

(* ================================================================== *)
(** ** The encoder never throws *)
(* ================================================================== *)

Section EncoderTotal.

Lemma isString_app (s t : jsstring) :
  isString (s ++ t) = isString s && isString t.
Proof. apply forallb_app. Qed.

Lemma isString_js (str : string) : isString (js str) = true.
Proof.
  unfold isString, js. apply forallb_forall. intros c Hc.
  apply in_map_iff in Hc as (a & <- & _).
  pose proof (nat_ascii_bounded a).
  apply andb_true_iff. split; [apply Z.leb_le | apply Z.leb_le]; lia.
Qed.

Lemma isString_incl (s t : jsstring) :
  (forall c, In c s -> In c t) -> isString t = true -> isString s = true.
Proof.
  unfold isString. rewrite !forallb_forall. auto.
Qed.

Lemma trimStart_incl (s : jsstring) c : In c (trimStart s) -> In c s.
Proof.
  induction s as [|a s IH]; simpl; auto.
  destruct (isWhiteSpace a); simpl; auto.
Qed.

Lemma trim_incl (s : jsstring) c : In c (trim s) -> In c s.
Proof.
  unfold trim, trimEnd. intros H. apply in_rev in H.
  apply trimStart_incl in H. apply in_rev in H.
  now apply trimStart_incl.
Qed.

Lemma isString_cleanSql (sql : jsstring) :
  isString sql = true -> isString (cleanSql sql) = true.
Proof.
  intros H. rewrite cleanSql_spec. unfold Spec.stripOneSemicolon.
  assert (Ht : isString (trim sql) = true)
    by (apply (isString_incl _ sql); auto using trim_incl).
  destruct (rev (trim sql)) as [|c r] eqn:E; auto.
  destruct (c =? 59); auto.
  apply (isString_incl _ (trim sql)); auto.
  intros x Hx. apply in_rev. rewrite E. right. now apply in_rev.
Qed.

Lemma isString_numberToString (n : number) : isString (numberToString n) = true.
Proof. destruct n; apply isString_js. Qed.

Lemma isString_wrappedSql (sql : jsstring) (rowLimit : number) :
  isString sql = true -> isString (wrappedSql sql rowLimit) = true.
Proof.
  intros H. unfold wrappedSql.
  rewrite !isString_app, !isString_js, isString_cleanSql, isString_numberToString; auto.
Qed.

(** Induction along [codePoints]: one code unit, or a pair, at a time. *)
Lemma pairs_ind (P : jsstring -> Prop) :
  P [] ->
  (forall c, P [c]) ->
  (forall c d rest, P (d :: rest) -> P rest -> P (c :: d :: rest)) ->
  forall s, P s.
Proof.
  intros H0 H1 H2 s.
  assert (H : P s /\ forall c, P (c :: s)).
  { induction s as [|d rest [IH1 IH2]]; split; auto. }
  apply H.
Qed.

Lemma codePoints_pair (lone : Z -> Z) (c d : Z) (rest : jsstring) :
  Utf8.codePoints lone (c :: d :: rest)
  = if Utf8.isLeadSurrogate c then
      if Utf8.isTrailSurrogate d
      then (65536 + (c - 55296) * 1024 + (d - 56320)) :: Utf8.codePoints lone rest
      else lone c :: Utf8.codePoints lone (d :: rest)
    else if Utf8.isTrailSurrogate c then lone c :: Utf8.codePoints lone (d :: rest)
    else c :: Utf8.codePoints lone (d :: rest).
Proof. reflexivity. Qed.

Lemma codePoints_single (lone : Z -> Z) (c : Z) :
  Utf8.codePoints lone [c]
  = if Utf8.isLeadSurrogate c then [lone c]
    else if Utf8.isTrailSurrogate c then [lone c] else [c].
Proof. reflexivity. Qed.

Lemma isString_cons (c : Z) (s : jsstring) :
  isString (c :: s) = true <-> (0 <= c <= 65535) /\ isString s = true.
Proof.
  change (isString (c :: s)) with ((0 <=? c) && (c <=? 65535) && isString s).
  bools. tauto.
Qed.

Lemma scalar_toScalarValues (s : jsstring) :
  isString s = true ->
  forallb Utf8.isScalarValue (Utf8.toScalarValues s) = true.
Proof.
  unfold Utf8.toScalarValues.
  induction s as [|c|c d rest IH1 IH2] using pairs_ind; intros H.
  - reflexivity.
  - apply isString_cons in H as [Hc _].
    rewrite codePoints_single.
    unfold Utf8.isLeadSurrogate, Utf8.isTrailSurrogate.
    destruct ((55296 <=? c) && (c <=? 56319)) eqn:E1; [reflexivity|].
    destruct ((56320 <=? c) && (c <=? 57343)) eqn:E2; [reflexivity|].
    cbn [forallb]. unfold Utf8.isScalarValue. bools. lia.
  - apply isString_cons in H as [Hc Hrest].
    specialize (IH1 Hrest).
    apply isString_cons in Hrest as [Hd Hrest]. specialize (IH2 Hrest).
    rewrite codePoints_pair.
    unfold Utf8.isLeadSurrogate, Utf8.isTrailSurrogate.
    destruct ((55296 <=? c) && (c <=? 56319)) eqn:E1.
    + destruct ((56320 <=? d) && (d <=? 57343)) eqn:E2.
      * cbn [forallb]. rewrite IH2, andb_true_r. unfold Utf8.isScalarValue.
        bools. lia.
      * cbn [forallb]. now rewrite IH1.
    + destruct ((56320 <=? c) && (c <=? 57343)) eqn:E2.
      * cbn [forallb]. now rewrite IH1.
      * cbn [forallb]. rewrite IH1, andb_true_r. unfold Utf8.isScalarValue.
        bools. lia.
Qed.

Lemma bytes_encodeCodePoint (cp : Z) :
  Utf8.isScalarValue cp = true -> forallb Base64.isByte (Utf8.encodeCodePoint cp) = true.
Proof.
  unfold Utf8.isScalarValue, Utf8.encodeCodePoint, Base64.isByte. intros H.
  rewrite ?andb_true_iff, ?negb_true_iff, ?andb_false_iff,
    ?Z.leb_le, ?Z.leb_gt in H.
  destruct (Z.leb_spec cp 127); [|destruct (Z.leb_spec cp 2047);
    [|destruct (Z.leb_spec cp 65535)]];
    cbn [forallb]; rewrite ?andb_true_iff, ?Z.leb_le;
    repeat split; try reflexivity;
    Z.to_euclidean_division_equations; lia.
Qed.

Lemma bytes_textEncode (s : jsstring) :
  isString s = true -> forallb Base64.isByte (Utf8.textEncode s) = true.
Proof.
  intros H. apply scalar_toScalarValues in H. unfold Utf8.textEncode.
  induction (Utf8.toScalarValues s) as [|cp cps IH]; [reflexivity|].
  cbn [flat_map forallb] in *. apply andb_true_iff in H as [H1 H2].
  now rewrite forallb_app, bytes_encodeCodePoint, IH.
Qed.

(** [String.fromCodePoint] of bytes, joined: the bytes themselves. *)
Lemma binString_bytes (bs : list Z) :
  forallb Base64.isByte bs = true -> flat_map Utf8.fromCodePoint bs = bs.
Proof.
  induction bs as [|b bs IH]; [reflexivity|].
  cbn [forallb flat_map]. intros H. apply andb_true_iff in H as [Hb H].
  rewrite IH by exact H. unfold Utf8.fromCodePoint.
  unfold Base64.isByte in Hb. rewrite andb_true_iff, !Z.leb_le in Hb.
  destruct (Z.leb_spec b 65535); [reflexivity | lia].
Qed.

Lemma encodeBase64_total (s : jsstring) :
  isString s = true ->
  encodeBase64 s = Ok (Base64.encodeBytes (Utf8.textEncode s)).
Proof.
  intros H. apply bytes_textEncode in H.
  unfold encodeBase64, Base64.btoa. rewrite binString_bytes by exact H.
  now rewrite H.
Qed.

End EncoderTotal.

(* ================================================================== *)
(** ** Chunking *)
(* ================================================================== *)

Section Chunking.

Lemma firstn_plus {A} (a b : nat) (l : list A) :
  firstn (a + b) l = firstn a l ++ firstn b (skipn a l).
Proof.
  revert l; induction a as [|a IH]; intros [|x l]; simpl;
    rewrite ?firstn_nil; auto.
  now rewrite IH.
Qed.

Lemma firstn_beyond {A} (n m : nat) (l : list A) :
  (List.length l <= n)%nat -> (List.length l <= m)%nat ->
  firstn n l = firstn m l.
Proof. intros. now rewrite !firstn_all2. Qed.

(** Consecutive slices of width [c] put together. *)
Lemma concat_slices {A} (c k : nat) (l : list A) :
  List.concat (map (fun i => firstn c (skipn (i * c) l)) (seq 0 k))
  = firstn (k * c) l.
Proof.
  induction k as [|k IH]; [reflexivity|].
  rewrite seq_S, map_app, concat_app, IH. cbn [map List.concat Nat.add].
  rewrite app_nil_r.
  replace (S k * c)%nat with (k * c + c)%nat by lia.
  now rewrite firstn_plus.
Qed.

(** The slice the loop takes at [i = k * c]. *)
Lemma substring_slice (b : jsstring) (k : nat) (c : Z) :
  0 < c -> Z.of_nat k * c < JS.length b ->
  substring b (Z.of_nat k * c) (Z.of_nat k * c + c)
  = firstn (Z.to_nat c) (skipn (k * Z.to_nat c) b).
Proof.
  intros Hc Hk. unfold substring, JS.length in *.
  assert (Ex : Z.to_nat (Z.of_nat k * c) = (k * Z.to_nat c)%nat)
    by (rewrite Z2Nat.inj_mul, Nat2Z.id; lia).
  rewrite <- Ex.
  assert (Hx : 0 <= Z.of_nat k * c) by nia.
  set (x := Z.of_nat k * c) in *. clearbody x.
  set (n := Z.of_nat (List.length b)) in *.
  replace (Z.min (Z.max x 0) n) with x by lia.
  replace (Z.min x _) with x by lia.
  destruct (Z.le_gt_cases (x + c) n).
  - f_equal. lia.
  - apply firstn_beyond; rewrite length_skipn; subst n; lia.
Qed.

(** The loop from its [k]-th round on emits the remaining chunks. *)
Lemma chunkLoop_from (b : jsstring) (fuel k : nat) (acc : jsstring) :
  let K := Z.to_nat (Spec.chunkCount (JS.length b)) in
  (k <= K)%nat -> (K - k < fuel)%nat ->
  chunkLoop fuel b (Z.of_nat k * CHUNK_SIZE) acc
  = Some (acc ++ List.concat (map renderChunk
                                (map (Spec.chunk b) (seq k (K - k))))).
Proof.
  intros K. revert k acc.
  assert (HK : Z.of_nat K = Z.min ((JS.length b + 32766) / 32767) 9).
  { subst K. unfold Spec.chunkCount, JS.length.
    rewrite Z2Nat.id; [reflexivity|].
    apply Z.min_glb; [apply Z.div_pos|]; lia. }
  assert (HC : CHUNK_SIZE = 32767) by reflexivity.
  induction fuel as [|fuel IH]; intros k acc Hk Hf; [lia|].
  cbn [chunkLoop].
  destruct (Z.ltb_spec (Z.of_nat k * CHUNK_SIZE) (JS.length b)) as [Hlt|Hge].
  - rewrite Z.div_mul by (rewrite HC; lia).
    destruct (Z.leb_spec 9 (Z.of_nat k)) as [H9|H9].
    + replace (K - k)%nat with 0%nat by lia.
      cbn [seq map List.concat]. now rewrite app_nil_r.
    + assert (Hk' : (k < K)%nat).
      { rewrite HC in Hlt. apply Nat2Z.inj_lt. rewrite HK.
        apply Z.min_glb_lt; [|lia].
        Z.to_euclidean_division_equations; lia. }
      replace (K - k)%nat with (S (K - S k)) by lia.
      cbn [seq map List.concat].
      replace (Z.of_nat k * CHUNK_SIZE + CHUNK_SIZE)
        with (Z.of_nat (S k) * CHUNK_SIZE) by lia.
      rewrite IH by lia. f_equal. rewrite <- app_assoc. f_equal. f_equal.
      unfold renderChunk, Spec.chunk. cbn [fst snd]. f_equal.
      replace (Z.of_nat (S k) * CHUNK_SIZE)
        with (Z.of_nat k * CHUNK_SIZE + CHUNK_SIZE) by lia.
      rewrite substring_slice by (rewrite ?HC; lia).
      now rewrite HC.
  - assert (Hk' : k = K).
    { rewrite HC in Hge. apply Nat.le_antisymm; [exact Hk|].
      apply Nat2Z.inj_le. rewrite HK.
      etransitivity; [apply Z.le_min_l|].
      Z.to_euclidean_division_equations; lia. }
    subst k. rewrite Nat.sub_diag. cbn [seq map List.concat].
    now rewrite app_nil_r.
Qed.

Lemma chunk_names (b : jsstring) (K : nat) :
  (K <= 9)%nat ->
  map fst (map (Spec.chunk b) (seq 0 K)) = firstn K Spec.slotNames.
Proof.
  intros HK. rewrite map_map.
  rewrite (map_ext _ (fun i => js "q" ++ numberToString (Num (Z.of_nat i + 1))))
    by reflexivity.
  do 10 (destruct K as [|K]; [reflexivity|]). lia.
Qed.

Lemma chunk_texts (b : jsstring) (K : nat) :
  List.concat (map snd (map (Spec.chunk b) (seq 0 K)))
  = firstn (K * Z.to_nat 32767) b.
Proof.
  rewrite map_map.
  rewrite (map_ext _ (fun i => firstn (Z.to_nat 32767)
                                 (skipn (i * Z.to_nat 32767) b)))
    by reflexivity.
  apply concat_slices.
Qed.

End Chunking.

(** C1. The Base64 text of the wrapped SQL, of length N, is sent as
    ceil(N/32767) chunks, at most 9; chunk i (from 0) is the slice of at
    most 32767 characters at offset i*32767 and is named q(i+1); the
    chunks put together are the first min(N, 9*32767) characters of the
    Base64 text, and a longer text is cut there without an error. *)
Theorem C1_chunking (sql : jsstring) (rowLimit : number) :
  isString sql = true ->
  exists b64 : jsstring,
    encodeBase64 (wrappedSql sql rowLimit) = Ok b64
    /\ prepareSqlParameters sql rowLimit
       = Ok (List.concat (map renderChunk (Spec.chunks b64)))
    /\ Z.of_nat (List.length (Spec.chunks b64))
       = Z.min ((JS.length b64 + 32766) / 32767) 9
    /\ Forall (fun c => JS.length (snd c) <= 32767) (Spec.chunks b64)
    /\ map fst (Spec.chunks b64)
       = firstn (List.length (Spec.chunks b64)) Spec.slotNames
    /\ List.concat (map snd (Spec.chunks b64))
       = firstn (Z.to_nat (Z.min (JS.length b64) (9 * 32767))) b64.
Proof.
  intros Hs.
  pose proof (encodeBase64_total _ (isString_wrappedSql sql rowLimit Hs)) as E.
  set (b64 := Base64.encodeBytes _) in E. exists b64. clearbody b64.
  assert (HK : Z.of_nat (Z.to_nat (Spec.chunkCount (JS.length b64)))
               = Z.min ((JS.length b64 + 32766) / 32767) 9).
  { unfold Spec.chunkCount, JS.length. rewrite Z2Nat.id; [reflexivity|].
    apply Z.min_glb; [apply Z.div_pos|]; lia. }
  assert (Hlen : List.length (Spec.chunks b64)
                 = Z.to_nat (Spec.chunkCount (JS.length b64)))
    by (unfold Spec.chunks; now rewrite length_map, length_seq).
  split; [exact E|]. split; [|split; [|split; [|split]]].
  - unfold prepareSqlParameters. rewrite E. cbn [bind].
    pose proof (chunkLoop_from b64 (S (List.length b64)) 0 []) as L.
    cbv zeta in L. rewrite Z.mul_0_l, Nat.sub_0_r in L.
    rewrite L; [reflexivity | lia |].
    apply Nat2Z.inj_lt. rewrite HK. unfold JS.length.
    Z.to_euclidean_division_equations; lia.
  - now rewrite Hlen, HK.
  - unfold Spec.chunks. apply Forall_forall. intros c Hc.
    apply in_map_iff in Hc as (i & <- & _). unfold Spec.chunk, JS.length.
    cbn [snd]. pose proof (firstn_le_length (Z.to_nat 32767)
                             (skipn (i * Z.to_nat 32767) b64)). lia.
  - rewrite Hlen. unfold Spec.chunks. apply chunk_names. lia.
  - unfold Spec.chunks. rewrite chunk_texts.
    set (K := Z.to_nat (Spec.chunkCount (JS.length b64))) in *.
    assert (EK : (K * Z.to_nat 32767)%nat = Z.to_nat (Z.of_nat K * 32767))
      by (rewrite Z2Nat.inj_mul, Nat2Z.id; lia).
    rewrite EK, HK. unfold JS.length.
    set (n := Z.of_nat (List.length b64)).
    destruct (Z.le_gt_cases (9 * 32767) n).
    + f_equal. f_equal. Z.to_euclidean_division_equations; lia.
    + apply firstn_beyond; apply Nat2Z.inj_le; rewrite Z2Nat.id;
        subst n; Z.to_euclidean_division_equations; lia.
Qed.

(** C1 at a statement with a trailing semicolon. *)
Lemma C1_chunking_witness :
  isString (js "SELECT 1;") = true
  /\ exists b64 : jsstring,
       encodeBase64 (wrappedSql (js "SELECT 1;") (Num 100)) = Ok b64
       /\ prepareSqlParameters (js "SELECT 1;") (Num 100)
          = Ok (List.concat (map renderChunk (Spec.chunks b64)))
       /\ Z.of_nat (List.length (Spec.chunks b64))
          = Z.min ((JS.length b64 + 32766) / 32767) 9
       /\ Forall (fun c => JS.length (snd c) <= 32767) (Spec.chunks b64)
       /\ map fst (Spec.chunks b64)
          = firstn (List.length (Spec.chunks b64)) Spec.slotNames
       /\ List.concat (map snd (Spec.chunks b64))
          = firstn (Z.to_nat (Z.min (JS.length b64) (9 * 32767))) b64.
Proof.
  split; [reflexivity|].
  apply (C1_chunking (js "SELECT 1;") (Num 100)). reflexivity.
Defined.

(* ================================================================== *)
(** ** URL and proxy resolution *)
(* ================================================================== *)

Lemma endsWith_endsIn (s : jsstring) (c : Z) : endsWith s [c] = Spec.endsIn c s.
Proof. apply endsWith_char. Qed.

Lemma targetUrl_spec (config : ConnectionConfig) :
  targetUrl config
  = if includes (trim (url config)) (js "/xmlpserver") then trim (url config)
    else Spec.stripOneSlash (trim (url config)) ++ REPORT_SERVICE_PATH.
Proof.
  unfold targetUrl, Spec.stripOneSlash.
  destruct (includes (trim (url config)) (js "/xmlpserver")); [reflexivity|].
  cbn [negb]. change (js "/") with [47].
  rewrite endsWith_char, slice_drop_last.
  destruct (rev (trim (url config))) as [|c r]; [reflexivity|].
  destruct (c =? 47); reflexivity.
Qed.

Lemma fetchUrl_spec (config : ConnectionConfig) :
  fetchUrl config
  = match corsProxy config with
    | Some proxy =>
        match trim proxy with
        | [] => targetUrl config
        | _ => Spec.proxyPrefix (trim proxy) ++ targetUrl config
        end
    | None => targetUrl config
    end.
Proof.
  unfold fetchUrl. destruct (corsProxy config) as [proxy|]; [|reflexivity].
  destruct (trim proxy) as [|c p] eqn:E; [reflexivity|].
  replace (0 <? JS.length (c :: p)) with true
    by (symmetry; apply Z.ltb_lt; unfold JS.length; simpl; lia).
  unfold Spec.proxyPrefix.
  destruct (JS.eqb (c :: p) (js "https://corsproxy.io")) eqn:Ep.
  - apply eqb_eq in Ep. rewrite Ep. reflexivity.
  - change (js "?") with [63]. change (js "=") with [61].
    change (js "/") with [47]. rewrite !endsWith_endsIn.
    destruct (Spec.endsIn 63 (c :: p)), (Spec.endsIn 61 (c :: p)),
      (Spec.endsIn 47 (c :: p)); reflexivity.
Qed.

(** C8. A base URL that does not contain the service path segment
    [/xmlpserver] loses one trailing slash and gets the fixed service
    path appended.  With a CORS proxy set, the proxy [https://corsproxy.io]
    gets [/?] appended, any other proxy a [/] unless it ends in [?], [=]
    or [/], and the URL fetched is the proxy followed by the target
    URL as it is. *)
Theorem C8_url_resolution (config : ConnectionConfig) :
  includes (trim (url config)) (js "/xmlpserver") = false ->
  targetUrl config
  = Spec.stripOneSlash (trim (url config)) ++ REPORT_SERVICE_PATH
  /\ fetchUrl config
     = match corsProxy config with
       | Some proxy =>
           match trim proxy with
           | [] => targetUrl config
           | _ => Spec.proxyPrefix (trim proxy) ++ targetUrl config
           end
       | None => targetUrl config
       end
  /\ Spec.proxyPrefix (js "https://corsproxy.io") = js "https://corsproxy.io/?".
Proof.
  intros H. split; [|split].
  - rewrite targetUrl_spec. now rewrite H.
  - apply fetchUrl_spec.
  - reflexivity.
Qed.

(** C8 at a base URL with a trailing slash behind the corsproxy.io
    proxy. *)
Lemma C8_url_resolution_witness :
  includes (trim (url Sample.connection)) (js "/xmlpserver") = false
  /\ targetUrl Sample.connection
     = js "https://h.example.com/xmlpserver/services/v2/ReportService"
  /\ fetchUrl Sample.connection
     = js "https://corsproxy.io/?https://h.example.com/xmlpserver/services/v2/ReportService".
Proof.
  split; [reflexivity|].
  destruct (C8_url_resolution Sample.connection eq_refl) as (H1 & H2 & _).
  split; [rewrite H1 | rewrite H2, H1]; reflexivity.
Defined.

(* ================================================================== *)
(** ** Filling the template *)
(* ================================================================== *)

(** A replacement text without a dollar sign is inserted as it is. *)
Lemma getSubstitution_plain (matched before after tpl : jsstring) :
  existsb (Z.eqb 36) tpl = false ->
  getSubstitution matched before after tpl = tpl.
Proof.
  induction tpl as [|c rest IH]; [reflexivity|].
  cbn [existsb]. intros H. apply orb_false_iff in H as [Hc Hrest].
  cbn [getSubstitution]. rewrite Z.eqb_sym, Hc. f_equal. auto.
Qed.

Lemma replace_first (s tok repl : jsstring) :
  Spec.replacesFirst tok repl s (replace s tok repl).
Proof.
  unfold replace. destruct (indexOf s tok) as [p|] eqn:E.
  - apply indexOf_Some in E as (E1 & E2 & E3).
    apply Spec.rf_first; [exact E1|].
    intros q Hq. apply E3. rewrite length_firstn in Hq. lia.
  - apply Spec.rf_absent. now apply indexOf_None.
Qed.

(** C9. With a template that contains the parameter placeholder, each
    of the tokens USERNAME, PASSWORD and PARAMETERS is replaced at its
    first occurrence only: the text before and the text after that
    occurrence, with any later occurrence of the token, are kept as they
    are. *)
Theorem C9_first_occurrence_only (config : ConnectionConfig)
    (parametersXml : jsstring) :
  includes (soapTemplate config) (js "{{PARAMETERS}}") = true ->
  exists s1 s2 : jsstring,
    Spec.replacesFirst (js "{{USERNAME}}") (username config)
                       (soapTemplate config) s1
    /\ Spec.replacesFirst (js "{{PASSWORD}}") (password config) s1 s2
    /\ Spec.replacesFirst (js "{{PARAMETERS}}") parametersXml s2
                          (soapBody config parametersXml).
Proof.
  intros H. unfold soapBody, PARAMETERS. rewrite H.
  eexists. eexists. repeat split; apply replace_first.
Qed.

(** C9 at a template in which every token occurs twice. *)
Lemma C9_first_occurrence_only_witness :
  includes (soapTemplate Sample.connection) (js "{{PARAMETERS}}") = true
  /\ (exists s1 s2 : jsstring,
        Spec.replacesFirst (js "{{USERNAME}}") (username Sample.connection)
                           (soapTemplate Sample.connection) s1
        /\ Spec.replacesFirst (js "{{PASSWORD}}") (password Sample.connection) s1 s2
        /\ Spec.replacesFirst (js "{{PARAMETERS}}") (js "<item/>") s2
                              (soapBody Sample.connection (js "<item/>")))
  /\ soapBody Sample.connection (js "<item/>")
     = js "<u>user</u><p>secret</p><item/><again>{{USERNAME}}{{PASSWORD}}{{PARAMETERS}}</again>".
Proof.
  split; [reflexivity|]. split; [|reflexivity].
  apply (C9_first_occurrence_only Sample.connection (js "<item/>")).
  reflexivity.
Defined.

(* ================================================================== *)
(** ** The row limit *)
(* ================================================================== *)

(** C7, as stated, fails: the encoder renders the row limit it is
    given, a limit that is not a number included, and the handler of the
    input lets a negative limit through. *)
Lemma C7_counterexample :
  wrappedSql (js "SELECT 1") NaN
  = js "SELECT * FROM (SELECT 1) WHERE rownum <= NaN"
  /\ wrappedSql (js "SELECT 1") NaN <> wrappedSql (js "SELECT 1") (Num 100)
  /\ prepareSqlParameters (js "SELECT 1") NaN
     <> prepareSqlParameters (js "SELECT 1") (Num 100)
  /\ App.onRowLimitChange (js "-5") = Num (-5)
  /\ wrappedSql (js "SELECT 1") (App.onRowLimitChange (js "-5"))
     = js "SELECT * FROM (SELECT 1) WHERE rownum <= -5".
Proof.
  split; [reflexivity|]. split; [vm_compute; discriminate|].
  split; [vm_compute; discriminate|]. split; reflexivity.
Qed.

(** C7, amended. The encoder renders the limit it is given.  The handler
    of the row-limit input replaces a text that [parseInt] reads as NaN,
    or as zero, by 100: its result is never NaN, and for a text that is
    not numeric the statement sent carries the limit 100. *)
Theorem C7_row_limit_default (value sql : jsstring) (rowLimit : number) :
  wrappedSql sql rowLimit
  = js "SELECT * FROM (" ++ cleanSql sql ++ js ") WHERE rownum <= "
    ++ numberToString rowLimit
  /\ App.onRowLimitChange value
     = match parseInt value with
       | NaN => Num 100
       | Num z => if z =? 0 then Num 100 else Num z
       end
  /\ App.onRowLimitChange value <> NaN
  /\ (parseInt value = NaN ->
      App.onRowLimitChange value = Num 100
      /\ wrappedSql sql (App.onRowLimitChange value)
         = js "SELECT * FROM (" ++ cleanSql sql ++ js ") WHERE rownum <= 100").
Proof.
  split; [reflexivity|].
  unfold App.onRowLimitChange.
  destruct (parseInt value) as [|z] eqn:E; cbn [truthy negb].
  - repeat split; try discriminate.
  - destruct (z =? 0); cbn [negb]; repeat split; discriminate.
Qed.

(** C7 amended, at a text that is not a number. *)
Lemma C7_row_limit_default_witness :
  parseInt (js "abc") = NaN
  /\ App.onRowLimitChange (js "abc") = Num 100
  /\ wrappedSql (js "SELECT 1;") (App.onRowLimitChange (js "abc"))
     = js "SELECT * FROM (SELECT 1) WHERE rownum <= 100".
Proof.
  split; [reflexivity|].
  destruct (C7_row_limit_default (js "abc") (js "SELECT 1;") NaN)
    as (_ & _ & _ & H).
  destruct (H eq_refl) as [H1 H2]. split; [exact H1|].
  rewrite H2. reflexivity.
Defined.

(* ================================================================== *)
(** ** Flattening rows to a table *)
(* ================================================================== *)

Section Flatten.

Lemma orEmpty_id (a : jsstring) : orEmpty a = a.
Proof. destruct a; reflexivity. Qed.

Lemma eqb_sym (s t : jsstring) : JS.eqb s t = JS.eqb t s.
Proof.
  destruct (JS.eqb s t) eqn:E, (JS.eqb t s) eqn:E'; auto.
  - apply eqb_eq in E. subst. now rewrite eqb_refl in E'.
  - apply eqb_eq in E'. subst. now rewrite eqb_refl in E.
Qed.

Lemma existsb_eqb (x : jsstring) (l : list jsstring) :
  existsb (JS.eqb x) l = true <-> In x l.
Proof.
  rewrite existsb_exists. split.
  - intros (y & Hy & E). apply eqb_eq in E. now subst.
  - intros H. exists x. split; [exact H | apply eqb_refl].
Qed.

Lemma In_distinct (k : jsstring) (l : list jsstring) :
  In k (Spec.distinct l) <-> In k l.
Proof.
  induction l as [|x l IH]; [reflexivity|].
  cbn [Spec.distinct In]. rewrite filter_In, IH, negb_true_iff, eqb_neq.
  destruct (JS.eqb x k) eqn:E.
  - apply eqb_eq in E. tauto.
  - apply eqb_neq in E. tauto.
Qed.

Lemma filter_comm {A} (p q : A -> bool) (l : list A) :
  filter p (filter q l) = filter q (filter p l).
Proof.
  induction l as [|x l IH]; [reflexivity|].
  cbn [filter]. destruct (p x) eqn:Ep, (q x) eqn:Eq; cbn [filter];
    rewrite ?Ep, ?Eq, IH; reflexivity.
Qed.

Lemma filter_all {A} (p : A -> bool) (l : list A) :
  (forall x, In x l -> p x = true) -> filter p l = l.
Proof.
  induction l as [|x l IH]; intros H; [reflexivity|].
  cbn [filter]. rewrite (H x) by (left; reflexivity).
  f_equal. apply IH. intros y Hy. apply H. now right.
Qed.

(** Taking the distinct names commutes with a filter on names. *)
Lemma distinct_filter (p : jsstring -> bool) (l : list jsstring) :
  Spec.distinct (filter p l) = filter p (Spec.distinct l).
Proof.
  induction l as [|x l IH]; [reflexivity|].
  cbn [filter Spec.distinct]. destruct (p x) eqn:Ep.
  - cbn [Spec.distinct]. rewrite IH. f_equal. apply filter_comm.
  - rewrite IH, filter_comm. symmetry. apply filter_all.
    intros y Hy. apply filter_In in Hy as [_ Hy].
    apply negb_true_iff, eqb_neq. intros ->. congruence.
Qed.

(** A Set filled name by name holds the distinct names in first-seen
    order. *)
Lemma fold_setAdd (l acc : list jsstring) :
  fold_left setAdd l acc
  = acc ++ Spec.distinct (filter (fun y => negb (existsb (JS.eqb y) acc)) l).
Proof.
  revert acc; induction l as [|x l IH]; intros acc.
  - cbn. now rewrite app_nil_r.
  - cbn [fold_left filter]. unfold setAdd at 2.
    destruct (existsb (JS.eqb x) acc) eqn:Ex; cbn [negb].
    + apply IH.
    + rewrite IH, <- app_assoc. f_equal. cbn [app Spec.distinct]. f_equal.
      rewrite <- distinct_filter. f_equal.
      rewrite (filter_ext _ (fun y => negb (JS.eqb x y)
                                     && negb (existsb (JS.eqb y) acc))).
      * clear. induction l as [|z l IH]; [reflexivity|].
        cbn [filter]. destruct (existsb (JS.eqb z) acc); cbn [negb].
        -- rewrite andb_false_r. exact IH.
        -- rewrite andb_true_r. cbn [filter].
           destruct (negb (JS.eqb x z)); [f_equal|]; exact IH.
      * intros y. rewrite existsb_app. cbn [existsb].
        rewrite orb_false_r, negb_orb, (eqb_sym y x). apply andb_comm.
Qed.

Lemma columns_distinct (l : list jsstring) :
  fold_left setAdd l [] = Spec.distinct l.
Proof.
  rewrite fold_setAdd. cbn [app existsb negb]. f_equal.
  apply filter_all. reflexivity.
Qed.

Lemma keys_setOwn (o : jsobject) (k v : jsstring) :
  keys (setOwn o k v) = setAdd (keys o) k.
Proof.
  unfold setAdd, keys. induction o as [|[k' v'] o IH]; [reflexivity|].
  cbn [setOwn map fst existsb]. rewrite (eqb_sym k k').
  destruct (JS.eqb k' k) eqn:E; cbn [map fst orb]; [reflexivity|].
  rewrite IH. destruct (existsb (JS.eqb k) (map fst o)); reflexivity.
Qed.

Lemma keys_objSet (o : jsobject) (k v : jsstring) :
  keys (objSet o k v) = if Spec.notProto k then setAdd (keys o) k else keys o.
Proof.
  unfold objSet, Spec.notProto.
  destruct (JS.eqb k (js "__proto__")); cbn [negb]; [reflexivity|].
  apply keys_setOwn.
Qed.

End Flatten.

Section Rows.

Variable parseFromString : jsstring -> document.

Lemma fold_addColumn (cols : list node) (o : jsobject) (cs : list jsstring) :
  fold_left addColumn cols (o, cs)
  = (fold_left Spec.setColumn cols o, fold_left setAdd (map nodeName cols) cs).
Proof.
  revert o cs; induction cols as [|col cols IH]; intros o cs; [reflexivity|].
  cbn [fold_left map]. exact (IH _ _).
Qed.

Lemma children_nodeType (n row : node) :
  In row (children n) -> nodeType row = 1.
Proof.
  destruct n; cbn [children]; try contradiction.
  intros H. apply filter_In in H as [_ H]. destruct row; try discriminate.
  reflexivity.
Qed.

Lemma fold_addRow (rowElements : list node) (rs : list jsobject)
    (cs : list jsstring) :
  (forall row, In row rowElements -> nodeType row = 1) ->
  fold_left addRow rowElements (rs, cs)
  = (rs ++ map Spec.rowObject rowElements,
     fold_left setAdd (flat_map Spec.tagNames rowElements) cs).
Proof.
  revert rs cs; induction rowElements as [|row rowElements IH]; intros rs cs H.
  - cbn. now rewrite app_nil_r.
  - cbn [fold_left map flat_map].
    assert (E : addRow (rs, cs) row
                = (rs ++ [Spec.rowObject row],
                   fold_left setAdd (Spec.tagNames row) cs)).
    { unfold addRow. rewrite (H row) by (left; reflexivity).
      cbn [Z.eqb Pos.eqb negb]. now rewrite fold_addColumn. }
    rewrite E, IH by (intros r Hr; apply H; now right).
    rewrite fold_left_app, <- app_assoc. reflexivity.
Qed.

(** What the flattening returns. *)
Lemma flatten_spec (xmlString : jsstring) (xmlDoc : document) :
  flatten xmlString xmlDoc
  = mkResult (Spec.distinct (flat_map Spec.tagNames
                               (children (documentElement xmlDoc))))
             (map Spec.rowObject (children (documentElement xmlDoc)))
             (Some xmlString) 0.
Proof.
  unfold flatten.
  destruct (children (documentElement xmlDoc)) as [|row rowElements] eqn:E;
    [reflexivity|].
  cbn [List.length Nat.eqb].
  rewrite fold_addRow, columns_distinct; [reflexivity|].
  intros r Hr. apply (children_nodeType (documentElement xmlDoc)).
  now rewrite E.
Qed.

Lemma keys_fold_setColumn (cols : list node) (o : jsobject) :
  keys (fold_left Spec.setColumn cols o)
  = fold_left setAdd (filter Spec.notProto (map nodeName cols)) (keys o).
Proof.
  revert o; induction cols as [|col cols IH]; intros o; [reflexivity|].
  cbn [fold_left map filter]. rewrite IH. unfold Spec.setColumn.
  rewrite keys_objSet. destruct (Spec.notProto (nodeName col)); reflexivity.
Qed.

(** The keys of a row mapping: the distinct tag names of the row, in
    document order, [__proto__] left out. *)
Lemma keys_rowObject (row : node) :
  keys (Spec.rowObject row)
  = Spec.distinct (filter Spec.notProto (Spec.tagNames row)).
Proof.
  unfold Spec.rowObject.
  now rewrite keys_fold_setColumn, columns_distinct.
Qed.

Lemma getOwn_setOwn (o : jsobject) (k' v' k : jsstring) :
  getOwn (setOwn o k' v') k = if JS.eqb k' k then Some v' else getOwn o k.
Proof.
  induction o as [|[k2 v2] o IH]; [reflexivity|].
  cbn [setOwn]. destruct (JS.eqb k2 k') eqn:E2; cbn [getOwn].
  - apply eqb_eq in E2. subst k2. destruct (JS.eqb k' k); reflexivity.
  - rewrite IH. destruct (JS.eqb k2 k) eqn:E3; [|reflexivity].
    apply eqb_eq in E3. subst k2. rewrite eqb_sym in E2. now rewrite E2.
Qed.

Lemma getOwn_objSet (o : jsobject) (k' v' k : jsstring) :
  getOwn (objSet o k' v') k
  = if JS.eqb k' k && Spec.notProto k' then Some v' else getOwn o k.
Proof.
  unfold objSet, Spec.notProto.
  destruct (JS.eqb k' (js "__proto__")); cbn [negb].
  - now rewrite andb_false_r.
  - rewrite andb_true_r. apply getOwn_setOwn.
Qed.

(** Every value of a row mapping is the text of a child of that name. *)
Lemma getOwn_fold_setColumn (cols : list node) (o : jsobject) (k v : jsstring) :
  getOwn (fold_left Spec.setColumn cols o) k = Some v ->
  getOwn o k = Some v
  \/ exists col, In col cols /\ nodeName col = k /\ textContent col = v.
Proof.
  revert o; induction cols as [|col cols IH]; intros o H; [now left|].
  cbn [fold_left] in H. apply IH in H as [H|(c & Hc & Hk & Hv)].
  - unfold Spec.setColumn in H. rewrite getOwn_objSet, orEmpty_id in H.
    destruct (JS.eqb (nodeName col) k && Spec.notProto (nodeName col)) eqn:E.
    + right. exists col. apply andb_true_iff in E as [E _].
      apply eqb_eq in E. injection H as H. repeat split; auto. now left.
    + now left.
  - right. exists c. repeat split; auto. now right.
Qed.

Lemma getOwn_fold_other (cols : list node) (o : jsobject) (k : jsstring) :
  (forall c, In c cols -> nodeName c <> k) ->
  getOwn (fold_left Spec.setColumn cols o) k = getOwn o k.
Proof.
  revert o; induction cols as [|col cols IH]; intros o H; [reflexivity|].
  cbn [fold_left]. rewrite IH by (intros c Hc; apply H; now right).
  unfold Spec.setColumn. rewrite getOwn_objSet.
  assert (E : JS.eqb (nodeName col) k = false)
    by (apply eqb_neq, H; now left).
  now rewrite E.
Qed.

(** A tag that occurs more than once in a row: the last child of that
    name gives the value, unless the name is [__proto__]. *)
Lemma duplicate_tag_last_wins (row col : node) (pre post : list node)
    (k : jsstring) :
  children row = pre ++ col :: post ->
  nodeName col = k ->
  (forall c, In c post -> nodeName c <> k) ->
  k <> js "__proto__" ->
  getOwn (Spec.rowObject row) k = Some (textContent col).
Proof.
  intros E Hk Hpost Hproto. unfold Spec.rowObject.
  rewrite E, fold_left_app. cbn [fold_left].
  rewrite getOwn_fold_other by exact Hpost.
  unfold Spec.setColumn at 1. rewrite getOwn_objSet, orEmpty_id, Hk, eqb_refl.
  unfold Spec.notProto. apply eqb_neq in Hproto. now rewrite Hproto.
Qed.

Lemma getOwn_keys (o : jsobject) (k : jsstring) :
  In k (keys o) -> exists v, getOwn o k = Some v.
Proof.
  unfold keys. induction o as [|[k' v'] o IH]; [contradiction|].
  cbn [map fst In getOwn]. destruct (JS.eqb k' k) eqn:E; [eauto|].
  intros [->|H]; [now rewrite eqb_refl in E | auto].
Qed.

(** A row mapping has only keys that are tags of its row element, each
    bound to the text of a child of that name. *)
Lemma rowObject_keys (row : node) (k : jsstring) :
  In k (keys (Spec.rowObject row)) ->
  In k (Spec.tagNames row)
  /\ exists col, In col (children row) /\ nodeName col = k
                 /\ getOwn (Spec.rowObject row) k = Some (textContent col).
Proof.
  intros Hk. split.
  - rewrite keys_rowObject in Hk. apply In_distinct, filter_In in Hk. tauto.
  - destruct (getOwn_keys _ _ Hk) as [v Eg]. pose proof Eg as Eg'.
    unfold Spec.rowObject in Eg'.
    apply getOwn_fold_setColumn in Eg' as [Eg'|(col & Hc & Hn & Hv)];
      [discriminate|].
    exists col. repeat split; auto. now rewrite Hv.
Qed.

Lemma Forall2_map_r {A B} (P : A -> B -> Prop) (f : A -> B) (l : list A) :
  (forall x, In x l -> P x (f x)) -> Forall2 P l (map f l).
Proof.
  induction l as [|x l IH]; intros H; cbn [map]; constructor.
  - apply H. now left.
  - apply IH. intros y Hy. apply H. now right.
Qed.

(** The last child of a given name among the children of a row. *)
Lemma last_named (k : jsstring) (l : list node) :
  In k (map nodeName l) ->
  exists pre col post,
    l = pre ++ col :: post /\ nodeName col = k
    /\ forall c, In c post -> nodeName c <> k.
Proof.
  induction l as [|c l IH]; [contradiction|].
  cbn [map In]. intros H.
  destruct (in_dec (list_eq_dec Z.eq_dec) k (map nodeName l)) as [Hl|Hl].
  - destruct (IH Hl) as (pre & col & post & -> & Hk & Hpost).
    exists (c :: pre), col, post. repeat split; auto.
  - destruct H as [H|H]; [|contradiction].
    exists [], c, l. repeat split; auto.
    intros c' Hc' E. apply Hl. rewrite <- E. now apply in_map.
Qed.

(** A name that is no tag of the row has no binding in its mapping. *)
Lemma rowObject_absent (row : node) (k : jsstring) :
  ~ In k (Spec.tagNames row) -> getOwn (Spec.rowObject row) k = None.
Proof.
  intros H. unfold Spec.rowObject.
  rewrite getOwn_fold_other; [reflexivity|].
  intros c Hc E. apply H. rewrite <- E. now apply in_map.
Qed.

(** C3. The direct child elements of the root are the rows, one mapping
    for each, in document order.  The column list holds the distinct
    child tag names of all rows in first-seen order.  The keys of a row
    mapping are exactly the distinct tag names of the children of its
    row element, in first-seen order (the name [__proto__] apart, which
    is never stored): every such tag is a key, bound to the text of the
    last child of that name, and is a column; a name that is no tag of
    the row has no binding in its mapping.  A root without child
    elements gives no columns and no rows, with the raw XML attached,
    and no error. *)
Theorem C3_flatten (xmlString : jsstring) :
  getElementsByTagName (parseFromString xmlString) (js "parsererror") = [] ->
  let rowElements := children (documentElement (parseFromString xmlString)) in
  exists result : QueryResult,
    parseOracleXML parseFromString xmlString = Ok result
    /\ columns result = Spec.distinct (flat_map Spec.tagNames rowElements)
    /\ Forall2 (fun row r =>
                  keys r
                  = Spec.distinct (filter Spec.notProto (Spec.tagNames row))
                  /\ (forall k, In k (keys r) ->
                        In k (Spec.tagNames row) /\ In k (columns result)
                        /\ exists col, In col (children row) /\ nodeName col = k
                                       /\ getOwn r k = Some (textContent col))
                  /\ (forall k, In k (Spec.tagNames row) -> k <> js "__proto__" ->
                        In k (keys r) /\ In k (columns result)
                        /\ exists pre col post,
                             children row = pre ++ col :: post
                             /\ nodeName col = k
                             /\ (forall c, In c post -> nodeName c <> k)
                             /\ getOwn r k = Some (textContent col))
                  /\ (forall k, ~ In k (Spec.tagNames row) -> getOwn r k = None))
               rowElements (rows result)
    /\ rawXml result = Some xmlString
    /\ (rowElements = [] -> columns result = [] /\ rows result = []).
Proof.
  intros Hparse rowElements. eexists. split.
  { unfold parseOracleXML. rewrite Hparse. cbn [List.length Nat.ltb Nat.leb].
    rewrite flatten_spec. reflexivity. }
  cbn [columns rows rawXml]. fold rowElements.
  split; [reflexivity|]. split; [|split; [reflexivity|]].
  - apply Forall2_map_r. intros row Hrow.
    assert (Hcols : forall k, In k (Spec.tagNames row) ->
              In k (Spec.distinct (flat_map Spec.tagNames rowElements)))
      by (intros k Hk; apply In_distinct, in_flat_map; eauto).
    split; [apply keys_rowObject|]. split; [|split].
    + intros k Hk. destruct (rowObject_keys row k Hk) as [Hin Hcol].
      split; [exact Hin|]. split; [|exact Hcol]. now apply Hcols.
    + intros k Hk Hproto. split; [|split; [now apply Hcols|]].
      * rewrite keys_rowObject. apply In_distinct, filter_In.
        split; [exact Hk|]. unfold Spec.notProto.
        apply negb_true_iff, eqb_neq, Hproto.
      * destruct (last_named k (children row) Hk)
          as (pre & col & post & E & Hn & Hpost).
        exists pre, col, post. repeat split; auto.
        now apply (duplicate_tag_last_wins row col pre post k).
    + apply rowObject_absent.
  - intros ->. split; reflexivity.
Qed.

End Rows.

(** C3 at the two rows of the specification: the columns are A and B,
    and the second row has no key B. *)
Lemma C3_flatten_witness :
  getElementsByTagName (Sample.parserOf Sample.rowset Sample.rowsetText)
                       (js "parsererror") = []
  /\ parseOracleXML (Sample.parserOf Sample.rowset) Sample.rowsetText
     = Ok (mkResult [js "A"; js "B"]
             [[(js "A", js "1"); (js "B", js "2")]; [(js "A", js "3")]]
             (Some Sample.rowsetText) 0)
  /\ parseOracleXML (Sample.parserOf Sample.emptyRowset) (js "<ROWSET></ROWSET>")
     = Ok (mkResult [] [] (Some (js "<ROWSET></ROWSET>")) 0).
Proof.
  split; [reflexivity|].
  destruct (C3_flatten (Sample.parserOf Sample.rowset)
              Sample.rowsetText eq_refl) as (r & E & _).
  split; [rewrite E | reflexivity].
  vm_compute in E. injection E as <-. reflexivity.
Defined.

(** C10. Evaluation at a row with the tag [A] twice, where the last
    value wins and the column is listed once, and at a row with the tag
    [__proto__] twice, where the column is listed but the row mapping
    has no binding for it. *)
Lemma C10_duplicate_tags :
  parseOracleXML (Sample.parserOf Sample.twice) (js "<ROWSET>...</ROWSET>")
  = Ok (mkResult [js "A"; js "B"] [[(js "A", js "3"); (js "B", js "2")]]
          (Some (js "<ROWSET>...</ROWSET>")) 0)
  /\ parseOracleXML (Sample.parserOf Sample.protoTwice) (js "<ROWSET>...</ROWSET>")
     = Ok (mkResult [js "__proto__"] [[]] (Some (js "<ROWSET>...</ROWSET>")) 0)
  /\ getOwn (Spec.rowObject (Element (js "ROW")
               [Sample.leaf "__proto__" "1"; Sample.leaf "__proto__" "2"]))
            (js "__proto__") = None.
Proof. repeat split; reflexivity. Qed.

(* ================================================================== *)
(** ** Faults and failures of the response *)
(* ================================================================== *)

Section Response.

Variable parseFromString : jsstring -> document.
Variable elapsedMs : Z.

Lemma skipn_app_length {A} (l1 l2 : list A) (n : nat) :
  skipn (List.length l1 + n) (l1 ++ l2) = skipn n l2.
Proof.
  rewrite skipn_app, skipn_all2 by lia.
  replace (List.length l1 + n - List.length l1)%nat with n by lia.
  reflexivity.
Qed.

(** A text without [<] is ended by the first closing tag after it. *)
Lemma indexOf_close (M post : jsstring) :
  existsb (Z.eqb 60) M = false ->
  indexOf (M ++ js "</faultstring>" ++ post) (js "</faultstring>")
  = Some (List.length M).
Proof.
  intros HM. apply indexOf_first. intros q Hq.
  rewrite skipn_app. destruct (skipn q M) as [|c r] eqn:E.
  - apply (f_equal (@List.length Z)) in E. rewrite length_skipn in E.
    cbn in E. lia.
  - assert (Hc : In c M).
    { rewrite <- (firstn_skipn q M), E. apply in_or_app. right. now left. }
    assert (Hne : (c =? 60) = false).
    { rewrite Z.eqb_sym. destruct (60 =? c) eqn:E60; [|reflexivity].
      assert (existsb (Z.eqb 60) M = true)
        by (apply existsb_exists; eauto).
      congruence. }
    change (js "</faultstring>") with (60 :: js "/faultstring>").
    cbn [app startsWith]. now rewrite Hne.
Qed.

Lemma faultMatch_first (pre M post : jsstring) :
  indexOf (pre ++ js "<faultstring>" ++ M ++ js "</faultstring>" ++ post)
          (js "<faultstring>") = Some (List.length pre) ->
  existsb (Z.eqb 60) M = false ->
  faultMatch (pre ++ js "<faultstring>" ++ M ++ js "</faultstring>" ++ post)
  = Some M.
Proof.
  intros Hpre HM. unfold faultMatch. rewrite Hpre.
  rewrite skipn_app_length.
  change (skipn 13 (js "<faultstring>" ++ M ++ js "</faultstring>" ++ post))
    with (M ++ js "</faultstring>" ++ post).
  rewrite indexOf_close by exact HM.
  rewrite firstn_app, firstn_all, Nat.sub_diag. cbn [firstn].
  now rewrite app_nil_r.
Qed.

(** C4, amended. Take a response whose body holds the fault element
    [<faultstring>M</faultstring>], where this is the first
    [<faultstring>] of the body, the text M is not empty and holds no
    [<], and the first [faultstring] element of the parsed body has the
    text content M.  The call fails with an error that carries M: the
    SOAP fault error [Oracle SOAP Fault: M] when the status is 2xx, and
    the HTTP error [Server returned <status>: M] when it is not. *)
Theorem C4_fault_error (status : Z) (pre M post : jsstring) (fault : node) :
  let text := pre ++ js "<faultstring>" ++ M ++ js "</faultstring>" ++ post in
  indexOf text (js "<faultstring>") = Some (List.length pre) ->
  M <> [] ->
  existsb (Z.eqb 60) M = false ->
  item0 (getElementsByTagName (parseFromString text) (js "faultstring"))
  = Some fault ->
  textContent fault = M ->
  handleResponse parseFromString elapsedMs status text
  = Throw (Error (if ok status then js "Oracle SOAP Fault: " ++ M
                  else js "Server returned " ++ numberToString (Num status)
                       ++ js ": " ++ M)).
Proof.
  intros text Hpre Hne HM Hfault Htext. unfold handleResponse.
  destruct (ok status); cbn [negb].
  - unfold decodeResponse. rewrite Hfault. cbn [orElse]. now rewrite Htext.
  - unfold httpError. subst text. rewrite faultMatch_first by assumption.
    destruct M; [contradiction | reflexivity].
Qed.

Lemma getElementsByTagName_none (d : document) (name : jsstring) :
  JS.eqb name (js "*") = false ->
  forallb (fun e => negb (JS.eqb (nodeName e) name))
          (elements (documentElement d)) = true ->
  getElementsByTagName d name = [].
Proof.
  intros Hstar H. unfold getElementsByTagName. rewrite Hstar. cbn [orb].
  induction (elements (documentElement d)) as [|e l IH]; [reflexivity|].
  cbn [forallb filter] in *. apply andb_true_iff in H as [He Hl].
  apply negb_true_iff in He. rewrite He. auto.
Qed.

(** C5, amended. The outer layer has no check for a parse failure.  The
    error document the parser gives for a body that is not well-formed
    goes through the scans for a fault and for the report bytes; as it
    holds neither, the call fails with the same error as for a missing
    payload. *)
Theorem C5_malformed_response (responseText : jsstring) (description : list node) :
  parseFromString responseText = mkDocument (js "parsererror") description ->
  forallb (fun e => negb (existsb (JS.eqb (nodeName e)) Spec.scannedNames))
          (flat_map elements description) = true ->
  decodeResponse parseFromString elapsedMs responseText
  = Throw (Error noReportBytesMessage)
  /\ handleResponse parseFromString elapsedMs 200 responseText
     = Throw (Error noReportBytesMessage).
Proof.
  intros Hdoc Hnone.
  assert (H : forall name, In name Spec.scannedNames ->
            getElementsByTagName (parseFromString responseText) name = []).
  { intros name Hname. apply getElementsByTagName_none.
    - cbn in Hname. repeat (destruct Hname as [<-|Hname]; [reflexivity|]).
      contradiction.
    - rewrite Hdoc. unfold documentElement. cbn [rootName rootChildNodes elements].
      cbn [forallb]. apply andb_true_iff. split.
      + cbn in Hname. repeat (destruct Hname as [<-|Hname]; [reflexivity|]).
        contradiction.
      + rewrite <- flat_map_concat_map. apply forallb_forall. intros e He.
        apply (proj1 (forallb_forall _ _) Hnone) in He.
        apply negb_true_iff in He. apply negb_true_iff.
        destruct (JS.eqb (nodeName e) name) eqn:E; [|reflexivity].
        assert (existsb (JS.eqb (nodeName e)) Spec.scannedNames = true)
          by (apply existsb_exists; eauto).
        congruence. }
  assert (E : decodeResponse parseFromString elapsedMs responseText
              = Throw (Error noReportBytesMessage)).
  { unfold decodeResponse.
    rewrite !H by (cbn; tauto). reflexivity. }
  split; [exact E|]. unfold handleResponse. exact E.
Qed.

End Response.

(** C4, as stated, fails: with a status that is not 2xx the error is
    the HTTP error, which differs from the SOAP fault error of a 2xx
    response with the same body. *)
Lemma C4_counterexample :
  handleResponse (Sample.parserOf Sample.faultEnvelope) 0 500 Sample.faultBody
  = Throw (Error (js "Server returned 500: ORA-00001"))
  /\ handleResponse (Sample.parserOf Sample.faultEnvelope) 0 200 Sample.faultBody
     = Throw (Error (js "Oracle SOAP Fault: ORA-00001"))
  /\ handleResponse (Sample.parserOf Sample.faultEnvelope) 0 500 Sample.faultBody
     <> handleResponse (Sample.parserOf Sample.faultEnvelope) 0 200 Sample.faultBody.
Proof.
  split; [reflexivity|]. split; [reflexivity|]. vm_compute. discriminate.
Qed.

(** C4 amended, at the fault ORA-00001 of an envelope that binds its
    prefix, with the statuses 200 and 500. *)
Lemma C4_fault_error_witness :
  handleResponse (Sample.parserOf Sample.faultEnvelope) 0 200 Sample.faultBody
  = Throw (Error (js "Oracle SOAP Fault: ORA-00001"))
  /\ handleResponse (Sample.parserOf Sample.faultEnvelope) 0 500 Sample.faultBody
     = Throw (Error (js "Server returned 500: ORA-00001")).
Proof.
  split.
  - apply (C4_fault_error (Sample.parserOf Sample.faultEnvelope) 0 200
             Sample.faultPre (js "ORA-00001") Sample.faultPost
             (Sample.leaf "faultstring" "ORA-00001"));
      [reflexivity | discriminate | reflexivity | reflexivity | reflexivity].
  - apply (C4_fault_error (Sample.parserOf Sample.faultEnvelope) 0 500
             Sample.faultPre (js "ORA-00001") Sample.faultPost
             (Sample.leaf "faultstring" "ORA-00001"));
      [reflexivity | discriminate | reflexivity | reflexivity | reflexivity].
Defined.

(** C5, as stated, fails: a body that is not well-formed is reported
    with the error of a missing payload, the one a well-formed envelope
    without report bytes gets. *)
Lemma C5_counterexample :
  handleResponse (Sample.parserOf Sample.parseErrorDocument) 0 200 (js "<a><b></a>")
  = Throw (Error noReportBytesMessage)
  /\ handleResponse (Sample.parserOf Sample.emptyEnvelope) 0 200
       (js "<env:Envelope><env:Header/><env:Body><ns2:runReportResponse/></env:Body></env:Envelope>")
     = Throw (Error noReportBytesMessage).
Proof. split; reflexivity. Qed.

(** C5 amended, at the error document of a mismatched tag. *)
Lemma C5_malformed_response_witness :
  decodeResponse (Sample.parserOf Sample.parseErrorDocument) 0 (js "<a><b></a>")
  = Throw (Error noReportBytesMessage)
  /\ handleResponse (Sample.parserOf Sample.parseErrorDocument) 0 200 (js "<a><b></a>")
     = Throw (Error noReportBytesMessage).
Proof.
  apply (C5_malformed_response (Sample.parserOf Sample.parseErrorDocument) 0
           (js "<a><b></a>") [Text (js "XML Parsing Error: mismatched tag")]);
    reflexivity.
Defined.

(* ================================================================== *)
(** ** Base64 decoding undoes the encoding *)
(* ================================================================== *)

Ltac arith := Z.to_euclidean_division_equations; lia.

Section Base64Facts.

Lemma triples_ind (P : list Z -> Prop) :
  P [] -> (forall a, P [a]) -> (forall a b, P [a; b]) ->
  (forall a b c rest, P rest -> P (a :: b :: c :: rest)) ->
  forall l, P l.
Proof.
  intros H0 H1 H2 H3 l.
  assert (H : P l /\ (forall a, P (a :: l)) /\ (forall a b, P (a :: b :: l))).
  { induction l as [|c rest (IH0 & IH1 & IH2)]; repeat split; auto. }
  apply H.
Qed.

Lemma forallb_cons {A} (p : A -> bool) (x : A) (l : list A) :
  forallb p (x :: l) = true <-> p x = true /\ forallb p l = true.
Proof. cbn [forallb]. apply andb_true_iff. Qed.

Lemma sextets_range (bs : list Z) :
  forallb Base64.isByte bs = true -> forallb Base64.isSextet (Base64.sextets bs) = true.
Proof.
  unfold Base64.isByte, Base64.isSextet.
  induction bs as [|a|a b|a b c rest IH] using triples_ind; intros H;
    cbn [Base64.sextets]; rewrite ?forallb_cons in *; bools;
    repeat split; try reflexivity; try arith.
  apply IH. tauto.
Qed.

Lemma value_char (v : Z) :
  Base64.isSextet v = true -> Base64.b64value (Base64.b64char v) = Some v.
Proof.
  unfold Base64.isSextet, Base64.b64char. intros H. bools.
  destruct (Z.ltb_spec v 26); [|destruct (Z.ltb_spec v 52);
    [|destruct (Z.ltb_spec v 62); [|destruct (Z.eqb_spec v 62)]]];
    unfold Base64.b64value;
    repeat match goal with
    | |- context [if ?c then _ else _] =>
        first [ replace c with true by (symmetry; bools; lia)
              | replace c with false by (symmetry; bools; lia) ]
    end; f_equal; lia.
Qed.

Lemma char_plain (v : Z) :
  Base64.isSextet v = true ->
  Base64.isAsciiWhitespace (Base64.b64char v) = false
  /\ Base64.b64char v <> 61.
Proof.
  unfold Base64.isSextet, Base64.b64char, Base64.isAsciiWhitespace. intros H. bools.
  destruct (Z.ltb_spec v 26); [|destruct (Z.ltb_spec v 52);
    [|destruct (Z.ltb_spec v 62); [|destruct (Z.eqb_spec v 62)]]];
    (split; [bools|]; lia).
Qed.

Lemma values_chars (vs : list Z) :
  forallb Base64.isSextet vs = true -> Base64.values (map Base64.b64char vs) = Some vs.
Proof.
  induction vs as [|v vs IH]; [reflexivity|].
  rewrite forallb_cons. intros [Hv Hvs]. cbn [map Base64.values].
  now rewrite value_char, IH.
Qed.

Lemma decode_sextets (bs : list Z) :
  forallb Base64.isByte bs = true -> Base64.decodeValues (Base64.sextets bs) = bs.
Proof.
  unfold Base64.isByte.
  induction bs as [|a|a b|a b c rest IH] using triples_ind; intros H;
    cbn [Base64.sextets Base64.decodeValues]; rewrite ?forallb_cons in *; bools.
  - reflexivity.
  - f_equal. arith.
  - f_equal; [arith|]. f_equal. arith.
  - rewrite IH by tauto. f_equal; [arith|]. f_equal; [arith|]. f_equal. arith.
Qed.

Lemma startsWith_same_length (x y z : jsstring) :
  List.length x = List.length z -> startsWith (x ++ y) z = JS.eqb x z.
Proof.
  revert z; induction x as [|a x IH]; intros [|b z] H; try discriminate.
  - reflexivity.
  - cbn [app startsWith JS.eqb]. rewrite IH by (simpl in H; lia). reflexivity.
Qed.

Lemma eqb_rev (a b : jsstring) : JS.eqb (rev a) (rev b) = JS.eqb a b.
Proof.
  apply eq_true_iff_eq. rewrite !eqb_eq. split; [|congruence].
  intros H. apply (f_equal (@rev Z)) in H. now rewrite !rev_involutive in H.
Qed.

(** [endsWith] read from the end. *)
Lemma endsWith_rev (s t : jsstring) :
  endsWith s t = startsWith (rev s) (rev t).
Proof.
  unfold endsWith. destruct (Nat.leb_spec (List.length t) (List.length s)) as [H|H].
  - cbn [andb]. set (k := (List.length s - List.length t)%nat).
    assert (Es : rev s = rev (skipn k s) ++ rev (firstn k s))
      by (now rewrite <- rev_app_distr, firstn_skipn).
    rewrite Es, startsWith_same_length, eqb_rev; [reflexivity|].
    rewrite !length_rev, length_skipn. lia.
  - cbn [andb]. destruct (startsWith (rev s) (rev t)) eqn:E; [|reflexivity].
    apply startsWith_length in E. rewrite !length_rev in E. lia.
Qed.

Lemma startsWith_head (l t : jsstring) (c : Z) :
  (forall x, In x l -> x <> c) -> startsWith l (c :: t) = false.
Proof.
  destruct l as [|x l]; [reflexivity|]. intros H. cbn [startsWith].
  assert (x <> c) by (apply H; now left).
  replace (x =? c) with false by (symmetry; now apply Z.eqb_neq).
  reflexivity.
Qed.

Lemma startsWith_cons (l t : jsstring) (c : Z) :
  startsWith (c :: l) (c :: t) = startsWith l t.
Proof. cbn [startsWith]. now rewrite Z.eqb_refl. Qed.

Lemma startsWith_nil (l : jsstring) : startsWith l [] = true.
Proof. reflexivity. Qed.

(** The padding fills the characters up to a multiple of four. *)
Lemma padding_cases (bs : list Z) :
  (Base64.padding bs = [] /\ Z.of_nat (List.length (Base64.sextets bs)) mod 4 = 0)
  \/ (Base64.padding bs = [61; 61]
      /\ Z.of_nat (List.length (Base64.sextets bs)) mod 4 = 2)
  \/ (Base64.padding bs = [61]
      /\ Z.of_nat (List.length (Base64.sextets bs)) mod 4 = 3).
Proof.
  induction bs as [|a|a b|a b c rest IH] using triples_ind.
  - left. split; reflexivity.
  - right. left. split; reflexivity.
  - right. right. split; reflexivity.
  - assert (Ep : Base64.padding (a :: b :: c :: rest) = Base64.padding rest).
    { unfold Base64.padding. cbn [List.length].
      replace (S (S (S (List.length rest)))) with (List.length rest + 1 * 3)%nat by lia.
      now rewrite Nat.Div0.mod_add. }
    assert (El : Z.of_nat (List.length (Base64.sextets (a :: b :: c :: rest))) mod 4
                 = Z.of_nat (List.length (Base64.sextets rest)) mod 4).
    { cbn [Base64.sextets List.length]. rewrite !Nat2Z.inj_succ. arith. }
    rewrite Ep, El. exact IH.
Qed.

Lemma stripPadding_encode (bs : list Z) :
  forallb Base64.isByte bs = true ->
  Base64.stripPadding (Base64.encodeBytes bs) = map Base64.b64char (Base64.sextets bs)
  /\ Z.of_nat (List.length (map Base64.b64char (Base64.sextets bs))) mod 4 <> 1.
Proof.
  intros Hb. apply sextets_range in Hb.
  set (u := map Base64.b64char (Base64.sextets bs)).
  assert (Hu : forall x, In x (rev u) -> x <> 61).
  { intros x Hx. apply in_rev in Hx. subst u. apply in_map_iff in Hx as (v & <- & Hv).
    apply char_plain. now apply (proj1 (forallb_forall _ _) Hb). }
  assert (Hlen : List.length u = List.length (Base64.sextets bs))
    by (subst u; apply length_map).
  unfold Base64.encodeBytes, Base64.stripPadding. fold u.
  rewrite !endsWith_rev, rev_app_distr, length_app.
  destruct (padding_cases bs) as [[-> Hm]|[[-> Hm]|[-> Hm]]];
    cbn [rev app List.length]; rewrite <- Hlen in Hm.
  - rewrite !startsWith_head by exact Hu. rewrite app_nil_r.
    split; [now destruct (_ =? 0) | arith].
  - replace (Z.of_nat (List.length u + 2) mod 4 =? 0) with true
      by (symmetry; apply Z.eqb_eq; rewrite ?Nat2Z.inj_add; arith).
    rewrite !startsWith_cons, startsWith_nil.
    replace (List.length u + 2 - 2)%nat with (List.length u + 0)%nat by lia.
    rewrite firstn_app_2. cbn [firstn]. rewrite app_nil_r. split; [reflexivity | rewrite ?Nat2Z.inj_add; arith].
  - replace (Z.of_nat (List.length u + 1) mod 4 =? 0) with true
      by (symmetry; apply Z.eqb_eq; rewrite ?Nat2Z.inj_add; arith).
    rewrite !startsWith_cons, startsWith_nil, startsWith_head by exact Hu.
    replace (List.length u + 1 - 1)%nat with (List.length u + 0)%nat by lia.
    rewrite firstn_app_2. cbn [firstn]. rewrite app_nil_r. split; [reflexivity | rewrite ?Nat2Z.inj_add; arith].
Qed.

Lemma filter_encode (bs : list Z) :
  forallb Base64.isByte bs = true ->
  filter (fun c => negb (Base64.isAsciiWhitespace c)) (Base64.encodeBytes bs)
  = Base64.encodeBytes bs.
Proof.
  intros Hb. apply sextets_range in Hb. apply filter_all. intros x Hx.
  apply negb_true_iff. unfold Base64.encodeBytes in Hx.
  apply in_app_or in Hx as [Hx|Hx].
  - apply in_map_iff in Hx as (v & <- & Hv). apply char_plain.
    now apply (proj1 (forallb_forall _ _) Hb).
  - destruct (padding_cases bs) as [[E _]|[[E _]|[E _]]]; rewrite E in Hx;
      cbn in Hx; intuition (subst; reflexivity).
Qed.

(** [atob] undoes [btoa]. *)
Lemma atob_encodeBytes (bs : list Z) :
  forallb Base64.isByte bs = true -> Base64.atob (Base64.encodeBytes bs) = Ok bs.
Proof.
  intros Hb. unfold Base64.atob. rewrite filter_encode by exact Hb.
  destruct (stripPadding_encode bs Hb) as [-> Hmod].
  replace (_ =? 1) with false by (symmetry; now apply Z.eqb_neq).
  rewrite values_chars by now apply sextets_range.
  now rewrite decode_sextets.
Qed.

End Base64Facts.

(* ================================================================== *)
(** ** UTF-8 decoding undoes the encoding *)
(* ================================================================== *)

Ltac decide_if :=
  match goal with
  | |- context [if ?c then _ else _] =>
      first [ replace c with true by (symmetry; bools; arith)
            | replace c with false by (symmetry; bools; arith) ]
  end.

Ltac split_if :=
  match goal with
  | |- context [if ?c then _ else _] =>
      let E := fresh "E" in destruct c eqn:E; bools
  end.

(** One step of the decoder, its tests decided. *)
Ltac decoder_step :=
  unfold Utf8.step at 1, Utf8.leadByte;
  cbn [Utf8.bytesNeeded Utf8.bytesSeen Utf8.codePoint Utf8.lowerBoundary
       Utf8.upperBoundary Utf8.initial];
  repeat first [decide_if | split_if]; cbn [app negb].

Section Utf8Facts.

(** The decoder reads the bytes of one scalar value back as that value
    and is in its initial state again. *)
Lemma run_encode (cp : Z) (rest : list Z) :
  Utf8.isScalarValue cp = true ->
  Utf8.run Utf8.initial (Utf8.encodeCodePoint cp ++ rest)
  = cp :: Utf8.run Utf8.initial rest.
Proof.
  unfold Utf8.isScalarValue. intros H. bools.
  unfold Utf8.encodeCodePoint.
  destruct (Z.leb_spec cp 127); [|destruct (Z.leb_spec cp 2047);
    [|destruct (Z.leb_spec cp 65535)]]; cbn [app Utf8.run].
  - decoder_step. reflexivity.
  - do 2 decoder_step. f_equal. arith.
  - do 3 decoder_step; f_equal; arith.
  - do 4 decoder_step; f_equal; arith.
Qed.

Lemma run_encode_all (cps : list Z) :
  forallb Utf8.isScalarValue cps = true ->
  Utf8.run Utf8.initial (flat_map Utf8.encodeCodePoint cps) = cps.
Proof.
  induction cps as [|cp cps IH]; [reflexivity|].
  rewrite forallb_cons. intros [H1 H2]. cbn [flat_map].
  now rewrite run_encode, IH.
Qed.

Lemma wellFormed_pair (c d : Z) (rest : jsstring) :
  Utf8.wellFormed (c :: d :: rest)
  = if Utf8.isLeadSurrogate c then Utf8.isTrailSurrogate d && Utf8.wellFormed rest
    else negb (Utf8.isTrailSurrogate c) && (0 <=? c) && (c <=? 65535)
         && Utf8.wellFormed (d :: rest).
Proof. reflexivity. Qed.

Lemma wellFormed_single (c : Z) :
  Utf8.wellFormed [c]
  = if Utf8.isLeadSurrogate c then false
    else negb (Utf8.isTrailSurrogate c) && (0 <=? c) && (c <=? 65535) && true.
Proof. reflexivity. Qed.

Lemma wellFormed_isString (s : jsstring) :
  Utf8.wellFormed s = true -> isString s = true.
Proof.
  induction s as [|c|c d rest IH1 IH2] using pairs_ind; intros H.
  - reflexivity.
  - rewrite wellFormed_single in H. apply isString_cons.
    unfold Utf8.isLeadSurrogate, Utf8.isTrailSurrogate in H.
    destruct ((55296 <=? c) && (c <=? 56319)); [discriminate|].
    bools. split; [lia | reflexivity].
  - rewrite wellFormed_pair in H.
    unfold Utf8.isLeadSurrogate, Utf8.isTrailSurrogate in H.
    destruct ((55296 <=? c) && (c <=? 56319)) eqn:E.
    + apply andb_true_iff in H as [Hd Hr].
      apply isString_cons. split; [bools; lia|].
      apply isString_cons. split; [bools; lia | auto].
    + apply andb_true_iff in H as [Hc Hr].
      apply isString_cons. split; [bools; lia | auto].
Qed.

(** The code units of a well-formed string come back from its scalar
    values. *)
Lemma fromCodePoint_toScalarValues (s : jsstring) :
  Utf8.wellFormed s = true ->
  flat_map Utf8.fromCodePoint (Utf8.toScalarValues s) = s.
Proof.
  unfold Utf8.toScalarValues.
  induction s as [|c|c d rest IH1 IH2] using pairs_ind; intros H.
  - reflexivity.
  - rewrite wellFormed_single in H. rewrite codePoints_single.
    unfold Utf8.isLeadSurrogate, Utf8.isTrailSurrogate in *.
    destruct ((55296 <=? c) && (c <=? 56319)); [discriminate|].
    destruct ((56320 <=? c) && (c <=? 57343)); [discriminate|].
    cbn [flat_map app]. unfold Utf8.fromCodePoint.
    bools. now replace (c <=? 65535) with true by (symmetry; bools; lia).
  - rewrite wellFormed_pair in H. rewrite codePoints_pair.
    unfold Utf8.isLeadSurrogate at 1, Utf8.isTrailSurrogate at 1 2.
    unfold Utf8.isLeadSurrogate at 1, Utf8.isTrailSurrogate at 1 2 in H.
    destruct ((55296 <=? c) && (c <=? 56319)) eqn:Ec.
    + apply andb_true_iff in H as [Hd Hr]. rewrite Hd.
      cbn [flat_map]. rewrite IH2 by exact Hr.
      unfold Utf8.fromCodePoint. bools.
      replace (_ <=? 65535) with false by (symmetry; bools; lia).
      cbn [app]. f_equal; [arith | f_equal; arith].
    + destruct ((56320 <=? c) && (c <=? 57343)) eqn:Et; [discriminate|].
      apply andb_true_iff in H as [Hc Hr].
      cbn [flat_map]. rewrite IH1 by exact Hr.
      unfold Utf8.fromCodePoint. cbn [negb andb] in Hc. bools.
      now replace (c <=? 65535) with true by (symmetry; bools; lia).
Qed.

(** The first scalar value is a byte order mark only if the first code
    unit is. *)
Lemma dropBOM_toScalarValues (s : jsstring) :
  Utf8.dropBOM (Utf8.toScalarValues s)
  = match s with
    | c :: rest => if c =? 65279 then Utf8.toScalarValues rest
                   else Utf8.toScalarValues s
    | [] => []
    end.
Proof.
  destruct s as [|c rest]; [reflexivity|].
  destruct (Z.eqb_spec c 65279) as [->|Hc].
  - destruct rest; reflexivity.
  - assert (H : match Utf8.toScalarValues (c :: rest) with
                | x :: _ => x <> 65279
                | [] => True
                end).
    { unfold Utf8.toScalarValues.
      destruct rest as [|d rest]; [rewrite codePoints_single
                                  | rewrite codePoints_pair];
        unfold Utf8.isLeadSurrogate, Utf8.isTrailSurrogate;
        repeat match goal with
        | |- context [if ?b then _ else _] =>
            let E := fresh "E" in destruct b eqn:E
        end; bools; lia. }
    destruct (Utf8.toScalarValues (c :: rest)) as [|x l]; [reflexivity|].
    cbn [Utf8.dropBOM]. now replace (x =? 65279) with false
      by (symmetry; now apply Z.eqb_neq).
Qed.

(** The string iterator over bytes gives the bytes. *)
Lemma stringIterator_bytes (bs : list Z) :
  forallb Base64.isByte bs = true ->
  map (fun m => m mod 256) (Utf8.stringIterator bs) = bs.
Proof.
  unfold Utf8.stringIterator, Base64.isByte.
  induction bs as [|b bs IH]; [reflexivity|].
  rewrite forallb_cons. intros [Hb Hbs]. bools.
  assert (E : Utf8.codePoints (fun c => c) (b :: bs)
              = b :: Utf8.codePoints (fun c => c) bs).
  { cbn [Utf8.codePoints]. unfold Utf8.isLeadSurrogate, Utf8.isTrailSurrogate.
    replace ((55296 <=? b) && (b <=? 56319)) with false by (symmetry; bools; lia).
    now replace ((56320 <=? b) && (b <=? 57343)) with false
      by (symmetry; bools; lia). }
  rewrite E. cbn [map]. rewrite IH by exact Hbs. f_equal. arith.
Qed.

End Utf8Facts.

(** What decoding makes of an encoded string: the string, without a
    byte order mark at its start. *)
Lemma decode_encode (s : jsstring) :
  Utf8.wellFormed s = true ->
  exists b64 : jsstring,
    encodeBase64 s = Ok b64
    /\ decodeBase64 b64
       = match s with
         | c :: rest => if c =? 65279 then rest else s
         | [] => []
         end.
Proof.
  intros Hwf. pose proof (wellFormed_isString s Hwf) as Hs.
  exists (Base64.encodeBytes (Utf8.textEncode s)).
  split; [now apply encodeBase64_total|].
  unfold decodeBase64.
  rewrite atob_encodeBytes by now apply bytes_textEncode.
  rewrite stringIterator_bytes by now apply bytes_textEncode.
  unfold Utf8.textDecode, Utf8.textEncode.
  rewrite run_encode_all by now apply scalar_toScalarValues.
  rewrite dropBOM_toScalarValues.
  destruct s as [|c rest]; [reflexivity|].
  destruct (Z.eqb_spec c 65279) as [->|Hc].
  - apply fromCodePoint_toScalarValues.
    change (Utf8.wellFormed (65279 :: rest)) with (Utf8.wellFormed rest) in Hwf || idtac.
    destruct rest; [reflexivity|]. exact Hwf.
  - now apply fromCodePoint_toScalarValues.
Qed.

(** C2, as stated, fails: a string that begins with U+FEFF comes back
    without it. *)
Lemma C2_counterexample :
  Utf8.wellFormed ([65279] ++ js "a") = true
  /\ encodeBase64 ([65279] ++ js "a") = Ok (js "77u/YQ==")
  /\ decodeBase64 (js "77u/YQ==") = js "a"
  /\ decodeBase64 (js "77u/YQ==") <> [65279] ++ js "a".
Proof. repeat split; try reflexivity. vm_compute. discriminate. Qed.

(** C2, amended. For every well-formed string, decoding its Base64
    encoding gives the string without a byte order mark U+FEFF at its
    start; a string that does not begin with U+FEFF, multi-byte
    characters included, comes back exactly. *)
Theorem C2_roundtrip (s : jsstring) :
  Utf8.wellFormed s = true ->
  exists b64 : jsstring,
    encodeBase64 s = Ok b64
    /\ decodeBase64 b64
       = match s with
         | c :: rest => if c =? 65279 then rest else s
         | [] => []
         end
    /\ (startsWith s [65279] = false -> decodeBase64 b64 = s).
Proof.
  intros Hwf. destruct (decode_encode s Hwf) as (b64 & E & D).
  exists b64. split; [exact E|]. split; [exact D|].
  intros Hbom. rewrite D. destruct s as [|c rest]; [reflexivity|].
  cbn [startsWith] in Hbom. rewrite andb_true_r in Hbom. now rewrite Hbom.
Qed.

(** C2 amended, at the text cafe, with an acute accent on the e, followed by a character outside the
    basic plane. *)
Lemma C2_roundtrip_witness :
  Utf8.wellFormed (js "caf" ++ [233; 55357; 56832]) = true
  /\ exists b64 : jsstring,
       encodeBase64 (js "caf" ++ [233; 55357; 56832]) = Ok b64
       /\ decodeBase64 b64 = js "caf" ++ [233; 55357; 56832].
Proof.
  split; [reflexivity|].
  destruct (C2_roundtrip (js "caf" ++ [233; 55357; 56832]) eq_refl)
    as (b64 & E & _ & D).
  exists b64. split; [exact E | apply D; reflexivity].
Defined.


(* ================================================================== *)
(** ** Further properties of the URL resolution *)
(* ================================================================== *)

Section UrlFacts.

Lemma indexOf_unfold (s t : jsstring) :
  indexOf s t
  = if startsWith s t then Some 0%nat
    else match s with
         | [] => None
         | _ :: s' => option_map S (indexOf s' t)
         end.
Proof. destruct s; reflexivity. Qed.

Lemma indexOf_occurs (a t b : jsstring) :
  exists p, indexOf (a ++ t ++ b) t = Some p.
Proof.
  induction a as [|c a [p IH]].
  - exists 0%nat. cbn [app]. now rewrite indexOf_unfold, startsWith_app.
  - rewrite indexOf_unfold.
    destruct (startsWith ((c :: a) ++ t ++ b) t); [eauto|].
    cbn [app]. rewrite IH. cbn. eauto.
Qed.

Lemma includes_occurs (a t b : jsstring) : includes (a ++ t ++ b) t = true.
Proof.
  unfold includes. destruct (indexOf_occurs a t b) as [p ->]. reflexivity.
Qed.

Lemma trimStart_fixed (s : jsstring) :
  match s with c :: _ => isWhiteSpace c = false | [] => True end ->
  trimStart s = s.
Proof. destruct s as [|c s]; [reflexivity|]. cbn [trimStart]. now intros ->. Qed.

(** A string that neither begins nor ends with white space is its own
    trim. *)
Lemma trim_fixed (s : jsstring) :
  match s with c :: _ => isWhiteSpace c = false | [] => True end ->
  match rev s with c :: _ => isWhiteSpace c = false | [] => True end ->
  trim s = s.
Proof.
  intros H1 H2. unfold trim, trimEnd.
  rewrite (trimStart_fixed s H1), (trimStart_fixed (rev s) H2).
  apply rev_involutive.
Qed.

Lemma trim_trim (s : jsstring) : trim (trim s) = trim s.
Proof.
  destruct (trim_spec s) as (_ & _ & _ & _ & _ & H1 & H2).
  now apply trim_fixed.
Qed.

Lemma trim_blank (s : jsstring) :
  forallb isWhiteSpace s = true -> trim s = [].
Proof.
  intros H. unfold trim, trimEnd.
  assert (E : trimStart s = []).
  { induction s as [|c s IH]; [reflexivity|].
    cbn [forallb] in H. apply andb_true_iff in H as [Hc Hs].
    cbn [trimStart]. rewrite Hc. auto. }
  rewrite E. reflexivity.
Qed.

End UrlFacts.

(** X1. The resolved target always holds the service path segment, and
    resolving a resolved target changes nothing. *)
Theorem targetUrl_stable (config config' : ConnectionConfig) :
  url config' = targetUrl config ->
  includes (targetUrl config) (js "/xmlpserver") = true
  /\ targetUrl config' = targetUrl config.
Proof.
  intros Hurl.
  assert (Hinc : includes (targetUrl config) (js "/xmlpserver") = true).
  { rewrite targetUrl_spec.
    destruct (includes (trim (url config)) (js "/xmlpserver")) eqn:E; [exact E|].
    change REPORT_SERVICE_PATH
      with (js "/xmlpserver" ++ js "/services/v2/ReportService").
    apply includes_occurs. }
  split; [exact Hinc|].
  assert (Htrim : trim (targetUrl config) = targetUrl config).
  { rewrite targetUrl_spec.
    destruct (includes (trim (url config)) (js "/xmlpserver")); [apply trim_trim|].
    destruct (trim_spec (url config)) as (_ & _ & _ & _ & _ & H1 & H2).
    apply trim_fixed.
    - unfold Spec.stripOneSlash.
      destruct (rev (trim (url config))) as [|c r] eqn:Er; [|destruct (c =? 47)].
      + destruct (trim (url config)); [reflexivity | exact H1].
      + assert (Et : trim (url config) = rev r ++ [c])
          by (rewrite <- (rev_involutive (trim (url config))), Er; reflexivity).
        rewrite Et in H1. destruct (rev r); [reflexivity | exact H1].
      + destruct (trim (url config)); [reflexivity | exact H1].
    - rewrite rev_app_distr. reflexivity. }
  rewrite (targetUrl_spec config'), Hurl, Htrim, Hinc. reflexivity.
Qed.

Lemma targetUrl_stable_witness :
  includes (targetUrl Sample.connection) (js "/xmlpserver") = true
  /\ targetUrl (mkConfig (js "c2") (js "Copy")
                  (js "https://h.example.com/xmlpserver/services/v2/ReportService")
                  [] [] [] None)
     = targetUrl Sample.connection.
Proof.
  apply (targetUrl_stable Sample.connection). reflexivity.
Defined.

(** X2. A proxy setting that is missing or blank leaves the target as the
    URL fetched; any other proxy is put in front of the target, ending
    in one of the separators [?], [=] and [/]. *)
Theorem fetchUrl_prefix (config : ConnectionConfig) :
  exists prefix : jsstring,
    fetchUrl config = prefix ++ targetUrl config
    /\ match corsProxy config with
       | None => prefix = []
       | Some proxy =>
           if forallb isWhiteSpace proxy then prefix = []
           else startsWith prefix (trim proxy) = true
                /\ (Spec.endsIn 63 prefix || Spec.endsIn 61 prefix
                    || Spec.endsIn 47 prefix) = true
       end.
Proof.
  rewrite fetchUrl_spec. destruct (corsProxy config) as [proxy|];
    [|exists []; split; reflexivity].
  destruct (forallb isWhiteSpace proxy) eqn:Eb.
  - rewrite (trim_blank proxy Eb). exists []. split; reflexivity.
  - destruct (trim proxy) as [|c p] eqn:Et.
    + exfalso. destruct (trim_spec proxy) as (lead & trail & E & Hl & Ht & _).
      rewrite Et in E. cbn [app] in E. rewrite E, forallb_app, Hl, Ht in Eb.
      discriminate.
    + exists (Spec.proxyPrefix (c :: p)). split; [reflexivity|].
      unfold Spec.proxyPrefix.
      destruct (JS.eqb (c :: p) (js "https://corsproxy.io")) eqn:Ep.
      * apply eqb_eq in Ep. rewrite Ep. split; reflexivity.
      * destruct (Spec.endsIn 63 (c :: p) || Spec.endsIn 61 (c :: p)
                  || Spec.endsIn 47 (c :: p)) eqn:Ee.
        -- split; [|exact Ee].
           rewrite <- (app_nil_r (c :: p)) at 1. apply startsWith_app.
        -- split; [apply startsWith_app|].
           unfold Spec.endsIn. rewrite rev_app_distr. reflexivity.
Qed.


(* ================================================================== *)
(** ** Further properties of the table *)
(* ================================================================== *)

Lemma NoDup_distinct (l : list jsstring) : NoDup (Spec.distinct l).
Proof.
  induction l as [|x l IH]; cbn [Spec.distinct]; constructor.
  - intros H. apply filter_In in H as [_ H].
    now rewrite eqb_refl in H.
  - now apply NoDup_filter.
Qed.

(** X3. The table that the flattening returns: no column is listed twice,
    there is one row mapping for every row element, no mapping has a key
    twice or a key outside the column list, and every column other than
    [__proto__] is a key of some row. *)
Theorem flatten_invariants (xmlString : jsstring) (xmlDoc : document) :
  NoDup (columns (flatten xmlString xmlDoc))
  /\ List.length (rows (flatten xmlString xmlDoc))
     = List.length (children (documentElement xmlDoc))
  /\ Forall (fun row => NoDup (keys row)
                        /\ incl (keys row) (columns (flatten xmlString xmlDoc)))
            (rows (flatten xmlString xmlDoc))
  /\ Forall (fun k => k = js "__proto__"
                      \/ Exists (fun row => In k (keys row))
                                (rows (flatten xmlString xmlDoc)))
            (columns (flatten xmlString xmlDoc)).
Proof.
  rewrite flatten_spec. cbn [columns rows].
  split; [apply NoDup_distinct|]. split; [apply length_map|]. split.
  - apply Forall_forall. intros row Hrow.
    apply in_map_iff in Hrow as (el & <- & Hel). split.
    + rewrite keys_rowObject. apply NoDup_distinct.
    + intros k Hk. rewrite keys_rowObject in Hk.
      apply In_distinct, filter_In in Hk as [Hk _].
      apply In_distinct, in_flat_map. eauto.
  - apply Forall_forall. intros k Hk.
    apply In_distinct, in_flat_map in Hk as (el & Hel & Hk).
    destruct (JS.eqb k (js "__proto__")) eqn:E; [left; now apply eqb_eq|].
    right. apply Exists_exists. exists (Spec.rowObject el).
    split; [now apply in_map|].
    rewrite keys_rowObject. apply In_distinct, filter_In. split; [exact Hk|].
    unfold Spec.notProto. now rewrite E.
Qed.

(* ================================================================== *)
(** ** Further properties of the query execution *)
(* ================================================================== *)

Section ExecutionFacts.

Variable parseFromString : jsstring -> document.
Variable fetch : jsstring -> jsstring -> fetchResult.
Variable elapsedMs : Z.


Lemma item0_none (l : list node) : item0 l = None -> l = [].
Proof. destruct l; [reflexivity | discriminate]. Qed.

Lemma item0_filter (p : node -> bool) (l : list node) (n : node) :
  item0 (filter p l) = Some n -> In n l /\ p n = true.
Proof.
  intros H. apply filter_In. destruct (filter p l); [discriminate|].
  injection H as ->. now left.
Qed.

(** X5. A result is returned only when every stage went through: the
    request was built, the response had a 2xx status, its document held
    no fault element and a payload element with text, and the decoded
    payload parsed without error.  The result then carries the decoded
    XML and the time measured. *)
Theorem executeSoapQuery_result (query : jsstring) (config : ConnectionConfig)
    (rowLimit : number) (result : QueryResult) :
  executeSoapQuery parseFromString fetch elapsedMs query config rowLimit
  = Ok result ->
  exists (parametersXml text : jsstring) (status : Z) (payload : node),
    prepareSqlParameters query rowLimit = Ok parametersXml
    /\ fetch (fetchUrl config) (soapBody config parametersXml)
       = Response status text
    /\ ok status = true
    /\ getElementsByTagName (parseFromString text) (js "faultstring") = []
    /\ getElementsByTagName (parseFromString text) (js "soapenv:Fault") = []
    /\ In payload (elements (documentElement (parseFromString text)))
    /\ In (nodeName payload) Shape.payloadNames
    /\ textContent payload <> []
    /\ getElementsByTagName
         (parseFromString (decodeBase64 (textContent payload)))
         (js "parsererror") = []
    /\ result
       = mkResult
           (columns (flatten (decodeBase64 (textContent payload))
                       (parseFromString (decodeBase64 (textContent payload)))))
           (rows (flatten (decodeBase64 (textContent payload))
                    (parseFromString (decodeBase64 (textContent payload)))))
           (Some (decodeBase64 (textContent payload))) elapsedMs.
Proof.
  unfold executeSoapQuery. intros H.
  destruct (prepareSqlParameters query rowLimit) as [p| |] eqn:Ep;
    cbn [bind] in H; try discriminate.
  destruct (fetch (fetchUrl config) (soapBody config p)) as [e|status text] eqn:Ef.
  { destruct (_ && _); discriminate. }
  unfold handleResponse in H.
  destruct (ok status) eqn:Eok; cbn [negb] in H; [|discriminate].
  unfold decodeResponse in H.
  destruct (item0 (getElementsByTagName (parseFromString text) (js "faultstring")))
    eqn:E1; cbn [orElse] in H; [discriminate|].
  destruct (item0 (getElementsByTagName (parseFromString text) (js "soapenv:Fault")))
    eqn:E2; [discriminate|].
  match type of H with
  | match ?x with _ => _ end = _ => destruct x as [payload|] eqn:E3
  end; [|discriminate].
  destruct (textContent payload) as [|c m] eqn:Et; [discriminate|].
  rewrite <- Et in *.
  unfold parseOracleXML in H.
  destruct (0 <? List.length (getElementsByTagName
              (parseFromString (decodeBase64 (textContent payload)))
              (js "parsererror")))%nat eqn:E4; cbn [bind] in H; [discriminate|].
  injection H as <-.
  exists p, text, status, payload.
  split; [reflexivity|]. split; [exact Ef|]. split; [exact Eok|].
  split; [now apply item0_none|]. split; [now apply item0_none|].
  assert (Hp : In payload (elements (documentElement (parseFromString text)))
               /\ In (nodeName payload) Shape.payloadNames).
  { assert (Hone : forall name, JS.eqb name (js "*") = false ->
              item0 (getElementsByTagName (parseFromString text) name) = Some payload ->
              In payload (elements (documentElement (parseFromString text)))
              /\ nodeName payload = name).
    { intros name Hstar Hn. unfold getElementsByTagName in Hn.
      apply item0_filter in Hn as [Hin Hn]. rewrite Hstar in Hn.
      cbn [orb] in Hn. apply eqb_eq in Hn. auto. }
    unfold Shape.payloadNames.
    destruct (item0 (getElementsByTagName (parseFromString text) (js "reportBytes")))
      eqn:F1; cbn [orElse] in E3.
    - injection E3 as ->. apply Hone in F1 as [Hin <-]; [|reflexivity].
      split; [exact Hin | now left].
    - destruct (item0 (getElementsByTagName (parseFromString text)
                         (js "v2:reportBytes"))) eqn:F2; cbn [orElse] in E3.
      + injection E3 as ->. apply Hone in F2 as [Hin <-]; [|reflexivity].
        split; [exact Hin | right; now left].
      + apply Hone in E3 as [Hin <-]; [|reflexivity].
        split; [exact Hin | right; right; now left]. }
  destruct Hp as [Hp1 Hp2]. split; [exact Hp1|]. split; [exact Hp2|].
  split; [rewrite Et; discriminate|].
  split; [|rewrite flatten_spec; reflexivity].
  apply Nat.ltb_ge in E4.
  destruct (getElementsByTagName _ (js "parsererror")); [reflexivity|].
  cbn in E4. lia.
Qed.

End ExecutionFacts.


(** The sample exchange: the response carries the payload under the
    name [ns2:reportBytes], and the result holds the decoded XML. *)
Lemma executeSoapQuery_result_witness :
  exists result : QueryResult,
    executeSoapQuery Example.parser (Example.respond 200 Example.response) 12
      (js "SELECT 1 FROM dual;") Sample.connection (Num 100)
    = Ok result
    /\ rawXml result = Some Example.inner
    /\ exists payload : node,
         nodeName payload = js "ns2:reportBytes"
         /\ decodeBase64 (textContent payload) = Example.inner.
Proof.
  assert (E : executeSoapQuery Example.parser
                (Example.respond 200 Example.response) 12
                (js "SELECT 1 FROM dual;") Sample.connection (Num 100)
              = Ok (mkResult [js "A"; js "B"]
                      [[(js "A", js "1"); (js "B", js "2")]; [(js "A", js "3")]]
                      (Some Example.inner) 12))
    by (vm_compute; reflexivity).
  eexists. split; [exact E|]. split; [reflexivity|].
  destruct (executeSoapQuery_result Example.parser
              (Example.respond 200 Example.response) 12 _ _ _ _ E)
    as (p & text & status & payload & _ & Hf & _ & _ & _ & Hin & _ & _ & _ & Hr).
  injection Hf as _ <-.
  exists payload. split.
  - vm_compute in Hin.
    repeat (destruct Hin as [<-|Hin];
            [try (apply (f_equal rawXml) in Hr; vm_compute in Hr; discriminate)|]);
      try contradiction.
    reflexivity.
  - apply (f_equal rawXml) in Hr. cbn [rawXml] in Hr. now injection Hr as <-.
Defined.


(* ================================================================== *)
(** ** Further properties of the Base64 helpers *)
(* ================================================================== *)

Section Base64More.

Lemma length_encodeBytes (bs : list Z) :
  JS.length (Base64.encodeBytes bs) = 4 * ((Z.of_nat (List.length bs) + 2) / 3).
Proof.
  unfold JS.length, Base64.encodeBytes. rewrite length_app, length_map.
  induction bs as [|a|a b|a b c rest IH] using triples_ind;
    try reflexivity.
  assert (Ep : Base64.padding (a :: b :: c :: rest) = Base64.padding rest).
  { unfold Base64.padding. cbn [List.length].
    replace (S (S (S (List.length rest)))) with (List.length rest + 1 * 3)%nat by lia.
    now rewrite Nat.Div0.mod_add. }
  rewrite Ep. cbn [Base64.sextets List.length].
  rewrite !Nat2Z.inj_add, !Nat2Z.inj_succ in *. arith.
Qed.

Lemma alphabet_encodeBytes (bs : list Z) :
  forallb Base64.isByte bs = true ->
  forallb Shape.isBase64Char (Base64.encodeBytes bs) = true.
Proof.
  intros Hb. apply sextets_range in Hb. unfold Base64.encodeBytes.
  rewrite forallb_app. apply andb_true_iff. split.
  - apply forallb_forall. intros x Hx. apply in_map_iff in Hx as (v & <- & Hv).
    unfold Shape.isBase64Char. rewrite value_char; [reflexivity|].
    now apply (proj1 (forallb_forall _ _) Hb).
  - destruct (padding_cases bs) as [[-> _]|[[-> _]|[-> _]]]; reflexivity.
Qed.

End Base64More.

(** X6. The Base64 text of a string is made of the 64 characters of the
    alphabet and the padding character only, and its length is four
    times the number of groups of three UTF-8 bytes, a last partial
    group counted. *)
Theorem encodeBase64_shape (s : jsstring) :
  isString s = true ->
  exists b64 : jsstring,
    encodeBase64 s = Ok b64
    /\ JS.length b64 = 4 * ((Z.of_nat (List.length (Utf8.textEncode s)) + 2) / 3)
    /\ forallb Shape.isBase64Char b64 = true.
Proof.
  intros Hs. exists (Base64.encodeBytes (Utf8.textEncode s)).
  split; [now apply encodeBase64_total|].
  split; [apply length_encodeBytes|].
  apply alphabet_encodeBytes. now apply bytes_textEncode.
Qed.

Lemma encodeBase64_shape_witness :
  exists b64 : jsstring,
    encodeBase64 (js "caf" ++ [233]) = Ok b64
    /\ JS.length b64 = 8
    /\ forallb Shape.isBase64Char b64 = true.
Proof.
  destruct (encodeBase64_shape (js "caf" ++ [233]) eq_refl) as (b & E & L & A).
  exists b. split; [exact E|]. split; [rewrite L; reflexivity | exact A].
Defined.

(** X7. ASCII white space inside a Base64 text is skipped by the decoder. *)
Theorem decodeBase64_whitespace (a b : jsstring) (w : Z) :
  Base64.isAsciiWhitespace w = true ->
  decodeBase64 (a ++ w :: b) = decodeBase64 (a ++ b).
Proof.
  intros Hw. unfold decodeBase64, Base64.atob.
  rewrite !filter_app. cbn [filter]. rewrite Hw. reflexivity.
Qed.

Lemma decodeBase64_whitespace_witness :
  decodeBase64 (js "Y2Fm" ++ 10 :: js "w6k=") = js "caf" ++ [233].
Proof.
  rewrite (decodeBase64_whitespace (js "Y2Fm") (js "w6k=") 10 eq_refl).
  reflexivity.
Defined.

Section Lenient.

Lemma values_bad (s : jsstring) (c : Z) :
  In c s -> Base64.b64value c = None -> Base64.values s = None.
Proof.
  induction s as [|x s IH]; [contradiction|].
  intros [->|H] Hc; cbn [Base64.values].
  - now rewrite Hc.
  - rewrite (IH H Hc). now destruct (Base64.b64value x).
Qed.

Lemma firstn_keeps (s : jsstring) (c : Z) (n : nat) :
  In c s -> c <> 61 ->
  forallb (fun x => x =? 61) (skipn n s) = true ->
  In c (firstn n s).
Proof.
  intros Hin Hc Hpad. rewrite <- (firstn_skipn n s) in Hin.
  apply in_app_or in Hin as [H|H]; [exact H|].
  apply (proj1 (forallb_forall _ _) Hpad) in H. apply Z.eqb_eq in H. lia.
Qed.

Lemma endsWith_skipn (s t : jsstring) :
  endsWith s t = true -> skipn (List.length s - List.length t) s = t.
Proof.
  unfold endsWith. intros H. apply andb_true_iff in H as [_ H].
  now apply eqb_eq.
Qed.

Lemma stripPadding_keeps (s : jsstring) (c : Z) :
  In c s -> c <> 61 -> In c (Base64.stripPadding s).
Proof.
  intros Hin Hc. unfold Base64.stripPadding.
  destruct (_ =? 0); [|exact Hin].
  destruct (endsWith s [61; 61]) eqn:E2.
  - apply firstn_keeps; auto. apply endsWith_skipn in E2.
    cbn [List.length] in E2. now rewrite E2.
  - destruct (endsWith s [61]) eqn:E1; [|exact Hin].
    apply firstn_keeps; auto. apply endsWith_skipn in E1.
    cbn [List.length] in E1. now rewrite E1.
Qed.

End Lenient.

(** X8. A text with a character that is neither of the Base64 alphabet, nor
    padding, nor ASCII white space does not decode: the decoder gives
    the empty string and throws nothing. *)
Theorem decodeBase64_invalid (s : jsstring) (c : Z) :
  In c s ->
  Base64.b64value c = None ->
  c <> 61 ->
  Base64.isAsciiWhitespace c = false ->
  decodeBase64 s = [].
Proof.
  intros Hin Hv Hpad Hws. unfold decodeBase64, Base64.atob.
  destruct (_ =? 1); [reflexivity|].
  rewrite (values_bad _ c); [reflexivity | | exact Hv].
  apply stripPadding_keeps; [|exact Hpad].
  apply filter_In. split; [exact Hin | now rewrite Hws].
Qed.

Lemma decodeBase64_invalid_witness : decodeBase64 (js "Y2Fm*6k=") = [].
Proof.
  apply (decodeBase64_invalid (js "Y2Fm*6k=") 42); cbn; auto; lia.
Defined.



(* ================================================================== *)
(** ** Further properties of the request encoder *)
(* ================================================================== *)

Section EncoderMore.

(** What the encoder returns, for every statement. *)
Lemma prepareSqlParameters_chunks (sql : jsstring) (rowLimit : number) :
  isString sql = true ->
  prepareSqlParameters sql rowLimit
  = Ok (List.concat
          (map renderChunk
             (Spec.chunks (Base64.encodeBytes
                             (Utf8.textEncode (wrappedSql sql rowLimit)))))).
Proof.
  intros Hs. unfold prepareSqlParameters.
  rewrite (encodeBase64_total _ (isString_wrappedSql sql rowLimit Hs)).
  cbn [bind]. set (b64 := Base64.encodeBytes _). clearbody b64.
  pose proof (chunkLoop_from b64 (S (List.length b64)) 0 []) as L.
  cbv zeta in L. rewrite Z.mul_0_l, Nat.sub_0_r in L.
  rewrite L; [reflexivity | lia |].
  apply Nat2Z.inj_lt. unfold Spec.chunkCount, JS.length.
  rewrite Z2Nat.id by (apply Z.min_glb; [apply Z.div_pos|]; lia).
  arith.
Qed.

Lemma In_firstn {A} (x : A) (n : nat) (l : list A) :
  In x (firstn n l) -> In x l.
Proof.
  intros H. rewrite <- (firstn_skipn n l). apply in_or_app. now left.
Qed.

Lemma In_skipn {A} (x : A) (n : nat) (l : list A) :
  In x (skipn n l) -> In x l.
Proof.
  intros H. rewrite <- (firstn_skipn n l). apply in_or_app. now right.
Qed.

Lemma noDollar_app (s t : jsstring) :
  Shape.noDollar (s ++ t) = Shape.noDollar s && Shape.noDollar t.
Proof. unfold Shape.noDollar. rewrite existsb_app. apply negb_orb. Qed.

Lemma noDollar_concat (l : list jsstring) :
  forallb Shape.noDollar l = true -> Shape.noDollar (List.concat l) = true.
Proof.
  induction l as [|x l IH]; [reflexivity|].
  cbn [forallb List.concat]. intros H. apply andb_true_iff in H as [Hx Hl].
  now rewrite noDollar_app, Hx, IH.
Qed.

Lemma noDollar_incl (s t : jsstring) :
  incl s t -> Shape.noDollar t = true -> Shape.noDollar s = true.
Proof.
  unfold Shape.noDollar. intros Hi Ht. apply negb_true_iff in Ht.
  apply negb_true_iff. destruct (existsb (Z.eqb 36) s) eqn:E; [|reflexivity].
  apply existsb_exists in E as (x & Hx & Ex).
  assert (existsb (Z.eqb 36) t = true) by (apply existsb_exists; eauto).
  congruence.
Qed.

Lemma noDollar_base64 (bs : list Z) :
  forallb Base64.isByte bs = true ->
  Shape.noDollar (Base64.encodeBytes bs) = true.
Proof.
  intros Hb. apply alphabet_encodeBytes in Hb. unfold Shape.noDollar.
  apply negb_true_iff. destruct (existsb _ _) eqn:E; [|reflexivity].
  apply existsb_exists in E as (x & Hx & Ex). apply Z.eqb_eq in Ex. subst x.
  apply (proj1 (forallb_forall _ _) Hb) in Hx. discriminate.
Qed.

Lemma noDollar_chunks (b64 : jsstring) :
  Shape.noDollar b64 = true ->
  forallb Shape.noDollar (map renderChunk (Spec.chunks b64)) = true.
Proof.
  intros Hb. apply forallb_forall. intros x Hx.
  apply in_map_iff in Hx as ([name text] & <- & Hc).
  assert (Hname : In name Spec.slotNames).
  { assert (Hn : In name (map fst (Spec.chunks b64)))
      by (apply in_map_iff; exists (name, text); auto).
    unfold Spec.chunks in Hn. rewrite chunk_names in Hn.
    - exact (In_firstn _ _ _ Hn).
    - unfold Spec.chunkCount. lia. }
  assert (Htext : incl text b64).
  { unfold Spec.chunks in Hc. apply in_map_iff in Hc as (i & Hi & _).
    apply (f_equal snd) in Hi. unfold Spec.chunk in Hi. cbn [snd] in Hi.
    subst text. intros y Hy.
    apply In_firstn in Hy. exact (In_skipn _ _ _ Hy). }
  unfold renderChunk, paramItem. cbn [fst snd].
  rewrite !noDollar_app, (noDollar_incl text b64 Htext Hb).
  assert (Hn : Shape.noDollar name = true).
  { cbn in Hname. repeat (destruct Hname as [<-|Hname]; [reflexivity|]).
    contradiction. }
  rewrite Hn. reflexivity.
Qed.

End EncoderMore.

(** X9. The parameter XML of every statement is free of dollar signs, so
    the template substitution, which expands dollar patterns in the
    text it inserts, puts it in place of the first placeholder as it
    is. *)
Theorem parameters_verbatim (sql : jsstring) (rowLimit : number) :
  isString sql = true ->
  exists parametersXml : jsstring,
    prepareSqlParameters sql rowLimit = Ok parametersXml
    /\ Shape.noDollar parametersXml = true
    /\ forall template : jsstring,
         replace template (js "{{PARAMETERS}}") parametersXml
         = match indexOf template (js "{{PARAMETERS}}") with
           | Some p => firstn p template ++ parametersXml
                       ++ skipn (p + 14) template
           | None => template
           end.
Proof.
  intros Hs. eexists. split; [now apply prepareSqlParameters_chunks|].
  assert (Hd : Shape.noDollar
                 (List.concat
                    (map renderChunk
                       (Spec.chunks
                          (Base64.encodeBytes
                             (Utf8.textEncode (wrappedSql sql rowLimit))))))
               = true).
  { apply noDollar_concat, noDollar_chunks, noDollar_base64, bytes_textEncode.
    now apply isString_wrappedSql. }
  split; [exact Hd|]. intros template. unfold replace.
  destruct (indexOf template (js "{{PARAMETERS}}")); [|reflexivity].
  rewrite getSubstitution_plain; [reflexivity|].
  unfold Shape.noDollar in Hd. now apply negb_true_iff in Hd.
Qed.

Lemma parameters_verbatim_witness :
  exists parametersXml : jsstring,
    prepareSqlParameters (js "SELECT '$&' FROM dual") (Num 100) = Ok parametersXml
    /\ Shape.noDollar parametersXml = true
    /\ replace (js "<a>{{PARAMETERS}}</a>") (js "{{PARAMETERS}}") parametersXml
       = js "<a>" ++ parametersXml ++ js "</a>".
Proof.
  destruct (parameters_verbatim (js "SELECT '$&' FROM dual") (Num 100) eq_refl)
    as (p & E & D & R).
  exists p. split; [exact E|]. split; [exact D|].
  rewrite R. reflexivity.
Defined.

(* ================================================================== *)
(** ** The chunks decode to the statement *)
(* ================================================================== *)

Section WellFormed.

Lemma wellFormed_cons (c : Z) (s : jsstring) :
  Shape.notSurrogate c = true -> (0 <= c <= 65535) ->
  Utf8.wellFormed (c :: s) = Utf8.wellFormed s.
Proof.
  unfold Shape.notSurrogate. intros Hc Hr. cbn [Utf8.wellFormed].
  unfold Utf8.isLeadSurrogate, Utf8.isTrailSurrogate.
  replace ((55296 <=? c) && (c <=? 56319)) with false by (symmetry; bools; lia).
  replace ((56320 <=? c) && (c <=? 57343)) with false by (symmetry; bools; lia).
  replace (0 <=? c) with true by (symmetry; bools; lia).
  replace (c <=? 65535) with true by (symmetry; bools; lia).
  reflexivity.
Qed.

Lemma wellFormed_app (a b : jsstring) :
  Utf8.wellFormed a = true -> Utf8.wellFormed b = true ->
  Utf8.wellFormed (a ++ b) = true.
Proof.
  intros Ha Hb.
  induction a as [|c|c d rest IH1 IH2] using pairs_ind.
  - exact Hb.
  - rewrite wellFormed_single in Ha.
    destruct (Utf8.isLeadSurrogate c) eqn:El; [discriminate|].
    cbn [app Utf8.wellFormed]. rewrite El.
    rewrite andb_true_r in Ha. now rewrite Ha, Hb.
  - rewrite wellFormed_pair in Ha.
    change ((c :: d :: rest) ++ b) with (c :: d :: (rest ++ b)).
    rewrite wellFormed_pair.
    destruct (Utf8.isLeadSurrogate c).
    + apply andb_true_iff in Ha as [Hd Hr]. rewrite Hd. now apply IH2.
    + apply andb_true_iff in Ha as [Hc Hr]. rewrite Hc. now apply IH1.
Qed.

(** Cutting code units that are no surrogates off the end keeps a
    string well-formed. *)
Lemma wellFormed_app_l (a b : jsstring) :
  forallb Shape.notSurrogate b = true ->
  Utf8.wellFormed (a ++ b) = true -> Utf8.wellFormed a = true.
Proof.
  intros Hb.
  induction a as [|c|c d rest IH1 IH2] using pairs_ind; intros H.
  - reflexivity.
  - rewrite wellFormed_single. cbn [app] in H.
    destruct b as [|d b].
    + now rewrite wellFormed_single in H.
    + rewrite wellFormed_pair in H.
      destruct (Utf8.isLeadSurrogate c).
      * apply andb_true_iff in H as [Hd _].
        cbn [forallb] in Hb. apply andb_true_iff in Hb as [Hn _].
        unfold Shape.notSurrogate, Utf8.isTrailSurrogate in *. bools. lia.
      * apply andb_true_iff in H as [Hc _]. now rewrite Hc.
  - change ((c :: d :: rest) ++ b) with (c :: d :: (rest ++ b)) in H.
    rewrite wellFormed_pair in *.
    destruct (Utf8.isLeadSurrogate c).
    + apply andb_true_iff in H as [Hd Hr]. rewrite Hd. now apply IH2.
    + apply andb_true_iff in H as [Hc Hr]. rewrite Hc. now apply IH1.
Qed.

Lemma wellFormed_app_r (a b : jsstring) :
  forallb Shape.notSurrogate a = true ->
  Utf8.wellFormed (a ++ b) = true -> Utf8.wellFormed b = true.
Proof.
  induction a as [|c a IH]; intros Ha H; [exact H|].
  cbn [forallb] in Ha. apply andb_true_iff in Ha as [Hc Ha].
  apply IH; [exact Ha|]. cbn [app] in H.
  assert (Hs := wellFormed_isString _ H). apply isString_cons in Hs as [Hr _].
  now rewrite wellFormed_cons in H.
Qed.

Lemma whiteSpace_notSurrogate (s : jsstring) :
  forallb isWhiteSpace s = true -> forallb Shape.notSurrogate s = true.
Proof.
  rewrite !forallb_forall. intros H c Hc. specialize (H c Hc).
  unfold isWhiteSpace, Shape.notSurrogate in *. bools. lia.
Qed.

Lemma wellFormed_js (str : string) : Utf8.wellFormed (js str) = true.
Proof.
  unfold js. induction (list_ascii_of_string str) as [|a l IH]; [reflexivity|].
  cbn [map]. pose proof (nat_ascii_bounded a).
  rewrite wellFormed_cons; [exact IH | | lia].
  unfold Shape.notSurrogate. bools. lia.
Qed.

Lemma wellFormed_cleanSql (sql : jsstring) :
  Utf8.wellFormed sql = true -> Utf8.wellFormed (cleanSql sql) = true.
Proof.
  intros H. rewrite cleanSql_spec.
  destruct (trim_spec sql) as (lead & trail & E & Hl & Ht & _).
  assert (Htrim : Utf8.wellFormed (trim sql) = true).
  { rewrite E in H.
    apply wellFormed_app_r in H; [|now apply whiteSpace_notSurrogate].
    apply wellFormed_app_l in H; [exact H | now apply whiteSpace_notSurrogate]. }
  unfold Spec.stripOneSemicolon.
  destruct (rev (trim sql)) as [|c r] eqn:Er; [exact Htrim|].
  destruct (Z.eqb_spec c 59) as [->|]; [|exact Htrim].
  assert (Et : trim sql = rev r ++ [59])
    by (rewrite <- (rev_involutive (trim sql)), Er; reflexivity).
  rewrite Et in Htrim. now apply wellFormed_app_l in Htrim.
Qed.

Lemma wellFormed_wrappedSql (sql : jsstring) (rowLimit : number) :
  Utf8.wellFormed sql = true ->
  Utf8.wellFormed (wrappedSql sql rowLimit) = true.
Proof.
  intros H. unfold wrappedSql.
  repeat apply wellFormed_app; try apply wellFormed_js.
  - now apply wellFormed_cleanSql.
  - destruct rowLimit; apply wellFormed_js.
Qed.

End WellFormed.

(** X10. A statement whose wrapped form has at most 221175 UTF-8 bytes is
    sent whole: its chunks, put together in slot order and decoded, give
    the wrapped statement back. *)
Theorem chunks_decode (sql : jsstring) (rowLimit : number) :
  Utf8.wellFormed sql = true ->
  Z.of_nat (List.length (Utf8.textEncode (wrappedSql sql rowLimit))) <= 221175 ->
  exists b64 : jsstring,
    prepareSqlParameters sql rowLimit
    = Ok (List.concat (map renderChunk (Spec.chunks b64)))
    /\ List.concat (map snd (Spec.chunks b64)) = b64
    /\ decodeBase64 (List.concat (map snd (Spec.chunks b64)))
       = wrappedSql sql rowLimit.
Proof.
  intros Hwf Hlen.
  pose proof (wellFormed_wrappedSql sql rowLimit Hwf) as Hw.
  destruct (decode_encode _ Hw) as (b64 & E & D).
  pose proof (wellFormed_isString _ Hwf) as Hs.
  rewrite (encodeBase64_total _ (isString_wrappedSql sql rowLimit Hs)) in E.
  injection E as E.
  exists b64. split; [rewrite <- E; now apply prepareSqlParameters_chunks|].
  assert (Hall : List.concat (map snd (Spec.chunks b64)) = b64).
  { unfold Spec.chunks. rewrite chunk_texts.
    apply firstn_all2.
    pose proof (length_encodeBytes (Utf8.textEncode (wrappedSql sql rowLimit))) as L.
    rewrite E in L. unfold JS.length in *.
    set (K := Z.to_nat (Spec.chunkCount (Z.of_nat (List.length b64)))).
    assert (HK : Z.of_nat K = Z.min ((Z.of_nat (List.length b64) + 32766) / 32767) 9).
    { subst K. unfold Spec.chunkCount. rewrite Z2Nat.id; [reflexivity|].
      apply Z.min_glb; [apply Z.div_pos|]; lia. }
    apply Nat2Z.inj_le. rewrite Nat2Z.inj_mul, HK, Z2Nat.id by lia.
    arith. }
  split; [exact Hall|]. rewrite Hall, D. reflexivity.
Qed.

Lemma chunks_decode_witness :
  exists b64 : jsstring,
    prepareSqlParameters (js "SELECT 'caf" ++ [233] ++ js "' FROM dual;") (Num 100)
    = Ok (List.concat (map renderChunk (Spec.chunks b64)))
    /\ decodeBase64 (List.concat (map snd (Spec.chunks b64)))
       = js "SELECT * FROM (SELECT 'caf" ++ [233]
         ++ js "' FROM dual) WHERE rownum <= 100".
Proof.
  destruct (chunks_decode (js "SELECT 'caf" ++ [233] ++ js "' FROM dual;")
              (Num 100) eq_refl) as (b64 & P & _ & D).
  - vm_compute. discriminate.
  - exists b64. split; [exact P|]. rewrite D. reflexivity.
Defined.


(* ================================================================== *)
(** ** The answer of the SQL assistant *)
(* ================================================================== *)

Section AnswerFacts.

Lemma trimStart_blank (lead rest : jsstring) :
  forallb isWhiteSpace lead = true -> trimStart (lead ++ rest) = trimStart rest.
Proof.
  induction lead as [|c lead IH]; [reflexivity|].
  cbn [forallb app trimStart]. intros H. apply andb_true_iff in H as [-> H].
  auto.
Qed.

(** White space around a core that neither begins nor ends with white
    space is what [trim] removes. *)
Lemma trim_core (lead core trail : jsstring) :
  forallb isWhiteSpace lead = true ->
  forallb isWhiteSpace trail = true ->
  match core with c :: _ => isWhiteSpace c = false | [] => True end ->
  match rev core with c :: _ => isWhiteSpace c = false | [] => True end ->
  trim (lead ++ core ++ trail) = core.
Proof.
  intros Hl Ht Hh Hr. unfold trim, trimEnd.
  rewrite trimStart_blank by exact Hl.
  destruct core as [|c core].
  - cbn [app]. rewrite <- (app_nil_r trail), trimStart_blank by exact Ht.
    reflexivity.
  - rewrite (trimStart_fixed ((c :: core) ++ trail)) by exact Hh.
    rewrite rev_app_distr, trimStart_blank.
    + rewrite (trimStart_fixed (rev (c :: core))) by exact Hr.
      apply rev_involutive.
    + apply forallb_forall. intros x Hx. apply in_rev in Hx.
      now apply (proj1 (forallb_forall _ _) Ht).
Qed.

Lemma endsWith_app (s t : jsstring) : endsWith (s ++ t) t = true.
Proof.
  rewrite endsWith_rev, rev_app_distr. apply startsWith_app.
Qed.

End AnswerFacts.

(** X11. An answer given as a fenced block, the opening fence tagged [sql],
    comes back as the statement inside the fences, without the white
    space around it. *)
Theorem cleanAnswer_fenced (lead gap1 body gap2 trail : jsstring) :
  forallb isWhiteSpace lead = true ->
  forallb isWhiteSpace gap1 = true ->
  forallb isWhiteSpace gap2 = true ->
  forallb isWhiteSpace trail = true ->
  match body with c :: _ => isWhiteSpace c = false | [] => True end ->
  match rev body with c :: _ => isWhiteSpace c = false | [] => True end ->
  Gemini.cleanAnswer
    (lead ++ js "```sql" ++ gap1 ++ body ++ gap2 ++ js "```" ++ trail)
  = body.
Proof.
  intros Hl H1 H2 Ht Hh Hr. unfold Gemini.cleanAnswer.
  replace (lead ++ js "```sql" ++ gap1 ++ body ++ gap2 ++ js "```" ++ trail)
    with (lead ++ (js "```sql" ++ gap1 ++ body ++ gap2 ++ js "```") ++ trail)
    by (now rewrite <- !app_assoc).
  rewrite trim_core; try assumption; try reflexivity.
  - rewrite startsWith_app.
    change (skipn 6 (js "```sql" ++ gap1 ++ body ++ gap2 ++ js "```"))
      with (gap1 ++ body ++ gap2 ++ js "```").
    replace (gap1 ++ body ++ gap2 ++ js "```")
      with ((gap1 ++ body ++ gap2) ++ js "```") by (now rewrite <- !app_assoc).
    rewrite endsWith_app, length_app.
    replace (List.length (gap1 ++ body ++ gap2) + List.length (js "```") - 3)%nat
      with (List.length (gap1 ++ body ++ gap2) + 0)%nat by (cbn; lia).
    rewrite firstn_app_2. cbn [firstn]. rewrite app_nil_r.
    now apply trim_core.
  - rewrite !app_assoc, rev_app_distr. reflexivity.
Qed.

Lemma cleanAnswer_fenced_witness :
  Gemini.cleanAnswer (js "```sql
SELECT 1 FROM dual
```
") = js "SELECT 1 FROM dual".
Proof.
  apply (cleanAnswer_fenced [] [10] (js "SELECT 1 FROM dual") [10] [10]);
    reflexivity.
Defined.

(* ================================================================== *)
(** ** The connection list of the settings dialog *)
(* ================================================================== *)

Section SettingsFacts.

Lemma findIndex_Some {A} (p : A -> bool) (l : list A) (n : nat) :
  Settings.findIndex p l = Some n ->
  exists pre x post,
    l = pre ++ x :: post /\ List.length pre = n /\ p x = true
    /\ forallb (fun y => negb (p y)) pre = true.
Proof.
  revert n; induction l as [|y l IH]; intros n; cbn [Settings.findIndex];
    [discriminate|].
  destruct (p y) eqn:Ey.
  - intros [= <-]. exists [], y, l. auto.
  - destruct (Settings.findIndex p l) as [m|]; [|discriminate].
    intros [= <-]. destruct (IH m eq_refl) as (pre & x & post & -> & Hl & Hx & Hp).
    exists (y :: pre), x, post. cbn [List.length forallb]. rewrite Ey, Hp.
    repeat split; auto.
Qed.

Lemma findIndex_None {A} (p : A -> bool) (l : list A) :
  Settings.findIndex p l = None -> forallb (fun y => negb (p y)) l = true.
Proof.
  induction l as [|y l IH]; cbn [Settings.findIndex forallb]; [reflexivity|].
  destruct (p y) eqn:Ey; [discriminate|].
  destruct (Settings.findIndex p l); [discriminate|]. intros _. now rewrite IH.
Qed.

Lemma find_app_none {A} (p : A -> bool) (pre post : list A) :
  forallb (fun y => negb (p y)) pre = true -> find p (pre ++ post) = find p post.
Proof.
  induction pre as [|y pre IH]; [reflexivity|].
  cbn [forallb app find]. intros H. apply andb_true_iff in H as [Hy H].
  apply negb_true_iff in Hy. rewrite Hy. auto.
Qed.

End SettingsFacts.


Lemma find_swap {A} (p : A -> bool) (pre post : list A) (x y : A) :
  p x = false -> p y = false ->
  find p (pre ++ x :: post) = find p (pre ++ y :: post).
Proof.
  intros Hx Hy. induction pre as [|z pre IH]; cbn [app find].
  - now rewrite Hx, Hy.
  - now rewrite IH.
Qed.

Lemma find_snoc {A} (p : A -> bool) (l : list A) (x : A) :
  p x = false -> find p (l ++ [x]) = find p l.
Proof.
  intros Hx. induction l as [|z l IH]; cbn [app find].
  - now rewrite Hx.
  - now rewrite IH.
Qed.

(** X12. Saving the edited connection is an insertion keyed by id: looking
    its id up gives the edited connection, every other id is looked up
    as before, and ids that were distinct stay distinct. *)
Theorem saveCurrent_lookup (connections : list ConnectionConfig)
    (editConfig : ConnectionConfig) :
  Settings.findById (Settings.saveCurrent connections editConfig) (id editConfig)
  = Some editConfig
  /\ (forall i, i <> id editConfig ->
        Settings.findById (Settings.saveCurrent connections editConfig) i
        = Settings.findById connections i)
  /\ (NoDup (map id connections) ->
      NoDup (map id (Settings.saveCurrent connections editConfig))).
Proof.
  unfold Settings.saveCurrent, Settings.findById.
  destruct (Settings.findIndex _ connections) as [n|] eqn:E.
  - apply findIndex_Some in E as (pre & x & post & -> & Hl & Hx & Hp).
    apply eqb_eq in Hx.
    assert (E1 : firstn n (pre ++ x :: post) = pre)
      by (rewrite <- Hl, firstn_app, firstn_all, Nat.sub_diag; cbn;
          apply app_nil_r).
    assert (E2 : skipn (S n) (pre ++ x :: post) = post).
    { rewrite <- Hl. replace (S (List.length pre)) with (List.length pre + 1)%nat by lia.
      now rewrite skipn_app_length. }
    rewrite E1, E2. split; [|split].
    + rewrite find_app_none by exact Hp. cbn [find]. now rewrite eqb_refl.
    + intros i Hi.
      assert (Hne : JS.eqb (id editConfig) i = false)
        by (apply eqb_neq; congruence).
      assert (Hnx : JS.eqb (id x) i = false) by (now rewrite Hx).
      now apply find_swap.
    + rewrite !map_app. cbn [map]. now rewrite Hx.
  - apply findIndex_None in E. split; [|split].
    + rewrite find_app_none by exact E. cbn [find]. now rewrite eqb_refl.
    + intros i Hi.
      assert (Hne : JS.eqb (id editConfig) i = false)
        by (apply eqb_neq; congruence).
      now apply find_snoc.
    + intros Hnd. rewrite map_app. cbn [map].
      apply NoDup_app; [exact Hnd | constructor; [intros [] | constructor] |].
      intros a Ha [<-|[]]. apply in_map_iff in Ha as (c & Hc & Hin).
      apply (proj1 (forallb_forall _ _) E) in Hin.
      apply negb_true_iff, eqb_neq in Hin. congruence.
Qed.

(** X13. Deleting the edited connection removes its id from the list and
    leaves the lookup of every other id as it was. *)
Theorem deleteCurrent_lookup (connections : list ConnectionConfig)
    (editConfig : ConnectionConfig) :
  Settings.findById (Settings.deleteCurrent connections editConfig) (id editConfig)
  = None
  /\ forall i, i <> id editConfig ->
       Settings.findById (Settings.deleteCurrent connections editConfig) i
       = Settings.findById connections i.
Proof.
  unfold Settings.deleteCurrent, Settings.findById. split.
  - induction connections as [|c l IH]; [reflexivity|].
    cbn [filter]. destruct (JS.eqb (id c) (id editConfig)) eqn:E; cbn [negb find];
      [exact IH | now rewrite E].
  - intros i Hi. induction connections as [|c l IH]; [reflexivity|].
    cbn [filter find].
    destruct (JS.eqb (id c) (id editConfig)) eqn:E; cbn [negb find].
    + apply eqb_eq in E.
      assert (Hne : JS.eqb (id c) i = false) by (apply eqb_neq; congruence).
      now rewrite Hne.
    + destruct (JS.eqb (id c) i); [reflexivity | exact IH].
Qed.


(* ================================================================== *)
(** ** The tabs of the application *)
(* ================================================================== *)

Section TabFacts.

Lemma ids_update (u : Tabs.updates) (active : jsstring) (l : list Tabs.SqlTab) :
  Tabs.u_id u = None ->
  map Tabs.id (map (fun t => if JS.eqb (Tabs.id t) active
                             then Tabs.merge t u else t) l)
  = map Tabs.id l.
Proof.
  intros Hu. rewrite map_map. apply map_ext. intros t.
  destruct (JS.eqb (Tabs.id t) active); [|reflexivity].
  unfold Tabs.merge. cbn [Tabs.id]. now rewrite Hu.
Qed.

Lemma ids_filter (i : jsstring) (l : list Tabs.SqlTab) :
  map Tabs.id (filter (fun t => negb (JS.eqb (Tabs.id t) i)) l)
  = filter (fun k => negb (JS.eqb k i)) (map Tabs.id l).
Proof.
  induction l as [|t l IH]; [reflexivity|].
  cbn [filter map]. destruct (JS.eqb (Tabs.id t) i); cbn [negb map];
    now rewrite IH.
Qed.

Lemma last_In {A} (l : list A) (x : A) (r : list A) :
  rev l = x :: r -> In x l.
Proof. intros H. apply in_rev. rewrite H. now left. Qed.

End TabFacts.

(** X14. The tab handlers keep the tab bar in order: from a state with at
    least one tab, distinct tab ids and an active id that is the id of a
    tab, opening a tab under a fresh id, closing any tab, selecting a
    tab and updating the active tab lead to such a state again; closing
    never throws there and never removes the only tab.  The initial
    state is such a state. *)
Theorem tabs_invariant (s : Tabs.state) :
  Tabs.invariant s ->
  (forall newId, ~ In newId (map Tabs.id (Tabs.tabs s)) ->
     Tabs.invariant (Tabs.handleNewTab newId s))
  /\ (forall i, exists s',
        Tabs.handleCloseTab i s = (s', None) /\ Tabs.invariant s'
        /\ (List.length (Tabs.tabs s) = 1%nat -> s' = s))
  /\ (forall i, In i (map Tabs.id (Tabs.tabs s)) ->
        Tabs.invariant (Tabs.selectTab i s))
  /\ (forall u, Tabs.u_id u = None ->
        Tabs.invariant (Tabs.updateActiveTab u s))
  /\ Tabs.invariant Tabs.initial.
Proof.
  intros (Hne & Hnd & Hact). split; [|split; [|split; [|split]]].
  - intros newId Hfresh. unfold Tabs.invariant, Tabs.handleNewTab.
    cbn [Tabs.tabs Tabs.activeTabId]. rewrite map_app. cbn [map Tabs.id].
    split; [|split].
    + destruct (Tabs.tabs s); discriminate.
    + apply NoDup_app; [exact Hnd | constructor; [intros [] | constructor] |].
      intros a Ha [<-|[]]. contradiction.
    + apply in_or_app. right. now left.
  - intros i. unfold Tabs.handleCloseTab.
    destruct (List.length (Tabs.tabs s) =? 1)%nat eqn:E1.
    { exists s. repeat split; auto. }
    apply Nat.eqb_neq in E1.
    set (newTabs := filter (fun t => negb (JS.eqb (Tabs.id t) i)) (Tabs.tabs s)).
    assert (Hids : map Tabs.id newTabs
                   = filter (fun k => negb (JS.eqb k i)) (map Tabs.id (Tabs.tabs s)))
      by apply ids_filter.
    assert (Hnd' : NoDup (map Tabs.id newTabs))
      by (rewrite Hids; now apply NoDup_filter).
    assert (Hne' : newTabs <> []).
    { (* two tabs with distinct ids: one of them is not [i] *)
      destruct (Tabs.tabs s) as [|a [|b l]] eqn:Et; [contradiction | cbn in E1; lia |].
      cbn [map] in Hnd. inversion Hnd as [|? ? Hab _]; subst.
      subst newTabs. cbn [filter].
      destruct (JS.eqb (Tabs.id a) i) eqn:Ea; cbn [negb]; [|discriminate].
      destruct (JS.eqb (Tabs.id b) i) eqn:Eb; cbn [negb]; [|discriminate].
      apply eqb_eq in Ea, Eb. exfalso. apply Hab. left. congruence. }
    destruct (JS.eqb i (Tabs.activeTabId s)) eqn:Ei.
    + destruct (rev newTabs) as [|t r] eqn:Er.
      { exfalso. apply Hne'. rewrite <- (rev_involutive newTabs), Er. reflexivity. }
      eexists. split; [reflexivity|]. split; [|intros; lia].
      unfold Tabs.invariant. cbn [Tabs.tabs Tabs.activeTabId].
      split; [exact Hne'|]. split; [exact Hnd'|].
      apply in_map. now apply (last_In _ _ r).
    + eexists. split; [reflexivity|]. split; [|intros; lia].
      unfold Tabs.invariant. cbn [Tabs.tabs Tabs.activeTabId].
      split; [exact Hne'|]. split; [exact Hnd'|].
      rewrite Hids. apply filter_In. split; [exact Hact|].
      apply negb_true_iff. rewrite eqb_sym. exact Ei.
  - intros i Hi. unfold Tabs.invariant, Tabs.selectTab.
    cbn [Tabs.tabs Tabs.activeTabId]. auto.
  - intros u Hu. unfold Tabs.invariant, Tabs.updateActiveTab.
    cbn [Tabs.tabs Tabs.activeTabId]. rewrite ids_update by exact Hu.
    split; [|auto]. destruct (Tabs.tabs s); [contradiction | discriminate].
  - unfold Tabs.invariant, Tabs.initial. cbn [Tabs.tabs Tabs.activeTabId map Tabs.id].
    split; [discriminate|]. split; [|now left].
    constructor; [intros [] | constructor].
Qed.


Section RunFacts.

Variable parseFromString : jsstring -> document.
Variable fetch : jsstring -> jsstring -> fetchResult.
Variable elapsedMs : Z.

(** The execution of a query always comes to a result or to an
    exception. *)
Lemma executeSoapQuery_answers (query : jsstring) (config : ConnectionConfig)
    (rowLimit : number) :
  isString query = true ->
  executeSoapQuery parseFromString fetch elapsedMs query config rowLimit
  <> OutOfFuel.
Proof.
  intros Hs. unfold executeSoapQuery.
  rewrite prepareSqlParameters_chunks by exact Hs. cbn [bind].
  destruct (fetch _ _) as [e|status text].
  - destruct (_ && _); discriminate.
  - unfold handleResponse. destruct (negb (ok status)); [discriminate|].
    unfold decodeResponse.
    destruct (orElse _ _); [discriminate|].
    destruct (orElse _ _) as [n|]; [|discriminate].
    destruct (textContent n); [discriminate|].
    unfold parseOracleXML. destruct (_ <? _)%nat; discriminate.
Qed.

Lemma find_map_same {A} (p : A -> bool) (f : A -> A) (l : list A) :
  (forall t, p (f t) = p t) ->
  find p (map f l) = option_map f (find p l).
Proof.
  intros H. induction l as [|t l IH]; [reflexivity|].
  cbn [map find]. rewrite H. destruct (p t); [reflexivity | exact IH].
Qed.

Lemma find_In_id (active : jsstring) (l : list Tabs.SqlTab) :
  In active (map Tabs.id l) ->
  exists t, find (fun t => JS.eqb (Tabs.id t) active) l = Some t
            /\ Tabs.id t = active.
Proof.
  induction l as [|t l IH]; [contradiction|].
  cbn [map In find]. destruct (JS.eqb (Tabs.id t) active) eqn:E.
  - intros _. exists t. split; [reflexivity | now apply eqb_eq].
  - intros [H|H]; [apply eqb_neq in E; contradiction | auto].
Qed.

Lemma activeTab_update (u : Tabs.updates) (s : Tabs.state) (tab : Tabs.SqlTab) :
  Tabs.u_id u = None ->
  find (fun t => JS.eqb (Tabs.id t) (Tabs.activeTabId s)) (Tabs.tabs s) = Some tab ->
  find (fun t => JS.eqb (Tabs.id t)
                         (Tabs.activeTabId (Tabs.updateActiveTab u s)))
       (Tabs.tabs (Tabs.updateActiveTab u s))
  = Some (Tabs.merge tab u).
Proof.
  intros Hu Hf. unfold Tabs.updateActiveTab. cbn [Tabs.tabs Tabs.activeTabId].
  rewrite find_map_same.
  - rewrite Hf. cbn [option_map]. apply find_some in Hf as [_ Hf].
    now rewrite Hf.
  - intros t. destruct (JS.eqb (Tabs.id t) (Tabs.activeTabId s)) eqn:E;
      [|exact E].
    unfold Tabs.merge. cbn [Tabs.id]. rewrite Hu. exact E.
Qed.

Lemma others_update (u : Tabs.updates) (s : Tabs.state) (t : Tabs.SqlTab) :
  In t (Tabs.tabs s) -> Tabs.id t <> Tabs.activeTabId s ->
  In t (Tabs.tabs (Tabs.updateActiveTab u s)).
Proof.
  intros Hin Hne. unfold Tabs.updateActiveTab. cbn [Tabs.tabs].
  apply in_map_iff. exists t. split; [|exact Hin].
  apply eqb_neq in Hne. now rewrite Hne.
Qed.

(** X15. Running the query of the active tab, with a user name configured:
    afterwards the tab is not loading any more and holds either the
    result and no error, or an error message that is not empty and no
    result; the other tabs are as before.  Without a user name nothing
    is run: the settings are opened and the tabs stay as they are. *)
Theorem handleRun_outcome (config : ConnectionConfig) (tab : Tabs.SqlTab)
    (s : Tabs.state) :
  In (Tabs.activeTabId s) (map Tabs.id (Tabs.tabs s)) ->
  Tabs.activeTab s = Some tab ->
  isString (Tabs.query tab) = true ->
  let run := executeSoapQuery parseFromString fetch elapsedMs in
  let s' := Tabs.handleRun run config tab s in
  match username config with
  | [] => s' = Tabs.mkState (Tabs.tabs s) (Tabs.activeTabId s) true
  | _ =>
      exists tab',
        Tabs.activeTab s' = Some tab'
        /\ Tabs.activeTabId s' = Tabs.activeTabId s
        /\ Tabs.id tab' = Tabs.id tab
        /\ Tabs.query tab' = Tabs.query tab
        /\ Tabs.isLoading tab' = false
        /\ match run (Tabs.query tab) config (Tabs.rowLimit tab) with
           | Ok data => Tabs.result tab' = Some data /\ Tabs.error tab' = None
           | Throw err =>
               Tabs.result tab' = None
               /\ Tabs.error tab' = Some (Tabs.errorMessage err)
               /\ Tabs.errorMessage err <> []
           | OutOfFuel => False
           end
        /\ forall t, In t (Tabs.tabs s) -> Tabs.id t <> Tabs.activeTabId s ->
                     In t (Tabs.tabs s')
  end.
Proof.
  intros Hact Htab Hs run s'.
  destruct (username config) as [|c name] eqn:Eu.
  { subst s'. unfold Tabs.handleRun. now rewrite Eu. }
  destruct (find_In_id _ _ Hact) as (t0 & Hf & Hid).
  assert (t0 = tab) by (unfold Tabs.activeTab in Htab; rewrite Hf in Htab;
                        congruence).
  subst t0.
  pose proof (executeSoapQuery_answers (Tabs.query tab) config
                (Tabs.rowLimit tab) Hs) as Hans. fold run in Hans.
  set (u1 := Tabs.mkUpdates None None None None None (Some None) (Some true) None).
  pose proof (activeTab_update u1 s tab eq_refl Hf) as H1.
  subst s'. unfold Tabs.handleRun. rewrite Eu. fold u1.
  destruct (run (Tabs.query tab) config (Tabs.rowLimit tab)) as [data|err|] eqn:Er;
    [| |contradiction].
  - match goal with |- context [Tabs.updateActiveTab ?u (Tabs.updateActiveTab u1 s)] =>
      set (u2 := u) end.
    pose proof (activeTab_update u2 (Tabs.updateActiveTab u1 s) _ eq_refl H1) as H2.
    exists (Tabs.merge (Tabs.merge tab u1) u2).
    split; [unfold Tabs.activeTab; now rewrite H2|].
    repeat split; try reflexivity.
    intros t Hin Hne. apply others_update; [now apply others_update | exact Hne].
  - match goal with |- context [Tabs.updateActiveTab ?u (Tabs.updateActiveTab u1 s)] =>
      set (u2 := u) end.
    pose proof (activeTab_update u2 (Tabs.updateActiveTab u1 s) _ eq_refl H1) as H2.
    exists (Tabs.merge (Tabs.merge tab u1) u2).
    split; [unfold Tabs.activeTab; now rewrite H2|].
    repeat split; try reflexivity.
    + unfold Tabs.errorMessage. destruct (exnMessage err); discriminate.
    + intros t Hin Hne. apply others_update; [now apply others_update | exact Hne].
Qed.

End RunFacts.

(** The handlers at the initial state and at two tabs: a second tab
    is opened under a fresh id, and closing the first of two tabs leaves
    the second one active. *)
Lemma tabs_invariant_witness :
  Tabs.invariant Example.twoTabs
  /\ Tabs.invariant (Tabs.handleNewTab (js "tab-3") Example.twoTabs)
  /\ exists s', Tabs.handleCloseTab (js "tab-1") Example.twoTabs = (s', None)
                /\ Tabs.invariant s'
                /\ Tabs.activeTabId s' = js "tab-2".
Proof.
  assert (I : Tabs.invariant Example.twoTabs).
  { split; [discriminate|]. split; [|now left].
    cbn. repeat constructor; cbn; intuition discriminate. }
  split; [exact I|].
  destruct (tabs_invariant Example.twoTabs I) as (Hnew & Hclose & _).
  split.
  - apply Hnew. cbn. intuition discriminate.
  - destruct (Hclose (js "tab-1")) as (s' & E & Hinv & _).
    exists s'. split; [exact E|]. split; [exact Hinv|].
    vm_compute in E. injection E as <-. reflexivity.
Defined.

(** Running the query of the first of two tabs against the sample
    exchange: the tab gets the two columns, the second tab is kept. *)
Lemma handleRun_outcome_witness :
  In (Tabs.activeTabId Example.twoTabs) (map Tabs.id (Tabs.tabs Example.twoTabs))
  /\ Tabs.activeTab Example.twoTabs = Some Example.firstTab
  /\ isString (Tabs.query Example.firstTab) = true
  /\ exists tab',
       Tabs.activeTab
         (Tabs.handleRun
            (executeSoapQuery Example.parser
               (Example.respond 200 Example.response) 12)
            Sample.connection Example.firstTab Example.twoTabs)
       = Some tab'
       /\ Tabs.isLoading tab' = false
       /\ Tabs.error tab' = None
       /\ option_map columns (Tabs.result tab') = Some [js "A"; js "B"]
       /\ In Example.secondTab
            (Tabs.tabs
               (Tabs.handleRun
                  (executeSoapQuery Example.parser
                     (Example.respond 200 Example.response) 12)
                  Sample.connection Example.firstTab Example.twoTabs)).
Proof.
  assert (H1 : In (Tabs.activeTabId Example.twoTabs)
                  (map Tabs.id (Tabs.tabs Example.twoTabs))) by (now left).
  split; [exact H1|]. split; [reflexivity|]. split; [reflexivity|].
  destruct (handleRun_outcome Example.parser
              (Example.respond 200 Example.response) 12
              Sample.connection Example.firstTab Example.twoTabs
              H1 eq_refl eq_refl)
    as (tab' & Ha & _ & _ & _ & Hl & Hr & Hothers).
  exists tab'. split; [exact Ha|]. split; [exact Hl|].
  lazymatch type of Hr with
  | match ?x with _ => _ end =>
      let v := eval vm_compute in x in change x with v in Hr
  end.
  destruct Hr as [Hr He].
  split; [exact He|]. split; [now rewrite Hr|].
  apply Hothers; [right; now left | discriminate].
Defined.

(* ================================================================== *)
(** ** Facts about [parseInt] and the text of a number *)
(* ================================================================== *)

Section NumberFacts.

Lemma parseDigits_stop (acc : option Z) (rest : jsstring) :
  Shape.stopsNumber rest = true -> parseDigits 10 acc rest = acc.
Proof.
  destruct rest as [|c rest]; [reflexivity|].
  cbn [Shape.stopsNumber parseDigits]. unfold digitValue. intros H.
  destruct ((48 <=? c) && (c <=? 57)) eqn:D; [discriminate|].
  destruct ((97 <=? c) && (c <=? 122)) eqn:L.
  - replace (c - 87 <? 10) with false by (bools; lia). reflexivity.
  - destruct ((65 <=? c) && (c <=? 90)) eqn:U.
    + replace (c - 55 <? 10) with false by (bools; lia). reflexivity.
    + reflexivity.
Qed.

Lemma digits_acc (d : Decimal.uint) (rest : jsstring) :
  Shape.stopsNumber rest = true ->
  forall a : positive,
    parseDigits 10 (Some (Z.pos a)) (js (NilEmpty.string_of_uint d) ++ rest)
    = Some (Z.pos (Pos.of_uint_acc d a)).
Proof.
  intros R. induction d; intros a;
    cbn [NilEmpty.string_of_uint Pos.of_uint_acc];
    try (rewrite <- IHd;
         change (js (String ?c ?s)) with (Z.of_nat (nat_of_ascii c) :: js s);
         cbn [app parseDigits];
         match goal with
         | |- context [digitValue 10 ?x] =>
             let v := eval vm_compute in (digitValue 10 x) in
             change (digitValue 10 x) with v
         end;
         cbv beta iota; do 2 f_equal; lia).
  cbn [js list_ascii_of_string map app]. apply parseDigits_stop, R.
Qed.

Lemma digits_zero (d : Decimal.uint) (rest : jsstring) :
  Shape.stopsNumber rest = true ->
  parseDigits 10 (Some 0) (js (NilEmpty.string_of_uint d) ++ rest)
  = Some (Z.of_N (Pos.of_uint d)).
Proof.
  intros R. induction d;
    cbn [NilEmpty.string_of_uint Pos.of_uint];
    try (change (js (String ?c ?s)) with (Z.of_nat (nat_of_ascii c) :: js s);
         cbn [app parseDigits];
         match goal with
         | |- context [digitValue 10 ?x] =>
             let v := eval vm_compute in (digitValue 10 x) in
             change (digitValue 10 x) with v
         end;
         cbv beta iota; change (0 * 10 + ?k) with k).
  - cbn [js list_ascii_of_string map app]. apply parseDigits_stop, R.
  - exact IHd.
  - apply (digits_acc d rest R 1).
  - apply (digits_acc d rest R 2).
  - apply (digits_acc d rest R 3).
  - apply (digits_acc d rest R 4).
  - apply (digits_acc d rest R 5).
  - apply (digits_acc d rest R 6).
  - apply (digits_acc d rest R 7).
  - apply (digits_acc d rest R 8).
  - apply (digits_acc d rest R 9).
Qed.

Ltac digit_step :=
  change (js (String ?c ?s)) with (Z.of_nat (nat_of_ascii c) :: js s);
  cbn [app parseDigits];
  match goal with
  | |- context [digitValue 10 ?x] =>
      let v := eval vm_compute in (digitValue 10 x) in
      change (digitValue 10 x) with v
  end;
  cbv beta iota.

Lemma digits_none (d : Decimal.uint) (rest : jsstring) :
  d <> Decimal.Nil -> Shape.stopsNumber rest = true ->
  parseDigits 10 None (js (NilEmpty.string_of_uint d) ++ rest)
  = Some (Z.of_N (Pos.of_uint d)).
Proof.
  intros N R. destruct d; [congruence| ..];
    cbn [NilEmpty.string_of_uint Pos.of_uint]; digit_step.
  - apply digits_zero, R.
  - apply (digits_acc d rest R 1).
  - apply (digits_acc d rest R 2).
  - apply (digits_acc d rest R 3).
  - apply (digits_acc d rest R 4).
  - apply (digits_acc d rest R 5).
  - apply (digits_acc d rest R 6).
  - apply (digits_acc d rest R 7).
  - apply (digits_acc d rest R 8).
  - apply (digits_acc d rest R 9).
Qed.

(** The text of a digit sequence starts with a digit. *)
Lemma digits_head (d : Decimal.uint) (rest : jsstring) :
  d <> Decimal.Nil ->
  exists c, js (NilEmpty.string_of_uint d) ++ rest
            = c :: js (NilEmpty.string_of_uint (DecimalPos.Unsigned.tl d)) ++ rest
            /\ 48 <= c <= 57.
Proof.
  intros N. destruct d; [congruence| ..];
    cbn [NilEmpty.string_of_uint DecimalPos.Unsigned.tl];
    change (js (String ?c ?s)) with (Z.of_nat (nat_of_ascii c) :: js s);
    eexists; (split; [reflexivity|vm_compute; split; discriminate]).
Qed.

(** After a digit sequence and a text that stops a number there is
    never an [x]. *)
Lemma digits_no_x (d : Decimal.uint) (rest : jsstring) (x : Z) :
  Shape.stopsNumber rest = true -> x = 120 \/ x = 88 ->
  startsWith (js (NilEmpty.string_of_uint d) ++ rest) [x] = false.
Proof.
  intros R X.
  destruct d;
    [cbn [NilEmpty.string_of_uint js list_ascii_of_string map app];
     destruct rest as [|c rest]; [reflexivity|];
     cbn [Shape.stopsNumber] in R; cbn [startsWith]; bools; lia| ..].
  all: cbn [NilEmpty.string_of_uint];
    change (js (String ?c ?s)) with (Z.of_nat (nat_of_ascii c) :: js s);
    cbn [app startsWith]; destruct X as [-> | ->]; reflexivity.
Qed.

Lemma startsWith_two (s : jsstring) (a b : Z) :
  startsWith s [a; b]
  = startsWith s [a] && startsWith (skipn 1 s) [b].
Proof.
  destruct s as [|c s]; [reflexivity|]. cbn [startsWith skipn].
  now rewrite andb_true_r.
Qed.

(** [parseInt] on a digit sequence, with or without a minus sign
    before it. *)
Lemma parseInt_digits (d : Decimal.uint) (rest : jsstring) :
  d <> Decimal.Nil -> Shape.stopsNumber rest = true ->
  parseInt (js (NilEmpty.string_of_uint d) ++ rest) = Num (Z.of_N (Pos.of_uint d))
  /\ parseInt (45 :: js (NilEmpty.string_of_uint d) ++ rest)
     = Num (- Z.of_N (Pos.of_uint d)).
Proof.
  intros N R.
  pose proof (digits_none d rest N R) as D.
  destruct (digits_head d rest N) as (c & E & C).
  pose proof (digits_no_x (DecimalPos.Unsigned.tl d) rest 120 R (or_introl eq_refl)) as X1.
  pose proof (digits_no_x (DecimalPos.Unsigned.tl d) rest 88 R (or_intror eq_refl)) as X2.
  rewrite E in *.
  set (t := js (NilEmpty.string_of_uint (DecimalPos.Unsigned.tl d)) ++ rest) in *.
  clearbody t.
  assert (W : isWhiteSpace c = false) by (unfold isWhiteSpace; bools; lia).
  assert (H45 : (c =? 45) = false) by (bools; lia).
  assert (H43 : (c =? 43) = false) by (bools; lia).
  assert (S45 : startsWith (c :: t) [45] = false)
    by (cbn [startsWith]; now rewrite H45).
  assert (S43 : startsWith (c :: t) [43] = false)
    by (cbn [startsWith]; now rewrite H43).
  assert (Sx : startsWith (c :: t) [48; 120] = false)
    by (rewrite startsWith_two; cbn [skipn]; rewrite X1; apply andb_false_r).
  assert (SX : startsWith (c :: t) [48; 88] = false)
    by (rewrite startsWith_two; cbn [skipn]; rewrite X2; apply andb_false_r).
  split; unfold parseInt; cbn [trimStart].
  - rewrite W. cbv zeta. rewrite S45, S43. cbn [orb]. rewrite Sx, SX.
    cbn [orb]. rewrite D. f_equal; try lia.
  - change (isWhiteSpace 45) with false. cbv iota zeta.
    change (startsWith (45 :: c :: t) [45]) with true.
    change (startsWith (45 :: c :: t) [43]) with false.
    cbn [orb skipn]. rewrite Sx, SX.
    cbn [orb]. rewrite D. f_equal; try lia.
Qed.

(** [parseInt] reads back the text of a number, whatever follows it. *)
Lemma parseInt_numberToString (z : Z) (rest : jsstring) :
  Shape.stopsNumber rest = true ->
  parseInt (numberToString (Num z) ++ rest) = Num z.
Proof.
  intros R. unfold numberToString.
  destruct z as [|p|p]; cbn [Z.to_int NilZero.string_of_int].
  - change (NilZero.string_of_uint (Decimal.D0 Decimal.Nil))
      with (NilEmpty.string_of_uint (Decimal.D0 Decimal.Nil)).
    assert (N : Decimal.D0 Decimal.Nil <> Decimal.Nil) by discriminate.
    now rewrite (proj1 (parseInt_digits _ rest N R)).
  - pose proof (DecimalPos.Unsigned.to_uint_nonnil p) as N.
    replace (NilZero.string_of_uint (Pos.to_uint p))
      with (NilEmpty.string_of_uint (Pos.to_uint p))
      by (destruct (Pos.to_uint p); [congruence|reflexivity ..]).
    rewrite (proj1 (parseInt_digits _ rest N R)).
    now rewrite DecimalPos.Unsigned.of_to.
  - pose proof (DecimalPos.Unsigned.to_uint_nonnil p) as N.
    replace (NilZero.string_of_uint (Pos.to_uint p))
      with (NilEmpty.string_of_uint (Pos.to_uint p))
      by (destruct (Pos.to_uint p); [congruence|reflexivity ..]).
    change (js (String "-" ?s)) with (45 :: js s). cbn [app].
    rewrite (proj2 (parseInt_digits _ rest N R)).
    now rewrite DecimalPos.Unsigned.of_to.
Qed.

End NumberFacts.


(** X16. The row-limit input reads back the text of a number: a value that
    is the decimal text of a safe integer, followed by anything that is
    no digit and no [x], sets that integer as the row limit, except for
    zero, which the handler replaces by 100. *)
Theorem rowLimit_reads_number (z : Z) (rest : jsstring) :
  Z.abs z <= 9007199254740991 ->
  Shape.stopsNumber rest = true ->
  parseInt (numberToString (Num z) ++ rest) = Num z
  /\ App.onRowLimitChange (numberToString (Num z) ++ rest)
     = if z =? 0 then Num 100 else Num z.
Proof.
  intros _ R. unfold App.onRowLimitChange.
  rewrite (parseInt_numberToString z rest R). split; [reflexivity|].
  cbn [truthy]. destruct (z =? 0); reflexivity.
Qed.

Lemma rowLimit_reads_number_witness :
  Z.abs (-25) <= 9007199254740991
  /\ Shape.stopsNumber (js " rows") = true
  /\ parseInt (js "-25 rows") = Num (-25)
  /\ App.onRowLimitChange (js "-25 rows") = Num (-25).
Proof.
  split; [cbn; lia|]. split; [reflexivity|].
  exact (rowLimit_reads_number (-25) (js " rows") ltac:(cbn; lia) eq_refl).
Defined.

(* ================================================================== *)
(** ** Facts about the export *)
(* ================================================================== *)

Section ExportFacts.

(** A map over a list throws when one element throws, every element
    that throws throws the same, and none runs out of fuel. *)
Lemma mapM_throw {A B} (f : A -> outcome B) (e : exn) (l : list A) (x : A) :
  In x l -> f x = Throw e ->
  (forall y, In y l -> f y = Throw e \/ exists b, f y = Ok b) ->
  ExportService.mapM f l = Throw e.
Proof.
  induction l as [|y l IH]; intros Hin Hx Hall; [contradiction|].
  cbn [ExportService.mapM].
  destruct (Hall y (or_introl eq_refl)) as [Hy|(b & Hy)]; rewrite Hy; cbn [bind];
    [reflexivity|].
  destruct Hin as [->|Hin]; [congruence|].
  rewrite IH; auto. intros z Hz. apply Hall. now right.
Qed.

Lemma mapM_either {A B} (f : A -> outcome B) (e : exn) (l : list A) :
  (forall x, f x = Throw e \/ exists b, f x = Ok b) ->
  ExportService.mapM f l = Throw e \/ exists bs, ExportService.mapM f l = Ok bs.
Proof.
  intros H. induction l as [|x l IH]; [right; eexists; reflexivity|].
  cbn [ExportService.mapM]. destruct (H x) as [->|(b & ->)]; cbn [bind];
    [now left|].
  destruct IH as [->|(bs & ->)]; cbn [bind]; [now left | right; eauto].
Qed.

Lemma count_app (a b : jsstring) :
  ExportService.lineFeeds (a ++ b) = (ExportService.lineFeeds a + ExportService.lineFeeds b)%nat.
Proof. apply count_occ_app. Qed.

Lemma lineFeeds_replaceAll (s : jsstring) :
  ExportService.lineFeeds (ExportService.replaceAll 10 (js " ") s) = 0%nat.
Proof.
  unfold ExportService.replaceAll. induction s as [|c s IH]; [reflexivity|].
  cbn [flat_map]. rewrite count_app, IH.
  destruct (c =? 10) eqn:E; [reflexivity|].
  unfold ExportService.lineFeeds. cbn [count_occ].
  destruct (Z.eq_dec c 10) as [->|_]; [discriminate | reflexivity].
Qed.

Lemma lineFeeds_join (sep : jsstring) (l : list jsstring) :
  ExportService.lineFeeds sep = 0%nat ->
  (forall x, In x l -> ExportService.lineFeeds x = 0%nat) ->
  ExportService.lineFeeds (ExportService.join sep l) = 0%nat.
Proof.
  intros Hsep. induction l as [|x l IH]; intros H; [reflexivity|].
  destruct l as [|y l]; [apply H; now left|].
  change (ExportService.join sep (x :: y :: l)) with (x ++ sep ++ ExportService.join sep (y :: l)).
  rewrite !count_app, Hsep, (H x) by (now left).
  rewrite IH by (intros z Hz; apply H; now right). reflexivity.
Qed.

Lemma lineFeeds_lines (l : list jsstring) :
  l <> [] ->
  (forall x, In x l -> ExportService.lineFeeds x = 0%nat) ->
  S (ExportService.lineFeeds (ExportService.join [10] l)) = List.length l.
Proof.
  induction l as [|x l IH]; intros Hne H; [contradiction|].
  destruct l as [|y l]; [cbn [ExportService.join List.length]; f_equal; apply H; now left|].
  change (ExportService.join [10] (x :: y :: l)) with (x ++ [10] ++ ExportService.join [10] (y :: l)).
  rewrite !count_app, (H x) by (now left).
  change (ExportService.lineFeeds [10]) with 1%nat.
  cbn [Nat.add]. rewrite IH; [reflexivity | discriminate |].
  intros z Hz. apply H. now right.
Qed.

Lemma mdCell_plain (row : jsobject) (col : jsstring) :
  ExportService.inherited col = false ->
  exists cell, ExportService.mdCell row col = Ok cell /\ ExportService.lineFeeds cell = 0%nat.
Proof.
  intros H. unfold ExportService.mdCell, ExportService.get. fold (ExportService.inherited col).
  rewrite H. destruct (getOwn row col) as [v|]; eexists; split; try reflexivity.
  apply lineFeeds_replaceAll.
Qed.

Lemma csvCell_plain (row : jsobject) (col : jsstring) :
  ExportService.inherited col = false ->
  exists cell, ExportService.csvCell row col = Ok cell.
Proof.
  intros H. unfold ExportService.csvCell, ExportService.get. fold (ExportService.inherited col).
  rewrite H. destruct (getOwn row col) as [v|]; eexists; reflexivity.
Qed.

(** A total function behind a map whose every call returns. *)
Lemma mapM_total {A B} (f : A -> outcome B) (P : B -> Prop) (l : list A) :
  (forall x, In x l -> exists b, f x = Ok b /\ P b) ->
  exists bs, ExportService.mapM f l = Ok bs /\ List.length bs = List.length l
             /\ forall b, In b bs -> P b.
Proof.
  induction l as [|x l IH]; intros H.
  - exists []. repeat split; auto. intros b [].
  - destruct (H x (or_introl eq_refl)) as (b & Hb & Pb).
    destruct IH as (bs & Hbs & Hl & Hall); [intros y Hy; apply H; now right|].
    exists (b :: bs). cbn [ExportService.mapM]. rewrite Hb. cbn [bind]. rewrite Hbs.
    cbn [bind List.length]. repeat split; auto.
    intros c [<-|Hc]; auto.
Qed.

End ExportFacts.

(** X17. The exports of a table none of whose column names is inherited by
    an empty object (and none of which holds a line feed): both exports
    go through, and the Markdown text has one line for the header, one
    for the separator and one for every row, whatever line feeds the
    values hold. *)
Theorem export_lines (result : QueryResult) :
  rows result <> [] ->
  (forall col, In col (columns result) ->
     ExportService.inherited col = false /\ ExportService.lineFeeds col = 0%nat) ->
  (exists csv, ExportService.exportToCSV result = Ok (Some csv))
  /\ exists md, ExportService.exportToMarkdown result = Ok (Some md)
                /\ ExportService.lineFeeds md = S (List.length (rows result)).
Proof.
  intros Hne Hcols.
  assert (Hlen : (List.length (rows result) =? 0)%nat = false)
    by (apply Nat.eqb_neq; destruct (rows result); [contradiction | discriminate]).
  split.
  - unfold ExportService.exportToCSV. rewrite Hlen.
    destruct (mapM_total
                (fun row => cells <- ExportService.mapM (ExportService.csvCell row) (columns result) ;;
                            Ok (ExportService.join (js ",") cells))
                (fun _ => True) (rows result)) as (lines & -> & _).
    + intros row _.
      destruct (mapM_total (ExportService.csvCell row) (fun _ => True) (columns result))
        as (cells & -> & _).
      * intros col Hcol. destruct (csvCell_plain row col) as (c & Hc);
          [apply Hcols, Hcol | eauto].
      * cbn [bind]. eauto.
    + cbn [bind]. eauto.
  - unfold ExportService.exportToMarkdown. rewrite Hlen. cbv zeta.
    destruct (mapM_total
                (fun row => cells <- ExportService.mapM (ExportService.mdCell row) (columns result) ;;
                            Ok (js "| " ++ ExportService.join (js " | ") cells ++ js " |"))
                (fun line => ExportService.lineFeeds line = 0%nat) (rows result))
      as (lines & -> & Hl & Hlines).
    + intros row _.
      destruct (mapM_total (ExportService.mdCell row)
                  (fun cell => ExportService.lineFeeds cell = 0%nat) (columns result))
        as (cells & -> & _ & Hcells).
      * intros col Hcol. apply mdCell_plain, Hcols, Hcol.
      * cbn [bind]. eexists. split; [reflexivity|].
        rewrite !count_app, lineFeeds_join; [reflexivity | reflexivity | exact Hcells].
    + cbn [bind]. eexists. split; [reflexivity|].
      rewrite !count_app.
      rewrite !(lineFeeds_join (js " | ")); try reflexivity.
      * change (ExportService.lineFeeds (js "| ")) with 0%nat.
        change (ExportService.lineFeeds (js " |")) with 0%nat.
        change (ExportService.lineFeeds [10]) with 1%nat.
        pose proof (lineFeeds_lines lines) as HL.
        assert (H : lines <> []).
        { intros ->. cbn in Hl. destruct (rows result); [contradiction|discriminate]. }
        specialize (HL H Hlines). exact (f_equal S (eq_trans HL Hl)).
      * intros x Hx. apply in_map_iff in Hx as (c & <- & _). reflexivity.
      * intros col Hcol. apply Hcols, Hcol.
Qed.

Lemma export_lines_witness :
  rows (flatten Example.inner Sample.rowset) <> []
  /\ (exists csv, ExportService.exportToCSV (flatten Example.inner Sample.rowset)
                  = Ok (Some csv))
  /\ exists md, ExportService.exportToMarkdown (flatten Example.inner Sample.rowset)
                = Ok (Some md)
                /\ ExportService.lineFeeds md = 3%nat.
Proof.
  assert (H1 : rows (flatten Example.inner Sample.rowset) <> [])
    by (vm_compute; discriminate).
  split; [exact H1|].
  apply (export_lines (flatten Example.inner Sample.rowset) H1).
  intros col Hcol. vm_compute in Hcol.
  destruct Hcol as [<-|[<-|[]]]; split; reflexivity.
Defined.

(** X18. A column whose name an empty object inherits, missing in some row:
    that row gives a function or an object for it, and both text
    exports throw a TypeError instead of writing a file. *)
Theorem export_inherited_column (result : QueryResult) (row : jsobject)
    (col : jsstring) :
  In row (rows result) ->
  In col (columns result) ->
  ExportService.inherited col = true ->
  getOwn row col = None ->
  (exists e, ExportService.exportToCSV result = Throw e /\ exnName e = js "TypeError")
  /\ exists e, ExportService.exportToMarkdown result = Throw e
               /\ exnName e = js "TypeError".
Proof.
  intros Hrow Hcol Hinh Hown.
  assert (Hlen : (List.length (rows result) =? 0)%nat = false)
    by (apply Nat.eqb_neq; destruct (rows result); [contradiction | discriminate]).
  split.
  - set (e := ExportService.TypeError (js "val.includes is not a function")).
    exists e. split; [|reflexivity].
    unfold ExportService.exportToCSV. rewrite Hlen. cbv zeta.
    assert (Hcell : forall r c, ExportService.csvCell r c = Throw e
                                \/ exists b, ExportService.csvCell r c = Ok b).
    { intros r c. unfold ExportService.csvCell.
      destruct (ExportService.get r c); [right|left|right]; eauto. }
    rewrite (mapM_throw _ e (rows result) row Hrow); [reflexivity| |].
    + rewrite (mapM_throw _ e (columns result) col Hcol); [reflexivity| |auto].
      unfold ExportService.csvCell, ExportService.get. rewrite Hown.
      fold (ExportService.inherited col). now rewrite Hinh.
    + intros r _.
      destruct (mapM_either (ExportService.csvCell r) e (columns result) (Hcell r))
        as [->|(b & ->)]; cbn [bind]; [now left | right; eauto].
  - set (e := ExportService.TypeError (js "(row[col] || '').replace is not a function")).
    exists e. split; [|reflexivity].
    unfold ExportService.exportToMarkdown. rewrite Hlen. cbv zeta.
    assert (Hcell : forall r c, ExportService.mdCell r c = Throw e
                                \/ exists b, ExportService.mdCell r c = Ok b).
    { intros r c. unfold ExportService.mdCell.
      destruct (ExportService.get r c); [right|left|right]; eauto. }
    rewrite (mapM_throw _ e (rows result) row Hrow); [reflexivity| |].
    + rewrite (mapM_throw _ e (columns result) col Hcol); [reflexivity| |auto].
      unfold ExportService.mdCell, ExportService.get. rewrite Hown.
      fold (ExportService.inherited col). now rewrite Hinh.
    + intros r _.
      destruct (mapM_either (ExportService.mdCell r) e (columns result) (Hcell r))
        as [->|(b & ->)]; cbn [bind]; [now left | right; eauto].
Qed.

(** The table of a report with an element named [__proto__] cannot be
    exported as text. *)
Lemma export_inherited_column_witness :
  exists result : QueryResult,
    parseOracleXML (Sample.parserOf Sample.protoTwice) Example.protoText
    = Ok result
    /\ (exists e, ExportService.exportToCSV result = Throw e
                  /\ exnName e = js "TypeError")
    /\ exists e, ExportService.exportToMarkdown result = Throw e
                 /\ exnName e = js "TypeError".
Proof.
  eexists. split; [vm_compute; reflexivity|].
  apply (export_inherited_column _ [] (js "__proto__"));
    [now left | now left | reflexivity | reflexivity].
Defined.
